(** * Product ingestion and search of [backend.py]

    A shallow embedding of [run_product_ingestion] and [search_products]
    (src/backend.py) and of the earlier one-shot [ingest_products]
    (src/main.py), together with the SQL statements they send.

    The tables are lists of rows, each SQL statement is a function on the
    tables, and the Python function is a state-passing program over a
    database session that also records the statements it sends. *)

From Stdlib Require Import String Ascii List ZArith Lia Bool Arith Permutation
  Sorted DecimalString SpecFloat.
Import ListNotations.

Local Open Scope string_scope.
Local Open Scope list_scope.

(** ** Module constants *)

Definition COLLECTION_NAME : string := "products.description".

(** ** Tables *)

Definition timestamp := Z.

(** A row of [products]: the columns the statements read. *)
Record product := mk_product {
  p_id : Z;
  p_name : string;
  p_description : option string;   (* nullable column *)
  p_category : string;
  p_updated_at : timestamp
}.

(** Metadata is a JSON object, written by Python from a dict. *)
Inductive json :=
| JNumber (n : Z)
| JString (s : string).

Definition metadata := list (string * json).

(** A row of [langchain_embedding], joined with its [langchain_collection]
    row: [langchain_collection.label] is a unique key, so the label stands for
    the collection id and [JOIN langchain_collection c ON c.id =
    e.collection_id ... WHERE c.label = ?] reads [e_collection e = label].
    The primary key [e.id] is never null on a stored row; the vector itself
    is not read by any statement of the program. *)
Record embedding := mk_embedding {
  e_collection : string;
  e_content : string;
  e_metadata : metadata;
  e_created_at : timestamp
}.

Record database := mk_database {
  products : list product;
  langchain_embedding : list embedding
}.

(** ** SQL expressions *)

Definition json_eqb (a b : json) : bool :=
  match a, b with
  | JNumber x, JNumber y => Z.eqb x y
  | JString x, JString y => String.eqb x y
  | _, _ => false
  end.

(** [dict.get(key)] / [JSON_VALUE(metadata, '$.key')]. *)
Fixpoint json_get (key : string) (m : metadata) : option json :=
  match m with
  | [] => None
  | (k, v) :: m' => if String.eqb k key then Some v else json_get key m'
  end.

(** [JSON_VALUE(e.metadata, '$.id')] as a product identity; the store writes
    the Python int as a JSON number. *)
Definition metadata_id (e : embedding) : option Z :=
  match json_get "id" (e_metadata e) with
  | Some (JNumber i) => Some i
  | _ => None
  end.

(** [c.label = ?] *)
Definition in_collection (label : string) (e : embedding) : bool :=
  String.eqb (e_collection e) label.

(** [p.id = JSON_VALUE(e.metadata, '$.id')] *)
Definition joins (e : embedding) (p : product) : bool :=
  match metadata_id e with
  | Some i => Z.eqb (p_id p) i
  | None => false
  end.

Definition is_space (c : ascii) : bool := Ascii.eqb c " "%char.

(** SQL [TRIM(s)]: with no [remstr] given, leading and trailing spaces are
    removed, and nothing else. *)
Fixpoint ltrim (s : string) : string :=
  match s with
  | String c s' => if is_space c then ltrim s' else s
  | EmptyString => EmptyString
  end.

Fixpoint rtrim (s : string) : string :=
  match s with
  | EmptyString => EmptyString
  | String c s' =>
      match rtrim s' with
      | EmptyString => if is_space c then EmptyString else String c EmptyString
      | r => String c r
      end
  end.

Definition TRIM (s : string) : string := rtrim (ltrim s).

(** [p.description IS NOT NULL AND TRIM(p.description) <> ''] *)
Definition has_description (p : product) : bool :=
  match p_description p with
  | Some d => negb (String.eqb (TRIM d) "")
  | None => false
  end.

(** ** The three statements of [run_product_ingestion] *)

(** Row of [e] selected by the first DELETE: in the collection, and the
    LEFT JOIN on [products] found no row ([p.id IS NULL]). *)
Definition orphaned (label : string) (db : database) (e : embedding) : bool :=
  in_collection label e && negb (existsb (joins e) (products db)).

(** Row of [e] selected by the second DELETE: in the collection and joined to
    a product updated after the row was created, whose description is
    neither null nor blank. *)
Definition outdated (label : string) (db : database) (e : embedding) : bool :=
  in_collection label e &&
  existsb (fun p => joins e p
                    && (e_created_at e <? p_updated_at p)%Z
                    && has_description p)
          (products db).

Definition delete_where (sel : embedding -> bool) (db : database) : database :=
  {| products := products db;
     langchain_embedding := filter (fun e => negb (sel e)) (langchain_embedding db) |}.

(** [cursor.rowcount] after a DELETE. *)
Definition rowcount (sel : embedding -> bool) (db : database) : nat :=
  length (filter sel (langchain_embedding db)).

(** [ORDER BY p.id]: a stable insertion sort on the identity. *)
Fixpoint insert_by_id (p : product) (l : list product) : list product :=
  match l with
  | [] => [p]
  | q :: l' => if (p_id p <=? p_id q)%Z then p :: l else q :: insert_by_id p l'
  end.

Definition order_by_id (l : list product) : list product :=
  fold_right insert_by_id [] l.

(** Row of [products] kept by the SELECT: the LEFT JOINs found no embedding
    of the collection for it ([e.id IS NULL]) and it has a description. *)
Definition missing (label : string) (db : database) (p : product) : bool :=
  negb (existsb (fun e => in_collection label e && joins e p)
                (langchain_embedding db))
  && has_description p.

(** The SELECT of the loop, with its [LIMIT ? OFFSET ?]. *)
Definition select_missing (label : string) (limit offset : nat)
           (db : database) : list product :=
  firstn limit (skipn offset (order_by_id (filter (missing label db) (products db)))).

(** ** The vector store *)

(** The text and the metadata dict the loop builds from a fetched row. The
    SELECT never returns a null description. *)
Definition text_of (p : product) : string :=
  match p_description p with
  | Some d => d
  | None => EmptyString
  end.

Definition metadata_of (p : product) : metadata :=
  [("id", JNumber (p_id p)); ("name", JString (p_name p));
   ("category", JString (p_category p))].

(** Modelled from the spec: [MariaDBStore.add_texts] is the library behind
    [upsert_batch]; it writes one entry per (text, metadata) pair into the
    collection the store was built for, stamped with the current time. *)
Definition add_texts (label : string) (now : timestamp) (texts : list string)
           (metadatas : list metadata) (db : database) : database :=
  {| products := products db;
     langchain_embedding :=
       langchain_embedding db
       ++ map (fun tm => mk_embedding label (fst tm) (snd tm) now)
              (combine texts metadatas) |}.

(** The entry [add_texts] writes for a fetched row. *)
Definition entry_of (label : string) (now : timestamp) (p : product) : embedding :=
  mk_embedding label (text_of p) (metadata_of p) now.

(** ** The cursor's session *)

(** The statements a run sends, in order. *)
Inductive statement :=
| ALTER_TABLE
| DELETE_ORPHANED (rows : nat)
| DELETE_OUTDATED (rows : nat)
| COMMIT
| SELECT_MISSING (limit offset : nat) (rows : list product)
| ADD_TEXTS (texts : list string) (metadatas : list metadata).

(** The cursor runs with autocommit off (the program sends its own COMMIT
    after the DELETEs), so the SELECTs of the loop, between which the cursor
    never commits, share one transaction. The store is built from a
    datasource string and writes through connections of its own. What the
    SELECTs see of the rows the store commits meanwhile is decided by the
    isolation level, which the program leaves at the server's setting;
    REPEATABLE READ is the server default. *)
Inductive isolation :=
| REPEATABLE_READ
| READ_COMMITTED.

Record session := mk_session {
  live : database;                 (* the committed tables *)
  read_view : option database;     (* snapshot of the open transaction *)
  log : list statement
}.

Definition connect (db : database) : session :=
  {| live := db; read_view := None; log := [] |}.

Definition send (st : statement) (s : session) : session :=
  {| live := live s; read_view := read_view s; log := log s ++ [st] |}.

Definition write (db : database) (s : session) : session :=
  {| live := db; read_view := read_view s; log := log s |}.

(** COMMIT, and the implicit commit of a DDL statement, end the transaction
    and drop its snapshot. *)
Definition end_transaction (s : session) : session :=
  {| live := live s; read_view := None; log := log s |}.

(** The tables a consistent read sees. *)
Definition visible (iso : isolation) (s : session) : database :=
  match iso, read_view s with
  | REPEATABLE_READ, Some v => v
  | _, _ => live s
  end.

(** The first consistent read of a REPEATABLE READ transaction takes the
    snapshot. *)
Definition begin_read (iso : isolation) (s : session) : session :=
  match iso, read_view s with
  | REPEATABLE_READ, None =>
      {| live := live s; read_view := Some (live s); log := log s |}
  | _, _ => s
  end.

Record run_result := mk_result {
  orphaned_count : nat;
  outdated_count : nat;
  total_ingested : nat;
  final : session
}.

Section Ingestion.

Variable iso : isolation.
Variable EMBEDDING_BATCH_SIZE : nat.
(** [clock k]: CURRENT_TIMESTAMP when the [k]-th batch is written. *)
Variable clock : nat -> timestamp.

(** The [while has_more_products] loop; [k] counts its iterations. *)
Fixpoint ingest_loop (fuel k total : nat) (s : session)
  : option (nat * session) :=
  match fuel with
  | 0 => None
  | S fuel' =>
      let s1 := begin_read iso s in
      let batch_rows :=
        select_missing COLLECTION_NAME EMBEDDING_BATCH_SIZE total
                       (visible iso s1) in
      let s2 := send (SELECT_MISSING EMBEDDING_BATCH_SIZE total batch_rows) s1 in
      match batch_rows with
      | [] => Some (total, s2)
      | _ :: _ =>
          let texts := map text_of batch_rows in
          let metadatas := map metadata_of batch_rows in
          let s3 := send (ADD_TEXTS texts metadatas)
                         (write (add_texts COLLECTION_NAME (clock k) texts metadatas
                                           (live s2)) s2) in
          ingest_loop fuel' (S k) (total + length batch_rows) s3
      end
  end.

(** The statements before the loop. *)
Definition clean (s : session) : nat * nat * session :=
  let s1 := send ALTER_TABLE (end_transaction s) in
  let orphaned_n := rowcount (orphaned COLLECTION_NAME (live s1)) (live s1) in
  let s2 := send (DELETE_ORPHANED orphaned_n)
                 (write (delete_where (orphaned COLLECTION_NAME (live s1)) (live s1)) s1) in
  let outdated_n := rowcount (outdated COLLECTION_NAME (live s2)) (live s2) in
  let s3 := send (DELETE_OUTDATED outdated_n)
                 (write (delete_where (outdated COLLECTION_NAME (live s2)) (live s2)) s2) in
  (orphaned_n, outdated_n, send COMMIT (end_transaction s3)).

Definition run_with_fuel (fuel : nat) (db : database) : option run_result :=
  let '(orphaned_n, outdated_n, s) := clean (connect db) in
  match ingest_loop fuel 0 0 s with
  | Some (total, s') => Some (mk_result orphaned_n outdated_n total s')
  | None => None
  end.

(** One more iteration than there are products always suffices
    ([ingest_loop_returns] below). *)
Definition run_product_ingestion (db : database) : option run_result :=
  run_with_fuel (S (length (products db))) db.

End Ingestion.

(** Sizes of the batches handed to [add_texts], in order. *)
Definition batch_sizes (l : list statement) : list nat :=
  flat_map (fun st => match st with
                      | ADD_TEXTS texts _ => [length texts]
                      | _ => []
                      end) l.


(** The statements of the loop: a SELECT, or an [add_texts] call built from
    fetched rows. *)
Definition ingestion_statement (ok : product -> Prop) (st : statement) : Prop :=
  match st with
  | SELECT_MISSING _ _ rows => Forall ok rows
  | ADD_TEXTS texts metadatas =>
      exists rows, texts = map text_of rows /\ metadatas = map metadata_of rows
                   /\ Forall ok rows
  | _ => False
  end.

(** ** [ingest_products] of main.py: one SELECT, one [add_texts] *)

Module Main.

Definition COLLECTION_NAME : string := "product_descriptions".

(** The SELECT has neither ORDER BY nor LIMIT; rows come in table order. *)
Definition fetchall (db : database) : list product :=
  filter (missing COLLECTION_NAME db) (products db).

Definition ingest_products (now : timestamp) (db : database)
  : list product * database :=
  let rows := fetchall db in
  (rows, add_texts COLLECTION_NAME now (map text_of rows) (map metadata_of rows) db).

End Main.

(** ** Blank descriptions *)

Fixpoint string_forallb (f : ascii -> bool) (s : string) : bool :=
  match s with
  | EmptyString => true
  | String c s' => f c && string_forallb f s'
  end.

(** Space, tab, line feed, vertical tab, form feed, carriage return. *)
Definition is_whitespace (c : ascii) : bool :=
  Ascii.eqb c " "%char || Ascii.eqb c "009"%char || Ascii.eqb c "010"%char
  || Ascii.eqb c "011"%char || Ascii.eqb c "012"%char || Ascii.eqb c "013"%char.

(** Null, empty or whitespace-only. *)
Definition blank_description (p : product) : bool :=
  match p_description p with
  | None => true
  | Some d => string_forallb is_whitespace d
  end.

(** Null, empty or made of spaces only. *)
Definition spaces_description (p : product) : bool :=
  match p_description p with
  | None => true
  | Some d => string_forallb is_space d
  end.

(** ** [search_products] *)

Record search_result := mk_search_result {
  r_id : option json;
  r_name : option json;
  r_description : string
}.

Section Search.

(** The store's ordering of candidate rows by distance to the embedded
    query; the embedding service and the distance are opaque here. *)
Variable nearest : string -> list embedding -> list embedding.

(** A filter dict matches when every key is present with an equal value. *)
Definition metadata_matches (flt : metadata) (e : embedding) : bool :=
  forallb (fun kv => match json_get (fst kv) (e_metadata e) with
                     | Some v => json_eqb v (snd kv)
                     | None => false
                     end) flt.

(** Modelled from the spec: [MariaDBStore.similarity_search] is the library
    behind [similarity_query]; it returns up to [k] nearest entries of the
    collection that match the metadata filter exactly. *)
Definition similarity_search (label query : string) (k : nat) (flt : metadata)
           (db : database) : list embedding :=
  firstn k (nearest query
              (filter (fun e => in_collection label e && metadata_matches flt e)
                      (langchain_embedding db))).

Definition project (doc : embedding) : search_result :=
  {| r_id := json_get "id" (e_metadata doc);
     r_name := json_get "name" (e_metadata doc);
     r_description := e_content doc |}.

Definition search_products (search_query category : string) (k : nat)
           (db : database) : list search_result :=
  map project
      (similarity_search COLLECTION_NAME search_query k
                         [("category", JString category)] db).

End Search.

(** ** Names for the parts of a run *)

(** The tables when the loop starts: both DELETEs applied, in order. *)
Definition cleaned (db : database) : database :=
  let db1 := delete_where (orphaned COLLECTION_NAME db) db in
  delete_where (outdated COLLECTION_NAME db1) db1.

(** The rows an iteration fetches. *)
Definition fetched (iso : isolation) (limit total : nat) (s : session)
  : list product :=
  select_missing COLLECTION_NAME limit total (visible iso (begin_read iso s)).

(** The session after an iteration that fetched [rows]. *)
Definition after_batch (limit : nat) (now : timestamp) (total : nat)
           (rows : list product) (s : session) : session :=
  send (ADD_TEXTS (map text_of rows) (map metadata_of rows))
       (write (add_texts COLLECTION_NAME now (map text_of rows)
                         (map metadata_of rows) (live s))
              (send (SELECT_MISSING limit total rows) s)).

(** A snapshot holds the catalog of the committed tables: nothing writes
    [products] during a run. *)
Definition view_ok (s : session) : Prop :=
  match read_view s with
  | Some v => products v = products (live s)
  | None => True
  end.

(** Rows the loop has still to pass before its SELECT comes back empty. *)
Definition pending (iso : isolation) (total : nat) (s : session) : nat :=
  match iso with
  | REPEATABLE_READ =>
      let v := visible iso (begin_read iso s) in
      length (filter (missing COLLECTION_NAME v) (products v)) - total
  | READ_COMMITTED =>
      length (filter (missing COLLECTION_NAME (live s)) (products (live s)))
  end.

(** An entry of the collection that belongs to product [p]. *)
Definition entry_for (p : product) (e : embedding) : bool :=
  in_collection COLLECTION_NAME e && joins e p.

(** [cursor.rowcount] after each DELETE of a run on [db]. *)
Definition orphaned_rows (db : database) : nat :=
  rowcount (orphaned COLLECTION_NAME db) db.

Definition outdated_rows (db : database) : nat :=
  rowcount (outdated COLLECTION_NAME db)
           (delete_where (orphaned COLLECTION_NAME db) db).

(** The session when the loop starts. *)
Definition loop_start (db : database) : session :=
  {| live := cleaned db;
     read_view := None;
     log := [ALTER_TABLE; DELETE_ORPHANED (orphaned_rows db);
             DELETE_OUTDATED (outdated_rows db); COMMIT] |}.

(** The rows a run on [db] has to ingest, in the order of the SELECT. *)
Definition to_ingest (db : database) : list product :=
  order_by_id (filter (missing COLLECTION_NAME (cleaned db)) (products db)).

(** ** Sample tables *)

Definition tent : product :=
  mk_product 1%Z "Tent" (Some "Waterproof tent") "Camping" 10%Z.

Definition jacket : product :=
  mk_product 2%Z "Jacket" (Some "Rain jacket") "Apparel" 10%Z.

Definition boots : product :=
  mk_product 3%Z "Boots" (Some "Hiking boots") "Footwear" 10%Z.

Definition three_products : database :=
  mk_database [boots; tent; jacket] [].

(** A clock that has passed every timestamp of the samples. *)
Definition noon : nat -> timestamp := fun k => (100 + Z.of_nat k)%Z.

(** The tent was indexed at time 5 and edited at time 10. *)
Definition old_tent_entry : embedding :=
  mk_embedding COLLECTION_NAME "Leaky tent"
               [("id", JNumber 1%Z); ("name", JString "Tent");
                ("category", JString "Camping")] 5%Z.

Definition edited_tent : database :=
  mk_database [tent; jacket] [old_tent_entry].

(** The jacket was taken off the catalog; its entry is still indexed. *)
Definition jacket_entry : embedding :=
  mk_embedding COLLECTION_NAME "Rain jacket"
               [("id", JNumber 2%Z); ("name", JString "Jacket");
                ("category", JString "Apparel")] 20%Z.

Definition tent_entry : embedding :=
  mk_embedding COLLECTION_NAME "Waterproof tent"
               [("id", JNumber 1%Z); ("name", JString "Tent");
                ("category", JString "Camping")] 20%Z.


(** A record whose description is a single tab character, edited at time
    10, and the entry written for it at time 5. *)
Definition tab_only : product :=
  mk_product 7%Z "Blank" (Some (String "009"%char EmptyString)) "Misc" 10%Z.

Definition tab_entry : embedding :=
  mk_embedding COLLECTION_NAME "Folding chair"
               [("id", JNumber 7%Z); ("name", JString "Blank");
                ("category", JString "Misc")] 5%Z.

Definition tab_catalog : database := mk_database [tab_only] [].

Definition tab_edited : database := mk_database [tab_only] [tab_entry].

(** A record whose description is made of spaces, with its entry. *)
Definition spaces_only : product :=
  mk_product 8%Z "Spaces" (Some "   ") "Misc" 10%Z.

Definition spaces_entry : embedding :=
  mk_embedding COLLECTION_NAME "Camping stove"
               [("id", JNumber 8%Z); ("name", JString "Spaces");
                ("category", JString "Misc")] 5%Z.

Definition spaces_edited : database :=
  mk_database [spaces_only; tent] [spaces_entry].

(** Entries of two categories. *)
Definition boots_entry : embedding :=
  mk_embedding COLLECTION_NAME "Hiking boots"
               [("id", JNumber 3%Z); ("name", JString "Boots");
                ("category", JString "Footwear")] 20%Z.

Definition two_categories : database :=
  mk_database [jacket; boots] [jacket_entry; boots_entry].

(** A statement of a run that neither fetches [p] nor hands it, or any text
    made of spaces only, to [add_texts]. *)
Definition keeps_out (p : product) (st : statement) : Prop :=
  match st with
  | SELECT_MISSING _ _ rows => ~ In p rows
  | ADD_TEXTS texts metadatas =>
      (exists rows, texts = map text_of rows /\ metadatas = map metadata_of rows
                    /\ ~ In p rows)
      /\ Forall (fun t => string_forallb is_space t = false) texts
  | _ => True
  end.

(** Three records without entry and a fourth, the stove, whose entry was
    written at time 5, before its last update at time 10. *)
Definition stove : product :=
  mk_product 4%Z "Stove" (Some "Camping stove") "Camping" 10%Z.

Definition old_stove_entry : embedding :=
  mk_embedding COLLECTION_NAME "Gas stove"
               [("id", JNumber 4%Z); ("name", JString "Stove");
                ("category", JString "Camping")] 5%Z.

Definition three_missing_one_stale : database :=
  mk_database [boots; tent; jacket; stove] [old_stove_entry].

(** A record whose last update is dated 1000, ahead of the clock [noon],
    alone and with an entry written at time 5. *)
Definition lantern : product :=
  mk_product 9%Z "Lantern" (Some "Solar lantern") "Camping" 1000%Z.

Definition old_lantern_entry : embedding :=
  mk_embedding COLLECTION_NAME "Oil lantern"
               [("id", JNumber 9%Z); ("name", JString "Lantern");
                ("category", JString "Camping")] 5%Z.

Definition dated_ahead : database := mk_database [lantern] [].

Definition edited_ahead : database := mk_database [lantern] [old_lantern_entry].

(** The tent, edited at time 10, with two entries: one written at time 5
    and one written at time 20. *)
Definition stale_and_fresh : database :=
  mk_database [tent] [old_tent_entry; tent_entry].

(** ** The shape of the loop's statements *)

(** [loop_log limit total sent n]: [sent] is what a loop that starts at
    offset [total] and ends with [n] ingested rows sends: a SELECT and an
    [add_texts] call for each non-empty fetch, and a last SELECT that
    fetches nothing. *)
Inductive loop_log (limit : nat) : nat -> list statement -> nat -> Prop :=
| loop_log_stop total :
    loop_log limit total [SELECT_MISSING limit total []] total
| loop_log_batch total rows sent n :
    rows <> [] ->
    length rows <= limit ->
    loop_log limit (total + length rows) sent n ->
    loop_log limit total
             (SELECT_MISSING limit total rows
              :: ADD_TEXTS (map text_of rows) (map metadata_of rows)
              :: sent) n.

(** Offsets of the SELECTs, in order. *)
Definition offsets (l : list statement) : list nat :=
  flat_map (fun st => match st with
                      | SELECT_MISSING _ offset _ => [offset]
                      | _ => []
                      end) l.

(** Running totals of a list of sizes, from [start]. *)
Fixpoint running_totals (start : nat) (sizes : list nat) : list nat :=
  match sizes with
  | [] => [start]
  | b :: sizes' => start :: running_totals (start + b) sizes'
  end.

(** ** The endpoints of backend.py *)

Inductive http_exception :=
| HTTPException (status_code : nat) (detail : string).

(** The web framework refuses a request that carries no credentials with
    status 403 in its earlier releases and with status 401 in the later
    ones. *)
Inductive framework_release :=
| Refuses403
| Refuses401.

Definition not_authenticated (release : framework_release) : http_exception :=
  HTTPException match release with Refuses403 => 403 | Refuses401 => 401 end
                "Not authenticated".

(** [api_key_header = APIKeyHeader(name="X-API-Key")], the framework's
    dependency, on the X-API-Key header of the request ([None] when the
    request has none): a missing or empty header raises, any other value
    is returned. *)
Definition api_key_header (release : framework_release) (header : option string)
  : http_exception + string :=
  match header with
  | None => inl (not_authenticated release)
  | Some EmptyString => inl (not_authenticated release)
  | Some api_key => inr api_key
  end.

(** [verify_api_key], on the key [api_key_header] returned; [None] when it
    returns, [Some e] when it raises [e]. *)
Definition verify_api_key (DEMO_API_KEY api_key : string) : option http_exception :=
  if negb (String.eqb api_key DEMO_API_KEY)
  then Some (HTTPException 401 "Invalid API key")
  else None.

(** [Depends(verify_api_key)], itself depending on [api_key_header]: the
    header dependency runs first, [verify_api_key] only when it returned. *)
Definition depends_verify_api_key (release : framework_release)
           (DEMO_API_KEY : string) (header : option string)
  : option http_exception :=
  match api_key_header release header with
  | inl e => Some e
  | inr api_key => verify_api_key DEMO_API_KEY api_key
  end.

(** What [background_tasks.add_task] schedules. *)
Inductive background_task :=
| RunProductIngestion.

Inductive ingest_response :=
| IngestAccepted (status message : string)
| IngestRejected (e : http_exception).

(** POST /ingest-products: the dependencies run first, and the body only
    when they returned. *)
Definition ingest_products_endpoint (release : framework_release)
           (DEMO_API_KEY : string) (header : option string)
  : ingest_response * list background_task :=
  match depends_verify_api_key release DEMO_API_KEY header with
  | Some e => (IngestRejected e, [])
  | None =>
      (IngestAccepted "Ingestion started"
                      "Product ingestion is running in the background",
       [RunProductIngestion])
  end.

(** The answers to GET /search-products: the returned dict, a raised
    [HTTPException], or an exception of the store, which the endpoint does
    not catch. *)
Inductive search_response :=
| SearchResults (results : list search_result)
| SearchRejected (e : http_exception)
| SearchRaised.

(** GET /search-products; [answers] tells whether the store's
    [similarity_search] returns for the query (the embedding service and
    the database answering) or raises. *)
Definition search_products_endpoint
           (release : framework_release) (answers : string -> bool)
           (nearest : string -> list embedding -> list embedding)
           (DEMO_API_KEY : string) (header : option string)
           (search_query category : string) (k : nat)
           (db : database) : search_response :=
  match depends_verify_api_key release DEMO_API_KEY header with
  | Some e => SearchRejected e
  | None =>
      if answers search_query
      then SearchResults (search_products nearest search_query category k db)
      else SearchRaised
  end.

(** The scheduled tasks run once the response is sent, one after the
    other, on the tables as they then are. *)
Fixpoint run_background (iso : isolation) (B : nat) (clock : nat -> timestamp)
         (tasks : list background_task) (db : database) : option database :=
  match tasks with
  | [] => Some db
  | RunProductIngestion :: tasks' =>
      match run_product_ingestion iso B clock db with
      | Some r => run_background iso B clock tasks' (live (final r))
      | None => None
      end
  end.

(** A request to /ingest-products, served to the end. *)
Definition serve_ingest_products (iso : isolation) (B : nat)
           (clock : nat -> timestamp) (release : framework_release)
           (DEMO_API_KEY : string) (header : option string)
           (db : database) : ingest_response * option database :=
  let (response, tasks) := ingest_products_endpoint release DEMO_API_KEY header in
  (response, run_background iso B clock tasks db).

(** ** main.py: the search endpoint *)

Module MainSearch.

Definition search_products
           (nearest : string -> list embedding -> list embedding)
           (search_query category : string) (k : nat) (db : database)
  : list search_result :=
  map project
      (similarity_search nearest Main.COLLECTION_NAME search_query k
                         [("category", JString category)] db).

End MainSearch.

(** ** webinar-main.py *)

Module Webinar.

(** A stable insertion sort for [ORDER BY]. *)
Fixpoint insert_by {A} (le : A -> A -> bool) (x : A) (l : list A) : list A :=
  match l with
  | [] => [x]
  | y :: l' => if le x y then x :: l else y :: insert_by le x l'
  end.

Definition order_by {A} (le : A -> A -> bool) (l : list A) : list A :=
  fold_right (insert_by le) [] l.

Section Endpoints.

(** [MATCH(name) AGAINST(query)] is a score computed by the server;
    [scores_le query a b] tells whether the score of name [a] is at most
    that of name [b]. *)
Variable scores_le : string -> string -> string -> bool.

(** The collection of a store built without [collection_name]. *)
Variable default_collection : string.

Variable nearest : string -> list embedding -> list embedding.

(** GET /products/text-search:
    [SELECT name FROM products ORDER BY MATCH(name) AGAINST(?) LIMIT 10]. *)
Definition text_search (query : string) (db : database) : list string :=
  firstn 10 (order_by (scores_le query) (map p_name (products db))).

(** POST /products/ingest: [SELECT name FROM products], then [add_texts]
    with the names and no metadata (an empty dict for each text). *)
Definition ingest_products (now : timestamp) (db : database) : string * database :=
  let names := map p_name (products db) in
  ("Products ingested successfully",
   add_texts default_collection now names (map (fun _ => []) names) db).

(** GET /products/semantic-search: [similarity_search(query, k=10)], no
    filter. *)
Definition search_products (query : string) (db : database) : list string :=
  map e_content (similarity_search nearest default_collection query 10 [] db).

End Endpoints.

End Webinar.

(** ** frontend.py *)

Module Frontend.

(** Python values, as [response.json()] gives them. A [string] stands for
    a Python [str], one [ascii] per character (code points below 256); the
    pairs of a [PyDict] are the items of the dict, looked up from the
    front. *)
#[warnings="-register-all"]
Inductive pyvalue :=
| PyNone
| PyBool (b : bool)
| PyInt (n : Z)
| PyFloat (x : spec_float)
| PyStr (s : string)
| PyList (items : list pyvalue)
| PyDict (items : list (string * pyvalue)).

Definition pydict := list (string * pyvalue).

Fixpoint dict_get (key : string) (d : pydict) : option pyvalue :=
  match d with
  | [] => None
  | (k, v) :: d' => if String.eqb k key then Some v else dict_get key d'
  end.

(** [d.get(key, default)] *)
Definition get (key : string) (default : pyvalue) (d : pydict) : pyvalue :=
  match dict_get key d with
  | Some v => v
  | None => default
  end.

(** The keys of a dict, each once. *)
Fixpoint keys (d : pydict) : list string :=
  match d with
  | [] => []
  | (k, _) :: d' => k :: filter (fun k' => negb (String.eqb k' k)) (keys d')
  end.

(** The truth value of a Python value, as [not] and [if] take it. *)
Definition truthy (v : pyvalue) : bool :=
  match v with
  | PyNone => false
  | PyBool b => b
  | PyInt n => negb (Z.eqb n 0)
  | PyFloat (S754_zero _) => false
  | PyFloat _ => true
  | PyStr s => negb (String.eqb s "")
  | PyList [] => false
  | PyList _ => true
  | PyDict [] => false
  | PyDict _ => true
  end.

(** [len(v)]; [None] when it raises [TypeError]. *)
Definition len (v : pyvalue) : option nat :=
  match v with
  | PyStr s => Some (String.length s)
  | PyList items => Some (length items)
  | PyDict d => Some (length (keys d))
  | _ => None
  end.

(** What [for product in v] goes through: the items of a list, the
    characters of a [str], the keys of a dict; [None] when [v] is not
    iterable. *)
Definition iter (v : pyvalue) : option (list pyvalue) :=
  match v with
  | PyStr s => Some (map (fun c => PyStr (String c EmptyString))
                         (list_ascii_of_string s))
  | PyList items => Some items
  | PyDict d => Some (map PyStr (keys d))
  | _ => None
  end.

(** [str.isspace] on one character below 256: tab to carriage return, the
    four separators 28 to 31, the space, NEL and the no-break space. *)
Definition isspace (c : ascii) : bool :=
  let n := nat_of_ascii c in
  (Nat.leb 9 n && Nat.leb n 13) || (Nat.leb 28 n && Nat.leb n 32)
  || Nat.eqb n 133 || Nat.eqb n 160.

Fixpoint lstrip (s : string) : string :=
  match s with
  | String c s' => if isspace c then lstrip s' else s
  | EmptyString => EmptyString
  end.

Fixpoint rstrip (s : string) : string :=
  match s with
  | EmptyString => EmptyString
  | String c s' =>
      match rstrip s' with
      | EmptyString => if isspace c then EmptyString else String c EmptyString
      | r => String c r
      end
  end.

(** [str.strip()] *)
Definition strip (s : string) : string := rstrip (lstrip s).

Fixpoint last_char (s : string) : option ascii :=
  match s with
  | EmptyString => None
  | String c EmptyString => Some c
  | String _ s' => last_char s'
  end.

Definition first_char (s : string) : option ascii :=
  match s with
  | EmptyString => None
  | String c _ => Some c
  end.

(** The text of a card: descriptions over 150 characters are cut. *)
Definition card_description (description : string) : string :=
  if Nat.ltb 150 (String.length description)
  then substring 0 150 description ++ "..."
  else description.

(** The lines that cut the description, on any value: [len(description)]
    raises on a value without length, and [description[:150] + "..."]
    raises on a list or a dict of more than 150 items; [None] when they
    raise. *)
Definition truncate (description : pyvalue) : option pyvalue :=
  match description with
  | PyStr s => Some (PyStr (card_description s))
  | _ =>
      match len description with
      | Some n => if Nat.ltb 150 n then None else Some description
      | None => None
      end
  end.

(** The elements drawn, each container with the elements created inside
    it, in order; [Html icon] is the image placeholder around [icon].
    Classes, colours, icons of buttons and click handlers are left out. *)
#[warnings="-register-all"]
Inductive element :=
| Html (icon : string)
| Label (text : pyvalue)
| Button (text : string)
| Row (children : list element)
| Grid (children : list element)
| Card (children : list element)
| CardSection (children : list element)
| CardActions (children : list element).

(** [create_product_card], [icon] being the random choice: the card as it
    stands when the function ends, and whether it returned without
    raising. [product.get] raises on a value that is not a dict, once the
    image is drawn and the second section is open; the lines that cut the
    description raise once the name is drawn and the third section is
    open. *)
Definition create_product_card (icon : string) (product : pyvalue)
  : element * bool :=
  match product with
  | PyDict d =>
      match truncate (get "description" (PyStr "No description available") d) with
      | Some description =>
          (Card [CardSection [Html icon];
                 CardSection [Label (get "name" (PyStr "Unknown Product") d)];
                 CardSection [Label description];
                 CardSection [Label (PyStr "Price on request")];
                 CardActions [Row [Button "View Details"; Button "Add to Cart"]]],
           true)
      | None =>
          (Card [CardSection [Html icon];
                 CardSection [Label (get "name" (PyStr "Unknown Product") d)];
                 CardSection []],
           false)
      end
  | _ => (Card [CardSection [Html icon]; CardSection []], false)
  end.

(** The request [search_products] sends. *)
Record request := mk_request {
  req_api_key : string;
  req_search_query : string;
  req_category : string;
  req_k : nat
}.

(** What [client.get] does: a response, with its status and what
    [response.json()] gives for its body ([None] when the body is not JSON
    and [response.json()] raises), a timeout, or another exception. *)
Inductive http_outcome :=
| Responded (status_code : nat) (body : option pyvalue)
| TimedOut
| Failed.

Inductive notification :=
| Notify (message kind : string).

Definition decimal (n : nat) : string := NilEmpty.string_of_uint (Nat.to_uint n).

Section Store.

Variable DEMO_API_KEY : string.
(** The backend, as seen through [httpx]. *)
Variable backend : request -> http_outcome.
(** The icon drawn for the [i]-th card. *)
Variable icons : nat -> string.

(** [OutdoorGearStore.search_products]: the value returned, and the
    notifications shown. On a 200 response [data.get] raises when the body
    is not a dict, and [response.json()] when it is not JSON; both fall to
    the last handler. *)
Definition search_products (query category : string) (k : nat)
  : pyvalue * list notification :=
  match backend (mk_request DEMO_API_KEY query category k) with
  | Responded status_code body =>
      if Nat.eqb status_code 200
      then match body with
           | Some (PyDict data) => (get "results" (PyList []) data, [])
           | _ => (PyNone, [Notify "An error occurred during search" "negative"])
           end
      else (PyNone, [Notify ("Search failed: " ++ decimal status_code) "negative"])
  | TimedOut => (PyNone, [Notify "Search timed out. Please try again." "negative"])
  | Failed => (PyNone, [Notify "An error occurred during search" "negative"])
  end.

Record page := mk_page {
  results_container : list element;
  notifications : list notification;
  requests : list request;
  current_search : option string;
  current_category : string;
  search_results : option pyvalue
}.

(** The loop over the results: the cards of the grid, up to and with the
    card that raises, if one does. *)
Fixpoint render_cards (i : nat) (products : list pyvalue) : list element * bool :=
  match products with
  | [] => ([], true)
  | product :: rest =>
      let (c, ok) := create_product_card (icons i) product in
      if ok
      then let (cards, ok') := render_cards (S i) rest in (c :: cards, ok')
      else ([c], false)
  end.

(** [perform_search], on the value of the query input and of the category
    select: the page as it is when the function ends (the spinner shown
    while the request is in flight is cleared before anything else is
    drawn); the boolean tells whether it returned without raising.
    [len(results)] is evaluated with the header row open. *)
Definition perform_search (query_value category : string) (pg : page)
  : page * bool :=
  let query := strip query_value in
  if String.eqb query ""
  then (mk_page (results_container pg)
                (notifications pg ++ [Notify "Please enter a search query" "warning"])
                (requests pg) (current_search pg) (current_category pg)
                (search_results pg), true)
  else
    let (results, notes) := search_products query category 10 in
    let sent := requests pg ++ [mk_request DEMO_API_KEY query category 10] in
    match results with
    | PyNone =>
        (mk_page [Label (PyStr "Search failed. Please try again.")]
                 (notifications pg ++ notes) sent (Some query) category
                 (search_results pg), true)
    | _ =>
        if negb (truthy results)
        then (mk_page [Label (PyStr "No products found matching your search.")]
                      (notifications pg ++ notes) sent (Some query) category
                      (search_results pg), true)
        else
          match len results, iter results with
          | Some n, Some products =>
              let (cards, ok) := render_cards 0 products in
              (mk_page [Row [Label (PyStr ("Found " ++ decimal n ++ " products"));
                             Row [Button "Grid View"; Button "List View"]];
                        Grid cards]
                       (notifications pg ++ notes) sent (Some query) category
                       (Some results), ok)
          | _, _ =>
              (mk_page [Row []]
                       (notifications pg ++ notes) sent (Some query) category
                       (Some results), false)
          end
    end.

End Store.

(** The JSON of one result of the backend's search, as the frontend reads
    it: the three keys are always there, a missing metadata value is null. *)
Definition json_value (v : option json) : pyvalue :=
  match v with
  | Some (JNumber n) => PyInt n
  | Some (JString s) => PyStr s
  | None => PyNone
  end.

Definition json_result (r : search_result) : pyvalue :=
  PyDict [("id", json_value (r_id r)); ("name", json_value (r_name r));
          ("description", PyStr (r_description r))].

End Frontend.

(** ** The frontend against the backend *)

(** The backend's /search-products as the frontend's client sees it, for a
    request that reaches it; [wire] gives the X-API-Key header the backend
    reads for the value the client set. A returned dict is a 200 response
    carrying it as JSON; a raised HTTPException is a response with its
    status and its detail as JSON; an exception the endpoint does not
    catch is a response with status 500 whose body is not JSON. *)
Definition served_by (release : framework_release)
           (wire : string -> option string) (answers : string -> bool)
           (nearest : string -> list embedding -> list embedding)
           (BACKEND_API_KEY : string) (db : database)
           (req : Frontend.request) : Frontend.http_outcome :=
  match search_products_endpoint release answers nearest BACKEND_API_KEY
                                 (wire (Frontend.req_api_key req))
                                 (Frontend.req_search_query req)
                                 (Frontend.req_category req)
                                 (Frontend.req_k req) db with
  | SearchResults results =>
      Frontend.Responded 200
        (Some (Frontend.PyDict
                 [("results",
                   Frontend.PyList (map Frontend.json_result results))]))
  | SearchRejected (HTTPException status_code detail) =>
      Frontend.Responded status_code
        (Some (Frontend.PyDict [("detail", Frontend.PyStr detail)]))
  | SearchRaised => Frontend.Responded 500 None
  end.

(** A product whose card can be built: a dict whose description, or the
    default, can be cut. *)
Definition renderable (product : Frontend.pyvalue) : Prop :=
  exists d text,
    product = Frontend.PyDict d
    /\ Frontend.truncate
         (Frontend.get "description"
                       (Frontend.PyStr "No description available") d)
       = Some text.

(** A card with all its parts. *)
Definition product_card (icon : string) (name description : Frontend.pyvalue)
  : Frontend.element :=
  Frontend.Card
    [Frontend.CardSection [Frontend.Html icon];
     Frontend.CardSection [Frontend.Label name];
     Frontend.CardSection [Frontend.Label description];
     Frontend.CardSection [Frontend.Label (Frontend.PyStr "Price on request")];
     Frontend.CardActions
       [Frontend.Row [Frontend.Button "View Details";
                      Frontend.Button "Add to Cart"]]].

(** The card [create_product_card] builds for a product. *)
Definition card_shows (product : Frontend.pyvalue) (c : Frontend.element) : Prop :=
  exists icon d text,
    product = Frontend.PyDict d
    /\ Frontend.truncate
         (Frontend.get "description"
                       (Frontend.PyStr "No description available") d)
       = Some text
    /\ c = product_card icon
                        (Frontend.get "name" (Frontend.PyStr "Unknown Product") d)
                        text.

(** The header of the results. *)
Definition results_header (n : nat) : Frontend.element :=
  Frontend.Row
    [Frontend.Label
       (Frontend.PyStr ("Found " ++ Frontend.decimal n ++ " products")%string);
     Frontend.Row [Frontend.Button "Grid View"; Frontend.Button "List View"]].

(** A card left unfinished by an exception: [product.get] raised, or the
    lines that cut the description did. *)
Definition card_without_name (icon : string) : Frontend.element :=
  Frontend.Card [Frontend.CardSection [Frontend.Html icon];
                 Frontend.CardSection []].

Definition card_without_description (icon : string) (name : Frontend.pyvalue)
  : Frontend.element :=
  Frontend.Card [Frontend.CardSection [Frontend.Html icon];
                 Frontend.CardSection [Frontend.Label name];
                 Frontend.CardSection []].

(** What is left of the card of a product that cannot be rendered. *)
Definition unfinished (product : Frontend.pyvalue) (c : Frontend.element) : Prop :=
  (exists icon,
      (forall d, product <> Frontend.PyDict d) /\ c = card_without_name icon)
  \/ (exists icon d,
         product = Frontend.PyDict d
         /\ Frontend.truncate
              (Frontend.get "description"
                            (Frontend.PyStr "No description available") d)
            = None
         /\ c = card_without_description
                  icon
                  (Frontend.get "name" (Frontend.PyStr "Unknown Product") d)).

(** The label of the results container after a search that failed, and
    after one that found nothing. *)
Definition failed_label : Frontend.element :=
  Frontend.Label (Frontend.PyStr "Search failed. Please try again.").

Definition nothing_found_label : Frontend.element :=
  Frontend.Label (Frontend.PyStr "No products found matching your search.").

(** * Lemmas *)

(** ** Lists *)

Lemma In_firstn {A} (x : A) n l : In x (firstn n l) -> In x l.
Proof.
  intro H. rewrite <- (firstn_skipn n l). apply in_or_app. now left.
Qed.

Lemma In_skipn {A} (x : A) n l : In x (skipn n l) -> In x l.
Proof.
  intro H. rewrite <- (firstn_skipn n l). apply in_or_app. now right.
Qed.

Lemma skipn_length_firstn {A} n (l : list A) :
  skipn (length (firstn n l)) l = skipn n l.
Proof.
  rewrite length_firstn.
  destruct (Nat.le_ge_cases n (length l)) as [Hle | Hge].
  - now rewrite Nat.min_l.
  - rewrite Nat.min_r by assumption.
    rewrite skipn_all. symmetry. now apply skipn_all2.
Qed.

Lemma combine_map_map {A B C} (f : A -> B) (g : A -> C) l :
  combine (map f l) (map g l) = map (fun x => (f x, g x)) l.
Proof.
  induction l as [| x l IH]; simpl; [reflexivity | now rewrite IH].
Qed.

Lemma filter_length_lt {A} (f g : A -> bool) l x :
  (forall y, g y = true -> f y = true) ->
  In x l -> f x = true -> g x = false ->
  length (filter g l) < length (filter f l).
Proof.
  intros Hgf. 
  assert (Hle : forall l', length (filter g l') <= length (filter f l')).
  { induction l' as [| y l' IH]; simpl; [lia |].
    destruct (g y) eqn:Eg.
    - rewrite (Hgf _ Eg). simpl. lia.
    - destruct (f y); simpl; lia. }
  induction l as [| y l IH]; simpl; intros Hin Hf Hg; [contradiction |].
  destruct Hin as [-> | Hin].
  - rewrite Hf, Hg. simpl. specialize (Hle l). lia.
  - specialize (IH Hin Hf Hg).
    destruct (g y) eqn:Eg.
    + rewrite (Hgf _ Eg). simpl. lia.
    + destruct (f y); simpl; lia.
Qed.

Lemma filter_nothing {A} (f : A -> bool) l :
  (forall x, In x l -> f x = false) -> filter f l = [].
Proof.
  induction l as [| y l IH]; simpl; intro H; [reflexivity |].
  rewrite (H y) by now left. apply IH. intros x Hx. apply H. now right.
Qed.

Lemma filter_everything {A} (f : A -> bool) l :
  (forall x, In x l -> f x = true) -> filter f l = l.
Proof.
  induction l as [| y l IH]; simpl; intro H; [reflexivity |].
  rewrite (H y) by now left. f_equal. apply IH. intros x Hx. apply H. now right.
Qed.

Lemma existsb_false {A} (f : A -> bool) l :
  existsb f l = false <-> (forall x, In x l -> f x = false).
Proof.
  split.
  - intros H x Hx. destruct (f x) eqn:E; [| reflexivity].
    assert (existsb f l = true) by (apply existsb_exists; eauto). congruence.
  - intro H. destruct (existsb f l) eqn:E; [| reflexivity].
    apply existsb_exists in E. destruct E as [x [Hx Hfx]].
    rewrite (H x Hx) in Hfx. discriminate.
Qed.

(** ** ORDER BY *)

Lemma insert_by_id_perm p l : Permutation (insert_by_id p l) (p :: l).
Proof.
  induction l as [| q l IH]; simpl; [apply Permutation_refl |].
  destruct (p_id p <=? p_id q)%Z; [apply Permutation_refl |].
  eapply perm_trans; [apply perm_skip, IH | apply perm_swap].
Qed.

Lemma order_by_id_perm l : Permutation (order_by_id l) l.
Proof.
  induction l as [| p l IH]; simpl; [apply perm_nil |].
  eapply perm_trans; [apply insert_by_id_perm | now apply perm_skip].
Qed.

Lemma insert_by_id_sorted p l :
  Sorted (fun a b => (p_id a <= p_id b)%Z) l ->
  Sorted (fun a b => (p_id a <= p_id b)%Z) (insert_by_id p l).
Proof.
  induction l as [| q l IH]; simpl; intro Hs; [repeat constructor |].
  destruct (Z.leb_spec (p_id p) (p_id q)) as [Hle | Hgt].
  - constructor; [assumption | now constructor].
  - inversion Hs as [| x m Hs' Hhd]; subst.
    constructor; [now apply IH |].
    destruct l as [| r l]; simpl.
    + constructor. lia.
    + destruct (p_id p <=? p_id r)%Z; constructor; [lia |].
      now inversion Hhd.
Qed.

(** The rows come out by ascending identity. *)
Lemma order_by_id_sorted l :
  Sorted (fun a b => (p_id a <= p_id b)%Z) (order_by_id l).
Proof.
  induction l as [| p l IH]; simpl; [constructor |].
  now apply insert_by_id_sorted.
Qed.

Lemma order_by_id_length l : length (order_by_id l) = length l.
Proof. apply Permutation_length, order_by_id_perm. Qed.

Lemma order_by_id_In p l : In p (order_by_id l) <-> In p l.
Proof.
  split; apply Permutation_in;
    [apply order_by_id_perm | apply Permutation_sym, order_by_id_perm].
Qed.

(** The rows the SELECT returns are rows of [products] the WHERE clause
    keeps. *)
Lemma select_missing_In label limit offset db p :
  In p (select_missing label limit offset db) ->
  In p (products db) /\ missing label db p = true.
Proof.
  unfold select_missing. intro H.
  apply In_firstn, In_skipn in H. apply (proj1 (order_by_id_In _ _)) in H.
  now apply filter_In in H.
Qed.

Lemma missing_has_description label db p :
  missing label db p = true -> has_description p = true.
Proof. unfold missing. intro H. now apply andb_true_iff in H. Qed.

(** ** TRIM *)

Lemma ltrim_spaces s : string_forallb is_space s = true -> ltrim s = EmptyString.
Proof.
  induction s as [| c s IH]; simpl; [reflexivity |].
  intro H. apply andb_true_iff in H. destruct H as [Hc Hs].
  rewrite Hc. now apply IH.
Qed.

Lemma rtrim_empty s : rtrim s = EmptyString -> string_forallb is_space s = true.
Proof.
  induction s as [| c s IH]; simpl; [reflexivity |].
  destruct (rtrim s) eqn:E; [| discriminate].
  destruct (is_space c); [| discriminate].
  intros _. now rewrite IH.
Qed.

Lemma ltrim_empty s : ltrim s = EmptyString -> string_forallb is_space s = true.
Proof.
  induction s as [| c s IH]; simpl; [reflexivity |].
  destruct (is_space c); [| discriminate]. intro H. now rewrite IH.
Qed.

Lemma ltrim_head s :
  match ltrim s with
  | EmptyString => True
  | String c _ => is_space c = false
  end.
Proof.
  induction s as [| c s IH]; simpl; [exact I |].
  destruct (is_space c) eqn:E; [exact IH | exact E].
Qed.

(** [TRIM(d) <> ''] fails exactly on the strings made of spaces only. *)
Lemma TRIM_empty_iff d :
  TRIM d = EmptyString <-> string_forallb is_space d = true.
Proof.
  unfold TRIM. split.
  - intro H. apply rtrim_empty in H.
    pose proof (ltrim_head d) as Hh.
    destruct (ltrim d) as [| c r] eqn:E.
    + now apply ltrim_empty.
    + simpl in H. rewrite Hh in H. discriminate.
  - intro H. now rewrite ltrim_spaces.
Qed.

Lemma has_description_spaces p :
  has_description p = negb (spaces_description p).
Proof.
  unfold has_description, spaces_description.
  destruct (p_description p) as [d |]; [| reflexivity].
  f_equal. destruct (String.eqb_spec (TRIM d) "") as [E | E].
  - symmetry. now apply TRIM_empty_iff.
  - destruct (string_forallb is_space d) eqn:Es; [| reflexivity].
    apply TRIM_empty_iff in Es. contradiction.
Qed.

(** A description that is not blank in the wide sense (null, empty or
    whitespace-only) passes the test of the statements. *)
Lemma not_blank_has_description p :
  blank_description p = false -> has_description p = true.
Proof.
  rewrite has_description_spaces. unfold blank_description, spaces_description.
  destruct (p_description p) as [d |]; [| discriminate].
  intro H. apply negb_true_iff.
  destruct (string_forallb is_space d) eqn:E; [| reflexivity].
  rewrite <- H. clear H. induction d as [| c d IH]; [reflexivity |].
  simpl in *. apply andb_true_iff in E. destruct E as [Hc Hd].
  rewrite (IH Hd). unfold is_whitespace. unfold is_space in Hc. now rewrite Hc.
Qed.

(** ** The store *)

Lemma add_texts_rows label now rows db :
  add_texts label now (map text_of rows) (map metadata_of rows) db =
  {| products := products db;
     langchain_embedding := langchain_embedding db ++ map (entry_of label now) rows |}.
Proof.
  unfold add_texts. now rewrite combine_map_map, map_map.
Qed.

Lemma joins_iff e p : joins e p = true <-> metadata_id e = Some (p_id p).
Proof.
  unfold joins. destruct (metadata_id e) as [i |].
  - rewrite Z.eqb_eq. split; [intros -> | intro H; injection H]; auto.
  - split; discriminate.
Qed.

Lemma joins_entry_of label now p q :
  joins (entry_of label now p) q = (p_id q =? p_id p)%Z.
Proof. reflexivity. Qed.

Lemma in_collection_entry_of label now p :
  in_collection label (entry_of label now p) = true.
Proof. apply String.eqb_refl. Qed.

Lemma entry_for_entry_of now p : entry_for p (entry_of COLLECTION_NAME now p) = true.
Proof.
  unfold entry_for. rewrite in_collection_entry_of, joins_entry_of.
  now rewrite Z.eqb_refl.
Qed.

(** ** Sessions *)

Lemma begin_read_idem iso s : begin_read iso (begin_read iso s) = begin_read iso s.
Proof. destruct iso, s as [l [v |] lg]; reflexivity. Qed.

Lemma live_begin_read iso s : live (begin_read iso s) = live s.
Proof. destruct iso, s as [l [v |] lg]; reflexivity. Qed.

Lemma log_begin_read iso s : log (begin_read iso s) = log s.
Proof. destruct iso, s as [l [v |] lg]; reflexivity. Qed.

Lemma view_ok_begin_read iso s : view_ok s -> view_ok (begin_read iso s).
Proof. destruct iso, s as [l [v |] lg]; unfold view_ok; simpl; auto. Qed.

Lemma visible_products iso s :
  view_ok s -> products (visible iso (begin_read iso s)) = products (live s).
Proof. destruct iso, s as [l [v |] lg]; unfold view_ok; simpl; auto. Qed.

Lemma read_view_repeatable s :
  read_view (begin_read REPEATABLE_READ s)
  = Some (visible REPEATABLE_READ (begin_read REPEATABLE_READ s)).
Proof. destruct s as [l [v |] lg]; reflexivity. Qed.

Lemma visible_snapshot s v :
  read_view s = Some v -> visible REPEATABLE_READ (begin_read REPEATABLE_READ s) = v.
Proof. destruct s as [l [w |] lg]; simpl; congruence. Qed.

Lemma visible_read_committed s :
  visible READ_COMMITTED (begin_read READ_COMMITTED s) = live s.
Proof. reflexivity. Qed.

Lemma live_after_batch limit now total rows s :
  live (after_batch limit now total rows s)
  = {| products := products (live s);
       langchain_embedding :=
         langchain_embedding (live s) ++ map (entry_of COLLECTION_NAME now) rows |}.
Proof. unfold after_batch. simpl. apply add_texts_rows. Qed.

Lemma read_view_after_batch limit now total rows s :
  read_view (after_batch limit now total rows s) = read_view s.
Proof. reflexivity. Qed.

Lemma log_after_batch limit now total rows s :
  log (after_batch limit now total rows s)
  = log s ++ [SELECT_MISSING limit total rows;
              ADD_TEXTS (map text_of rows) (map metadata_of rows)].
Proof. unfold after_batch. simpl. now rewrite <- app_assoc. Qed.

Lemma fetched_In iso limit total s p :
  view_ok s -> In p (fetched iso limit total s) ->
  In p (products (live s)) /\ has_description p = true.
Proof.
  intros Hok H. apply select_missing_In in H. destruct H as [Hin Hm].
  rewrite visible_products in Hin by assumption.
  split; [assumption | eapply missing_has_description; eassumption].
Qed.

(** ** The loop *)

Section Loop.

Variable iso : isolation.
Variable B : nat.
Variable clock : nat -> timestamp.

Lemma ingest_loop_unfold fuel k total s :
  ingest_loop iso B clock (S fuel) k total s =
  let rows := fetched iso B total s in
  match rows with
  | [] => Some (total, send (SELECT_MISSING B total rows) (begin_read iso s))
  | _ :: _ =>
      ingest_loop iso B clock fuel (S k) (total + length rows)
                  (after_batch B (clock k) total rows (begin_read iso s))
  end.
Proof. reflexivity. Qed.

Lemma ingest_loop_more_fuel fuel :
  forall fuel' k total s r,
    fuel <= fuel' ->
    ingest_loop iso B clock fuel k total s = Some r ->
    ingest_loop iso B clock fuel' k total s = Some r.
Proof.
  induction fuel as [| fuel IH]; intros fuel' k total s r Hle H;
    [discriminate |].
  destruct fuel' as [| fuel']; [lia |].
  rewrite ingest_loop_unfold in *. cbv zeta in *.
  destruct (fetched iso B total s) as [| p rows]; [assumption |].
  apply IH; [lia | assumption].
Qed.

(** Writing a batch takes its rows out of the missing ones and adds
    none to them. *)
Lemma missing_after_batch now rows db p :
  missing COLLECTION_NAME
          {| products := products db;
             langchain_embedding :=
               langchain_embedding db ++ map (entry_of COLLECTION_NAME now) rows |} p
  = missing COLLECTION_NAME db p
    && negb (existsb (fun q => (p_id p =? p_id q)%Z) rows).
Proof.
  unfold missing. simpl. rewrite existsb_app, negb_orb.
  replace (existsb (fun e => in_collection COLLECTION_NAME e && joins e p)
                   (map (entry_of COLLECTION_NAME now) rows))
    with (existsb (fun q => (p_id p =? p_id q)%Z) rows).
  - destruct (existsb _ (langchain_embedding db)), (existsb _ rows),
      (has_description p); reflexivity.
  - induction rows as [| q rows IH]; simpl; [reflexivity |]. now rewrite IH.
Qed.

Lemma pending_decreases k total s p rows :
  fetched iso B total s = p :: rows ->
  pending iso (total + length (p :: rows))
          (after_batch B (clock k) total (p :: rows) (begin_read iso s))
  < pending iso total s.
Proof.
  intro Hf. unfold pending. destruct iso.
  - assert (Hv : visible REPEATABLE_READ
                   (begin_read REPEATABLE_READ
                      (after_batch B (clock k) total (p :: rows)
                                   (begin_read REPEATABLE_READ s)))
                 = visible REPEATABLE_READ (begin_read REPEATABLE_READ s)).
    { apply visible_snapshot.
      now rewrite read_view_after_batch, read_view_repeatable. }
    cbv zeta. rewrite Hv.
    unfold fetched, select_missing in Hf.
    set (L := order_by_id _) in Hf.
    assert (Hlen : total < length L).
    { destruct (Nat.lt_ge_cases total (length L)) as [Hlt | Hge]; [assumption |].
      rewrite (skipn_all2 _ Hge) in Hf. rewrite firstn_nil in Hf. discriminate. }
    unfold L in Hlen. rewrite order_by_id_length in Hlen.
    simpl (length (p :: rows)). lia.
  - rewrite live_after_batch, live_begin_read. simpl products.
    unfold fetched in Hf. rewrite visible_read_committed in Hf.
    assert (Hp : In p (select_missing COLLECTION_NAME B total (live s)))
      by (rewrite Hf; now left).
    apply select_missing_In in Hp. destruct Hp as [Hin Hm].
    apply filter_length_lt with (x := p); try assumption.
    + intros y Hy. rewrite missing_after_batch in Hy.
      now apply andb_true_iff in Hy.
    + rewrite missing_after_batch. simpl existsb. rewrite Z.eqb_refl.
      simpl. now rewrite andb_false_r.
Qed.

(** The loop returns once the fuel exceeds the rows still to pass. *)
Lemma ingest_loop_returns fuel :
  forall k total s,
    pending iso total s < fuel ->
    exists r, ingest_loop iso B clock fuel k total s = Some r.
Proof.
  induction fuel as [| fuel IH]; intros k total s Hlt; [lia |].
  rewrite ingest_loop_unfold. cbv zeta.
  destruct (fetched iso B total s) as [| p rows] eqn:Hf; [eauto |].
  apply IH. pose proof (pending_decreases k total s p rows Hf). lia.
Qed.

Lemma pending_le_products total s :
  view_ok s -> pending iso total s <= length (products (live s)).
Proof.
  intro Hok. unfold pending.
  assert (H : forall db, length (filter (missing COLLECTION_NAME db) (products db))
                         <= length (products db)).
  { intro db. induction (products db) as [| q l IHl]; simpl; [lia |].
    destruct (missing COLLECTION_NAME db q); simpl; lia. }
  destruct iso.
  - cbv zeta. rewrite <- (visible_products REPEATABLE_READ s Hok).
    specialize (H (visible REPEATABLE_READ (begin_read REPEATABLE_READ s))). lia.
  - apply H.
Qed.

(** What a returning loop has done: the catalog is as before, the index
    has grown by entries written from fetched rows, one per ingested row,
    and only SELECTs and [add_texts] calls were sent. *)
Lemma ingest_loop_inv fuel :
  forall k total s n s',
    view_ok s ->
    ingest_loop iso B clock fuel k total s = Some (n, s') ->
    products (live s') = products (live s)
    /\ view_ok s'
    /\ (exists new,
           langchain_embedding (live s') = langchain_embedding (live s) ++ new
           /\ n = total + length new
           /\ Forall (fun e => exists j p,
                          e = entry_of COLLECTION_NAME (clock j) p /\ k <= j
                          /\ In p (products (live s))
                          /\ has_description p = true) new)
    /\ (exists sent,
           log s' = log s ++ sent
           /\ Forall (ingestion_statement
                        (fun p => In p (products (live s))
                                  /\ has_description p = true)) sent).
Proof.
  induction fuel as [| fuel IH]; intros k total s n s' Hok H; [discriminate |].
  rewrite ingest_loop_unfold in H. cbv zeta in H.
  pose proof (fetched_In iso B total s) as Hrows.
  destruct (fetched iso B total s) as [| p rows] eqn:Hf.
  - injection H as <- <-. simpl. rewrite live_begin_read, log_begin_read.
    repeat split; auto.
    + now apply view_ok_begin_read.
    + exists []. rewrite app_nil_r. repeat split; auto.
    + exists [SELECT_MISSING B total []]. split; [reflexivity |].
      repeat constructor.
  - apply IH in H.
    2:{ pose proof (view_ok_begin_read iso s Hok) as Hb. unfold view_ok in *.
        rewrite read_view_after_batch, live_after_batch. exact Hb. }
    rewrite live_after_batch, log_after_batch in H. simpl in H.
    rewrite live_begin_read, log_begin_read in H.
    destruct H as (Hp & Hv & (new & Hnew & Hn & Hall) & (sent & Hlog & Hsent)).
    assert (Hall_rows : Forall (fun q => In q (products (live s))
                                         /\ has_description q = true) (p :: rows)).
    { apply Forall_forall. intros q Hq. now apply Hrows. }
    repeat split; auto.
    + exists (map (entry_of COLLECTION_NAME (clock k)) (p :: rows) ++ new).
      rewrite Hnew, <- app_assoc. split; [reflexivity |].
      split; [rewrite length_app, length_map; simpl in *; lia |].
      apply Forall_app. split.
      * apply Forall_forall. intros e He. apply in_map_iff in He.
        destruct He as (q & <- & Hq). exists k, q.
        rewrite Forall_forall in Hall_rows.
        destruct (Hall_rows q Hq). auto.
      * eapply Forall_impl; [| exact Hall].
        intros e (j & q & He & Hj & Hq). exists j, q.
        split; [assumption |]. split; [lia | assumption].
    + exists ([SELECT_MISSING B total (p :: rows);
               ADD_TEXTS (map text_of (p :: rows)) (map metadata_of (p :: rows))]
              ++ sent).
      rewrite Hlog, <- app_assoc. split; [reflexivity |].
      apply Forall_app. split; [| assumption].
      constructor; [exact Hall_rows |].
      constructor; [| constructor].
      exists (p :: rows). auto.
Qed.

End Loop.

(** ** A whole run *)

Section Run.

Variable iso : isolation.
Variable B : nat.
Variable clock : nat -> timestamp.

Lemma clean_connect db :
  clean (connect db) = (orphaned_rows db, outdated_rows db, loop_start db).
Proof. reflexivity. Qed.

Lemma run_with_fuel_unfold fuel db :
  run_with_fuel iso B clock fuel db =
  match ingest_loop iso B clock fuel 0 0 (loop_start db) with
  | Some (total, s') =>
      Some (mk_result (orphaned_rows db) (outdated_rows db) total s')
  | None => None
  end.
Proof. reflexivity. Qed.

Lemma products_cleaned db : products (cleaned db) = products db.
Proof. reflexivity. Qed.

Lemma view_ok_loop_start db : view_ok (loop_start db).
Proof. exact I. Qed.

Lemma loop_start_returns db :
  exists r, ingest_loop iso B clock (S (length (products db))) 0 0 (loop_start db)
            = Some r.
Proof.
  apply ingest_loop_returns.
  pose proof (pending_le_products iso 0 (loop_start db) (view_ok_loop_start db)) as H.
  simpl live in H. rewrite products_cleaned in H. lia.
Qed.

Lemma run_returns db :
  exists total s',
    ingest_loop iso B clock (S (length (products db))) 0 0 (loop_start db)
    = Some (total, s')
    /\ run_product_ingestion iso B clock db
       = Some (mk_result (orphaned_rows db) (outdated_rows db) total s').
Proof.
  destruct (loop_start_returns db) as [[total s'] H].
  exists total, s'. split; [assumption |].
  unfold run_product_ingestion. now rewrite run_with_fuel_unfold, H.
Qed.

(** The first SELECT of the loop reads the tables both DELETEs left. *)
Lemma fetched_loop_start total db :
  fetched iso B total (loop_start db)
  = select_missing COLLECTION_NAME B total (cleaned db).
Proof. destruct iso; reflexivity. Qed.

End Run.

(** No row the DELETEs select is left when the loop starts. *)
Lemma cleaned_In db e :
  In e (langchain_embedding (cleaned db)) <->
  In e (langchain_embedding db)
  /\ orphaned COLLECTION_NAME db e = false
  /\ outdated COLLECTION_NAME db e = false.
Proof.
  unfold cleaned. cbv zeta. simpl. rewrite !filter_In, !negb_true_iff.
  change (outdated COLLECTION_NAME
            (delete_where (orphaned COLLECTION_NAME db) db) e)
    with (outdated COLLECTION_NAME db e).
  tauto.
Qed.

(** When nothing is selected by either DELETE, the tables stay as they are. *)
Lemma cleaned_nothing db :
  (forall e, In e (langchain_embedding db) ->
             orphaned COLLECTION_NAME db e = false
             /\ outdated COLLECTION_NAME db e = false) ->
  cleaned db = db /\ orphaned_rows db = 0 /\ outdated_rows db = 0.
Proof.
  intro H. unfold cleaned, orphaned_rows, outdated_rows, rowcount, delete_where.
  cbv zeta. simpl.
  assert (H1 : filter (fun e => negb (orphaned COLLECTION_NAME db e))
                      (langchain_embedding db) = langchain_embedding db).
  { apply filter_everything. intros e He. now rewrite (proj1 (H e He)). }
  rewrite H1.
  change (outdated COLLECTION_NAME
            {| products := products db; langchain_embedding := langchain_embedding db |})
    with (outdated COLLECTION_NAME db).
  rewrite filter_everything by (intros e He; now rewrite (proj2 (H e He))).
  rewrite !filter_nothing by (intros e He; now apply H).
  destruct db; auto.
Qed.


(** * Termination of the loop *)

(** C9: the ingestion loop terminates on every catalog and index, under
    either isolation level and for every batch size. An iteration that
    fetches rows moves the offset up by at least one and lowers the number
    of rows still to pass, so a fuel above that number always returns a
    result; for a whole run, one more iteration than there are products is
    enough, and more fuel does not change the result. *)
Theorem ingestion_loop_terminates
        (iso : isolation) (B : nat) (clock : nat -> timestamp) (db : database) :
  (forall k total s p rows,
      fetched iso B total s = p :: rows ->
      total < total + length (p :: rows)
      /\ pending iso (total + length (p :: rows))
                 (after_batch B (clock k) total (p :: rows) (begin_read iso s))
         < pending iso total s)
  /\ (forall k total s,
         exists r, ingest_loop iso B clock (S (pending iso total s)) k total s = Some r)
  /\ exists r,
      run_product_ingestion iso B clock db = Some r
      /\ forall fuel, S (length (products db)) <= fuel ->
                      run_with_fuel iso B clock fuel db = Some r.
Proof.
  split; [| split].
  - intros k total s p rows Hf. split; [simpl; lia |].
    now apply pending_decreases.
  - intros k total s. apply ingest_loop_returns. lia.
  - destruct (run_returns iso B clock db) as (total & s' & Hloop & Hrun).
    eexists. split; [exact Hrun |].
    intros fuel Hfuel. rewrite run_with_fuel_unfold.
    now rewrite (ingest_loop_more_fuel iso B clock _ _ _ _ _ _ Hfuel Hloop).
Qed.

(** * Order of the phases *)


(** * The loop under REPEATABLE READ *)

Section RepeatableRead.

Variable B : nat.
Variable clock : nat -> timestamp.

Lemma ingest_loop_begin_read iso fuel k total s :
  ingest_loop iso B clock fuel k total (begin_read iso s)
  = ingest_loop iso B clock fuel k total s.
Proof.
  destruct fuel as [| fuel]; [reflexivity |].
  rewrite !ingest_loop_unfold. unfold fetched.
  now rewrite begin_read_idem.
Qed.

Lemma fetched_snapshot total s v :
  read_view s = Some v ->
  fetched REPEATABLE_READ B total s = select_missing COLLECTION_NAME B total v.
Proof. intro H. unfold fetched. now rewrite (visible_snapshot s v H). Qed.

Lemma begin_read_snapshot s v :
  read_view s = Some v -> begin_read REPEATABLE_READ s = s.
Proof. destruct s as [l [w |] lg]; simpl; [reflexivity | discriminate]. Qed.

(** Every SELECT of the loop reads the same snapshot [v], so the offset
    walks through the rows that were missing in [v], a batch at a time,
    and each of them is written once. *)
Lemma ingest_loop_snapshot v fuel :
  0 < B ->
  let L := order_by_id (filter (missing COLLECTION_NAME v) (products v)) in
  forall k total s,
    read_view s = Some v ->
    total <= length L ->
    length L - total < fuel ->
    exists s' new,
      ingest_loop REPEATABLE_READ B clock fuel k total s = Some (length L, s')
      /\ langchain_embedding (live s') = langchain_embedding (live s) ++ new
      /\ Forall2 (fun p e => exists j, k <= j
                                       /\ e = entry_of COLLECTION_NAME (clock j) p)
                 (skipn total L) new.
Proof.
  intros HB L.
  induction fuel as [| fuel IH]; intros k total s Hv Hle Hfuel; [lia |].
  rewrite ingest_loop_unfold. cbv zeta.
  rewrite (fetched_snapshot total s v Hv), (begin_read_snapshot s v Hv).
  unfold select_missing. fold L.
  destruct (firstn B (skipn total L)) as [| p rows] eqn:Hrows.
  - assert (Hnil : skipn total L = []).
    { destruct (skipn total L); [reflexivity |].
      destruct B; [lia | discriminate]. }
    assert (Htotal : total = length L).
    { apply skipn_all_iff in Hnil. lia. }
    exists (send (SELECT_MISSING B total []) s), [].
    rewrite Hnil, app_nil_r, <- Htotal. repeat split. constructor.
  - assert (Hlen : length (p :: rows) <= length L - total).
    { rewrite <- Hrows, length_firstn, length_skipn. lia. }
    assert (Hskip : skipn (total + length (p :: rows)) L
                    = skipn B (skipn total L)).
    { rewrite <- Hrows, Nat.add_comm, <- skipn_skipn.
      apply skipn_length_firstn. }
    destruct (IH (S k) (total + length (p :: rows))
                 (after_batch B (clock k) total (p :: rows) s))
      as (s' & new & Hloop & Hnew & Hall).
    + now rewrite read_view_after_batch.
    + lia.
    + simpl length in *. lia.
    + exists s', (map (entry_of COLLECTION_NAME (clock k)) (p :: rows) ++ new).
      split; [exact Hloop |].
      rewrite Hnew, live_after_batch. cbn [langchain_embedding].
      rewrite <- app_assoc. split; [reflexivity |].
      rewrite <- (firstn_skipn B (skipn total L)), Hrows.
      apply Forall2_app.
      * clear. induction (p :: rows) as [| q l IHl]; constructor; [| exact IHl].
        exists k. auto.
      * rewrite <- Hskip.
        eapply Forall2_impl; [| exact Hall].
        intros q e (j & Hj & He). exists j. split; [lia | assumption].
Qed.

End RepeatableRead.

Lemma filter_length_le {A} (f : A -> bool) l : length (filter f l) <= length l.
Proof.
  induction l as [| x l IH]; simpl; [lia |]. destruct (f x); simpl; lia.
Qed.

Lemma to_ingest_In db p :
  In p (to_ingest db) <->
  In p (products db) /\ missing COLLECTION_NAME (cleaned db) p = true.
Proof.
  unfold to_ingest. split.
  - intro H. apply (proj1 (order_by_id_In _ _)) in H. now apply filter_In in H.
  - intro H. apply order_by_id_In. now apply filter_In.
Qed.

Section RepeatableRun.

Variable B : nat.
Variable clock : nat -> timestamp.

(** A run under REPEATABLE READ with a positive batch size ingests every
    row that is missing once the DELETEs are done: it appends one entry
    per such row, in the order of the SELECT. *)
Lemma run_repeatable_read db :
  0 < B ->
  exists s' new,
    run_product_ingestion REPEATABLE_READ B clock db
    = Some (mk_result (orphaned_rows db) (outdated_rows db)
                      (length (to_ingest db)) s')
    /\ products (live s') = products db
    /\ langchain_embedding (live s') = langchain_embedding (cleaned db) ++ new
    /\ Forall2 (fun p e => exists j, e = entry_of COLLECTION_NAME (clock j) p)
               (to_ingest db) new.
Proof.
  intro HB.
  destruct (ingest_loop_snapshot B clock (cleaned db)
              (S (length (products db))) HB 0 0
              (begin_read REPEATABLE_READ (loop_start db)))
    as (s' & new & Hloop & Hnew & Hall).
  - reflexivity.
  - lia.
  - rewrite order_by_id_length.
    pose proof (filter_length_le (missing COLLECTION_NAME (cleaned db))
                                 (products (cleaned db))) as H.
    rewrite products_cleaned in H. rewrite products_cleaned. lia.
  - rewrite ingest_loop_begin_read in Hloop.
    exists s', new.
    unfold run_product_ingestion. rewrite run_with_fuel_unfold.
    change (order_by_id (filter (missing COLLECTION_NAME (cleaned db))
                                (products (cleaned db))))
      with (to_ingest db) in *.
    rewrite Hloop. split; [reflexivity |].
    apply ingest_loop_inv in Hloop; [| apply view_ok_loop_start].
    destruct Hloop as (Hp & _). split; [exact Hp |].
    split; [exact Hnew |].
    eapply Forall2_impl; [| exact Hall].
    intros p e (j & _ & He). now exists j.
Qed.

Lemma select_missing_length limit total v :
  length (select_missing COLLECTION_NAME limit total v)
  = Nat.min limit
            (length (filter (missing COLLECTION_NAME v) (products v)) - total).
Proof.
  unfold select_missing.
  now rewrite length_firstn, length_skipn, order_by_id_length.
Qed.

Lemma ingest_loop_step_snapshot v fuel k total s :
  read_view s = Some v ->
  select_missing COLLECTION_NAME B total v <> [] ->
  ingest_loop REPEATABLE_READ B clock (S fuel) k total s
  = ingest_loop REPEATABLE_READ B clock fuel (S k)
                (total + length (select_missing COLLECTION_NAME B total v))
                (after_batch B (clock k) total
                             (select_missing COLLECTION_NAME B total v) s).
Proof.
  intros Hv Hne. rewrite ingest_loop_unfold. cbv zeta.
  rewrite (fetched_snapshot B total s v Hv), (begin_read_snapshot s v Hv).
  destruct (select_missing COLLECTION_NAME B total v); [contradiction | reflexivity].
Qed.

Lemma ingest_loop_stop_snapshot v fuel k total s :
  read_view s = Some v ->
  select_missing COLLECTION_NAME B total v = [] ->
  ingest_loop REPEATABLE_READ B clock (S fuel) k total s
  = Some (total, send (SELECT_MISSING B total []) s).
Proof.
  intros Hv He. rewrite ingest_loop_unfold. cbv zeta.
  rewrite (fetched_snapshot B total s v Hv), (begin_read_snapshot s v Hv).
  now rewrite He.
Qed.

Lemma batch_sizes_after_batch now total rows s :
  batch_sizes (log (after_batch B now total rows s))
  = batch_sizes (log s) ++ [length rows].
Proof.
  rewrite log_after_batch. unfold batch_sizes.
  rewrite flat_map_app. simpl. now rewrite length_map.
Qed.

Lemma batch_sizes_select limit total rows s :
  batch_sizes (log (send (SELECT_MISSING limit total rows) s))
  = batch_sizes (log s).
Proof.
  unfold batch_sizes. simpl. rewrite flat_map_app. simpl. apply app_nil_r.
Qed.

(** With [2 * B + 1] rows missing in the snapshot the loop writes three
    batches. *)
Lemma three_batches v k s fuel :
  0 < B ->
  read_view s = Some v ->
  length (filter (missing COLLECTION_NAME v) (products v)) = B * 2 + 1 ->
  exists s',
    ingest_loop REPEATABLE_READ B clock (4 + fuel) k 0 s = Some (B * 2 + 1, s')
    /\ batch_sizes (log s') = batch_sizes (log s) ++ [B; B; 1].
Proof.
  intros HB Hv Hlen.
  assert (Hsize : forall total, length (select_missing COLLECTION_NAME B total v)
                                = Nat.min B (B * 2 + 1 - total)).
  { intro total. now rewrite select_missing_length, Hlen. }
  assert (Hne : forall total, total < B * 2 + 1 ->
                              select_missing COLLECTION_NAME B total v <> []).
  { intros total Ht E. specialize (Hsize total). rewrite E in Hsize.
    simpl in Hsize. lia. }
  change (4 + fuel) with (S (S (S (S fuel)))).
  rewrite (ingest_loop_step_snapshot v _ k 0 s Hv) by (apply Hne; lia).
  set (s1 := after_batch B (clock k) 0 _ s).
  rewrite (Hsize 0).
  replace (0 + Nat.min B (B * 2 + 1 - 0)) with B by lia.
  rewrite (ingest_loop_step_snapshot v _ (S k) B s1)
    by (exact Hv || (apply Hne; lia)).
  set (s2 := after_batch B (clock (S k)) B _ s1).
  rewrite (Hsize B).
  replace (B + Nat.min B (B * 2 + 1 - B)) with (B * 2) by lia.
  rewrite (ingest_loop_step_snapshot v _ (S (S k)) (B * 2) s2)
    by (exact Hv || (apply Hne; lia)).
  set (s3 := after_batch B (clock (S (S k))) (B * 2) _ s2).
  rewrite (Hsize (B * 2)).
  replace (B * 2 + Nat.min B (B * 2 + 1 - B * 2)) with (B * 2 + 1) by lia.
  rewrite (ingest_loop_stop_snapshot v _ _ (B * 2 + 1) s3).
  - eexists. split; [reflexivity |].
    rewrite batch_sizes_select. unfold s3, s2, s1.
    rewrite !batch_sizes_after_batch, !Hsize, <- !app_assoc. simpl.
    repeat f_equal; lia.
  - exact Hv.
  - apply length_zero_iff_nil. rewrite Hsize. lia.
Qed.

End RepeatableRun.

(** ** What the DELETEs leave of the missing rows *)

Lemma existsb_filter_same {A} (f g : A -> bool) l :
  (forall x, In x l -> f x = true -> g x = true) ->
  existsb f (filter g l) = existsb f l.
Proof.
  induction l as [| x l IH]; simpl; intro H; [reflexivity |].
  assert (IH' : existsb f (filter g l) = existsb f l)
    by (apply IH; intros y Hy; apply H; now right).
  destruct (g x) eqn:Eg; simpl; rewrite IH'; [reflexivity |].
  destruct (f x) eqn:Ef; [| reflexivity].
  rewrite (H x (or_introl eq_refl) Ef) in Eg. discriminate.
Qed.

Lemma joined_not_orphaned db e p :
  In p (products db) -> joins e p = true -> orphaned COLLECTION_NAME db e = false.
Proof.
  intros Hp Hj. unfold orphaned.
  assert (H : existsb (joins e) (products db) = true)
    by (apply existsb_exists; eauto).
  rewrite H. apply andb_false_r.
Qed.

(** Deleting orphaned rows changes no product's entries. *)
Lemma entry_for_after_orphans db p :
  In p (products db) ->
  existsb (entry_for p)
          (filter (fun e => negb (orphaned COLLECTION_NAME db e)) (langchain_embedding db))
  = existsb (entry_for p) (langchain_embedding db).
Proof.
  intro Hp. apply existsb_filter_same. intros e _ He.
  unfold entry_for in He. apply andb_true_iff in He.
  now rewrite (joined_not_orphaned db e p Hp (proj2 He)).
Qed.

Lemma missing_cleaned_no_outdated db p :
  (forall e, In e (langchain_embedding db) ->
             outdated COLLECTION_NAME db e = false) ->
  In p (products db) ->
  missing COLLECTION_NAME (cleaned db) p = missing COLLECTION_NAME db p.
Proof.
  intros Hout Hp. unfold missing. f_equal. f_equal.
  change (fun e => in_collection COLLECTION_NAME e && joins e p) with (entry_for p).
  unfold cleaned. cbv zeta. cbn [delete_where langchain_embedding products].
  rewrite filter_everything.
  - now apply entry_for_after_orphans.
  - intros e He. apply filter_In in He.
    change (outdated COLLECTION_NAME
              (delete_where (orphaned COLLECTION_NAME db) db) e)
      with (outdated COLLECTION_NAME db e).
    now rewrite (Hout e (proj1 He)).
Qed.

(** * Batch boundaries *)

(** The claim does not hold when an entry is outdated at the start of the
    run: its record is not missing then, but it is once the second DELETE
    has removed the entry. With a batch size of 1, three records without
    entry and a fourth whose entry is older than its last update, the run
    writes four batches. *)
Lemma stale_entry_adds_a_batch :
  length (filter (missing COLLECTION_NAME three_missing_one_stale)
                 (products three_missing_one_stale)) = 1 * 2 + 1
  /\ exists r,
      run_product_ingestion REPEATABLE_READ 1 noon three_missing_one_stale = Some r
      /\ batch_sizes (log (final r)) = [1; 1; 1; 1]
      /\ total_ingested r = 4.
Proof.
  split; [reflexivity |].
  eexists. split; [reflexivity |]. split; reflexivity.
Qed.

(** C1, amended: under the server's default isolation and with a positive
    batch size, when exactly [batch_size * 2 + 1] records are missing as
    the loop starts (both DELETEs done), a run writes exactly three
    batches, of sizes [batch_size], [batch_size] and 1, reports
    [batch_size * 2 + 1] ingested records, and leaves the cleaned index
    followed by one entry per such record, [batch_size * 2 + 1] in all,
    each written from its record, in the order of the identities. When no
    entry is outdated at the start of the run, the records missing as the
    loop starts are those missing at the start of the run. *)
Theorem two_full_batches_and_one
        (B : nat) (clock : nat -> timestamp) (db : database) :
  0 < B ->
  length (to_ingest db) = B * 2 + 1 ->
  exists r new,
    run_product_ingestion REPEATABLE_READ B clock db = Some r
    /\ batch_sizes (log (final r)) = [B; B; 1]
    /\ total_ingested r = B * 2 + 1
    /\ langchain_embedding (live (final r))
       = langchain_embedding (cleaned db) ++ new
    /\ length new = B * 2 + 1
    /\ Forall2 (fun p e => exists j, e = entry_of COLLECTION_NAME (clock j) p)
               (to_ingest db) new
    /\ ((forall e, In e (langchain_embedding db) ->
                   outdated COLLECTION_NAME db e = false) ->
        to_ingest db
        = order_by_id (filter (missing COLLECTION_NAME db) (products db))).
Proof.
  intros HB Hlen.
  destruct (run_repeatable_read B clock db HB)
    as (s' & new & Hrun & _ & Hnew & Hall).
  assert (Hmiss : length (filter (missing COLLECTION_NAME (cleaned db))
                                 (products (cleaned db))) = B * 2 + 1).
  { rewrite products_cleaned. unfold to_ingest in Hlen.
    now rewrite order_by_id_length in Hlen. }
  assert (Hfuel : S (length (products db)) = 4 + (length (products db) - 3)).
  { rewrite products_cleaned in Hmiss.
    pose proof (filter_length_le (missing COLLECTION_NAME (cleaned db))
                                 (products db)).
    lia. }
  destruct (three_batches B clock (cleaned db) 0
              (begin_read REPEATABLE_READ (loop_start db))
              (length (products db) - 3) HB eq_refl Hmiss)
    as (s3 & Hloop & Hsizes).
  rewrite ingest_loop_begin_read, <- Hfuel in Hloop.
  unfold run_product_ingestion in Hrun.
  rewrite run_with_fuel_unfold, Hloop in Hrun.
  injection Hrun as _ Hs. subst s3.
  exists (mk_result (orphaned_rows db) (outdated_rows db) (B * 2 + 1) s'), new.
  split.
  { unfold run_product_ingestion. now rewrite run_with_fuel_unfold, Hloop. }
  cbn [final total_ingested].
  split; [rewrite Hsizes, log_begin_read; reflexivity |].
  split; [reflexivity |]. split; [exact Hnew |].
  split; [rewrite <- (Forall2_length Hall); exact Hlen |].
  split; [exact Hall |].
  intro Hout. unfold to_ingest. f_equal. apply filter_ext_in.
  intros p Hp. now apply missing_cleaned_no_outdated.
Qed.

Lemma two_full_batches_and_one_witness :
  exists r new,
    run_product_ingestion REPEATABLE_READ 1 noon three_products = Some r
    /\ batch_sizes (log (final r)) = [1; 1; 1]
    /\ total_ingested r = 1 * 2 + 1
    /\ langchain_embedding (live (final r))
       = langchain_embedding (cleaned three_products) ++ new
    /\ length new = 1 * 2 + 1
    /\ Forall2 (fun p e => exists j, e = entry_of COLLECTION_NAME (noon j) p)
               (to_ingest three_products) new
    /\ ((forall e, In e (langchain_embedding three_products) ->
                   outdated COLLECTION_NAME three_products e = false) ->
        to_ingest three_products
        = order_by_id (filter (missing COLLECTION_NAME three_products)
                              (products three_products))).
Proof.
  apply (two_full_batches_and_one 1 noon three_products).
  - apply Nat.lt_0_1.
  - reflexivity.
Defined.

(** * Convergence from an empty index *)

Lemma to_ingest_empty_index db :
  langchain_embedding db = [] ->
  (forall p, In p (products db) -> has_description p = true) ->
  langchain_embedding (cleaned db) = [] /\ to_ingest db = order_by_id (products db).
Proof.
  intros He Hd.
  assert (Hc : langchain_embedding (cleaned db) = []).
  { unfold cleaned. cbv zeta. cbn [delete_where langchain_embedding].
    now rewrite He. }
  split; [exact Hc |].
  unfold to_ingest. f_equal. apply filter_everything.
  intros p Hp. unfold missing. rewrite Hc. simpl. now apply Hd.
Qed.

(** Entries of one product among the entries written for a list of rows. *)
Lemma entries_of_rows clock p rows new :
  Forall2 (fun q e => exists j : nat, e = entry_of COLLECTION_NAME (clock j) q)
          rows new ->
  length (filter (entry_for p) new)
  = length (filter (fun q => (p_id p =? p_id q)%Z) rows).
Proof.
  induction 1 as [| q e rows new (j & ->) _ IH]; [reflexivity |].
  simpl. unfold entry_for at 1.
  rewrite in_collection_entry_of, joins_entry_of. simpl.
  destruct (p_id p =? p_id q)%Z; simpl; now rewrite IH.
Qed.

Lemma one_row_per_id p l :
  NoDup (map p_id l) -> In p l ->
  length (filter (fun q => (p_id p =? p_id q)%Z) l) = 1.
Proof.
  induction l as [| q l IH]; simpl; intros Hnd Hin; [contradiction |].
  inversion Hnd as [| i m Hnotin Hnd']; subst.
  destruct Hin as [-> | Hin].
  - rewrite Z.eqb_refl. simpl. f_equal.
    rewrite filter_nothing; [reflexivity |].
    intros q Hq. apply Z.eqb_neq. intro E. apply Hnotin.
    rewrite E. now apply in_map.
  - destruct (Z.eqb_spec (p_id p) (p_id q)) as [E | E].
    + exfalso. apply Hnotin. rewrite <- E. now apply in_map.
    + now apply IH.
Qed.

Lemma one_row_per_id_ordered p l :
  NoDup (map p_id l) -> In p l ->
  length (filter (fun q => (p_id p =? p_id q)%Z) (order_by_id l)) = 1.
Proof.
  intros Hnd Hin. apply one_row_per_id.
  - eapply Permutation_NoDup; [| exact Hnd].
    apply Permutation_map, Permutation_sym, order_by_id_perm.
  - now apply order_by_id_In.
Qed.

(** C2: under the server's default isolation and with a positive batch
    size, a run over a catalog of N records that all have a description,
    starting from an empty index, leaves exactly N entries: one written
    from each record, in the order of the identities, whatever N is
    against the batch size; with unique identities each record has exactly
    one entry. *)
Theorem empty_index_converges
        (B : nat) (clock : nat -> timestamp) (db : database) :
  0 < B ->
  langchain_embedding db = [] ->
  (forall p, In p (products db) -> has_description p = true) ->
  exists r,
    run_product_ingestion REPEATABLE_READ B clock db = Some r
    /\ total_ingested r = length (products db)
    /\ length (langchain_embedding (live (final r))) = length (products db)
    /\ Forall2 (fun p e => exists j, e = entry_of COLLECTION_NAME (clock j) p)
               (order_by_id (products db))
               (langchain_embedding (live (final r)))
    /\ (NoDup (map p_id (products db)) ->
        forall p, In p (products db) ->
                  length (filter (entry_for p)
                                 (langchain_embedding (live (final r)))) = 1).
Proof.
  intros HB He Hd.
  destruct (run_repeatable_read B clock db HB)
    as (s' & new & Hrun & _ & Hnew & Hall).
  destruct (to_ingest_empty_index db He Hd) as [Hc Hto].
  rewrite Hc in Hnew. simpl in Hnew. rewrite Hto in Hrun, Hall.
  rewrite order_by_id_length in Hrun.
  eexists. split; [exact Hrun |]. cbn [total_ingested final].
  rewrite Hnew. split; [reflexivity |].
  split.
  - rewrite <- (Forall2_length Hall). apply order_by_id_length.
  - split; [exact Hall |].
    intros Hnd p Hp. rewrite (entries_of_rows clock p _ _ Hall).
    now apply one_row_per_id_ordered.
Qed.

Lemma empty_index_converges_witness :
  exists r,
    run_product_ingestion REPEATABLE_READ 2 noon three_products = Some r
    /\ total_ingested r = 3
    /\ length (langchain_embedding (live (final r))) = 3
    /\ Forall2 (fun p e => exists j, e = entry_of COLLECTION_NAME (noon j) p)
               (order_by_id (products three_products))
               (langchain_embedding (live (final r)))
    /\ (NoDup (map p_id (products three_products)) ->
        forall p, In p (products three_products) ->
                  length (filter (entry_for p)
                                 (langchain_embedding (live (final r)))) = 1).
Proof.
  apply (empty_index_converges 2 noon three_products).
  - apply Nat.lt_0_2.
  - reflexivity.
  - intros p [<- | [<- | [<- | []]]]; reflexivity.
Defined.

(** * A second run *)

Lemma orphaned_same_products label db db' e :
  products db' = products db -> orphaned label db' e = orphaned label db e.
Proof. intro H. unfold orphaned. now rewrite H. Qed.

Lemma outdated_same_products label db db' e :
  products db' = products db -> outdated label db' e = outdated label db e.
Proof. intro H. unfold outdated. now rewrite H. Qed.

Lemma Forall2_In_l {A C} (R : A -> C -> Prop) l l' x :
  Forall2 R l l' -> In x l -> exists y, In y l' /\ R x y.
Proof.
  induction 1 as [| a c l l' Hac _ IH]; intro Hin; [contradiction |].
  destruct Hin as [-> | Hin].
  - exists c. split; [now left | assumption].
  - destruct (IH Hin) as (y & Hy & HR). exists y. split; [now right | assumption].
Qed.

Lemma Forall2_In_r {A C} (R : A -> C -> Prop) l l' y :
  Forall2 R l l' -> In y l' -> exists x, In x l /\ R x y.
Proof.
  induction 1 as [| a c l l' Hac _ IH]; intro Hin; [contradiction |].
  destruct Hin as [-> | Hin].
  - exists a. split; [now left | assumption].
  - destruct (IH Hin) as (x & Hx & HR). exists x. split; [now right | assumption].
Qed.

(** An entry written when the clock has passed every update of the catalog
    is selected by neither DELETE. *)
Lemma fresh_entry_kept db now p :
  In p (products db) ->
  (forall q, In q (products db) -> (p_updated_at q <= now)%Z) ->
  orphaned COLLECTION_NAME db (entry_of COLLECTION_NAME now p) = false
  /\ outdated COLLECTION_NAME db (entry_of COLLECTION_NAME now p) = false.
Proof.
  intros Hp Hclock. split.
  - apply (joined_not_orphaned db _ p Hp).
    rewrite joins_entry_of. apply Z.eqb_refl.
  - unfold outdated. rewrite in_collection_entry_of. simpl.
    apply existsb_false. intros q Hq.
    assert (Hlt : (now <? p_updated_at q)%Z = false)
      by (apply Z.ltb_ge; now apply Hclock).
    rewrite Hlt. now rewrite andb_false_r.
Qed.

(** A run that finds nothing to fetch in its first SELECT. *)
Lemma run_nothing_to_ingest iso B clock db :
  B = 0 \/ to_ingest db = [] ->
  run_product_ingestion iso B clock db
  = Some (mk_result (orphaned_rows db) (outdated_rows db) 0
                    (send (SELECT_MISSING B 0 [])
                          (begin_read iso (loop_start db)))).
Proof.
  intro H. unfold run_product_ingestion.
  rewrite run_with_fuel_unfold, ingest_loop_unfold. cbv zeta.
  rewrite fetched_loop_start.
  assert (E : select_missing COLLECTION_NAME B 0 (cleaned db) = []).
  { unfold select_missing. rewrite products_cleaned. fold (to_ingest db).
    destruct H as [-> | ->]; [reflexivity | apply firstn_nil]. }
  now rewrite E.
Qed.

(** The claim does not hold for every initial state: an entry is stamped
    with the time of its write, and the second DELETE compares that stamp
    with the record's last update. A record dated ahead of the clock is
    ingested by the first run, and the second run deletes its entry as
    outdated and ingests the record again. *)
Lemma record_dated_ahead_ingested_again :
  exists r1 r2,
    run_product_ingestion REPEATABLE_READ 2 noon dated_ahead = Some r1
    /\ run_product_ingestion REPEATABLE_READ 2 noon (live (final r1)) = Some r2
    /\ products (live (final r1)) = products dated_ahead
    /\ outdated_count r2 = 1
    /\ total_ingested r2 = 1.
Proof.
  do 2 eexists. split; [reflexivity |]. split; [reflexivity |].
  split; [reflexivity |]. split; reflexivity.
Qed.

(** C3, amended: under the server's default isolation, when the clock of the first
    run has passed every last-updated timestamp of the catalog, a second
    run over the tables the first one left (the catalog being the same)
    ingests nothing, deletes no orphaned entry and no outdated entry, and
    leaves the tables as the first run left them. *)
Theorem second_run_changes_nothing
        (B : nat) (clock1 clock2 : nat -> timestamp) (db : database) :
  (forall p j, In p (products db) -> (p_updated_at p <= clock1 j)%Z) ->
  exists r1 r2,
    run_product_ingestion REPEATABLE_READ B clock1 db = Some r1
    /\ run_product_ingestion REPEATABLE_READ B clock2 (live (final r1)) = Some r2
    /\ total_ingested r2 = 0
    /\ orphaned_count r2 = 0
    /\ outdated_count r2 = 0
    /\ live (final r2) = live (final r1).
Proof.
  intro Hclock.
  assert (Hsecond : forall db1,
             products db1 = products db ->
             (forall e, In e (langchain_embedding db1) ->
                        orphaned COLLECTION_NAME db e = false
                        /\ outdated COLLECTION_NAME db e = false) ->
             B = 0 \/ filter (missing COLLECTION_NAME db1) (products db) = [] ->
             exists r2,
               run_product_ingestion REPEATABLE_READ B clock2 db1 = Some r2
               /\ total_ingested r2 = 0 /\ orphaned_count r2 = 0
               /\ outdated_count r2 = 0 /\ live (final r2) = db1).
  { intros db1 Hp Hkept Hnone.
    destruct (cleaned_nothing db1) as (Hc & Ho & Hu).
    { intros e He.
      rewrite (orphaned_same_products _ db db1 e Hp),
        (outdated_same_products _ db db1 e Hp).
      now apply Hkept. }
    eexists. split.
    - apply run_nothing_to_ingest.
      destruct Hnone as [-> | Hnone]; [now left | right].
      unfold to_ingest. now rewrite Hc, Hp, Hnone.
    - cbn [total_ingested orphaned_count outdated_count final live send].
      rewrite live_begin_read. cbn [loop_start live]. auto. }
  destruct B as [| n] eqn:HB.
  - (* a batch size of zero: the first run only cleans *)
    eexists. 
    destruct (Hsecond (cleaned db)) as (r2 & Hr2); [reflexivity | | now left |].
    + intros e He. apply cleaned_In in He. tauto.
    + exists r2. split; [apply run_nothing_to_ingest; now left |].
      cbn [final live send]. rewrite live_begin_read. exact Hr2.
  - destruct (run_repeatable_read (S n) clock1 db (Nat.lt_0_succ n))
      as (s' & new & Hrun & Hp & Hnew & Hall).
    eexists.
    destruct (Hsecond (live s') Hp) as (r2 & Hr2).
    + intros e He. rewrite Hnew in He. apply in_app_or in He.
      destruct He as [He | He].
      * apply cleaned_In in He. tauto.
      * destruct (Forall2_In_r _ _ _ _ Hall He) as (p & Hin & j & ->).
        apply to_ingest_In in Hin.
        apply fresh_entry_kept; [tauto |].
        intros q Hq. now apply Hclock.
    + right. apply filter_nothing. intros p Hin.
      unfold missing. rewrite Hnew, existsb_app.
      destruct (has_description p) eqn:Hd; [| apply andb_false_r].
      rewrite andb_true_r.
      destruct (existsb (fun e => in_collection COLLECTION_NAME e && joins e p)
                        (langchain_embedding (cleaned db))) eqn:Hc;
        [reflexivity |].
      assert (Hto : In p (to_ingest db)).
      { apply to_ingest_In. split; [assumption |].
        unfold missing. now rewrite Hc, Hd. }
      destruct (Forall2_In_l _ _ _ _ Hall Hto) as (e & He & j & ->).
      assert (Hex : existsb (fun e => in_collection COLLECTION_NAME e && joins e p)
                            new = true).
      { apply existsb_exists. eexists. split; [exact He |].
        exact (entry_for_entry_of (clock1 j) p). }
      now rewrite Hex.
    + exists r2. split; [exact Hrun |]. exact Hr2.
Qed.

Lemma second_run_changes_nothing_witness :
  exists r1 r2,
    run_product_ingestion REPEATABLE_READ 2 noon three_products = Some r1
    /\ run_product_ingestion REPEATABLE_READ 2 noon (live (final r1)) = Some r2
    /\ total_ingested r2 = 0
    /\ orphaned_count r2 = 0
    /\ outdated_count r2 = 0
    /\ live (final r2) = live (final r1).
Proof.
  apply (second_run_changes_nothing 2 noon noon three_products).
  intros p j [<- | [<- | [<- | []]]]; unfold noon;
    cbn [p_updated_at boots tent jacket]; lia.
Defined.

(** * Outdated entries *)

Lemma filter_length_pos {A} (f : A -> bool) l x :
  In x l -> f x = true -> 0 < length (filter f l).
Proof.
  intros Hin Hf.
  assert (H : In x (filter f l)) by now apply filter_In.
  destruct (filter f l); [contradiction | simpl; lia].
Qed.

Lemma outdated_by db e p :
  In p (products db) -> entry_for p e = true -> has_description p = true ->
  (e_created_at e < p_updated_at p)%Z ->
  outdated COLLECTION_NAME db e = true.
Proof.
  intros Hp He Hd Hlt. unfold entry_for in He. apply andb_true_iff in He.
  destruct He as [Hc Hj]. unfold outdated. rewrite Hc. simpl.
  apply existsb_exists. exists p. split; [assumption |].
  rewrite Hj, Hd. simpl. rewrite andb_true_r. now apply Z.ltb_lt.
Qed.

Lemma not_outdated_is_fresh db e p :
  In p (products db) -> entry_for p e = true -> has_description p = true ->
  outdated COLLECTION_NAME db e = false ->
  (p_updated_at p <= e_created_at e)%Z.
Proof.
  intros Hp He Hd Hout.
  destruct (Z.le_gt_cases (p_updated_at p) (e_created_at e)) as [Hle | Hgt];
    [assumption |].
  rewrite (outdated_by db e p Hp He Hd) in Hout by lia. discriminate.
Qed.

(** The claim holds neither for every clock nor for every index. First, the
    creation timestamp of the entry a run writes is the time of the write,
    which the code does not compare to T1: with a record dated ahead of the
    clock, the run leaves no entry of the record created at or after T1.
    Second, when the record has another entry, created after T1, the run
    deletes the outdated one and re-creates nothing. *)
Lemma outdated_entry_not_always_replaced :
  (exists r,
      run_product_ingestion REPEATABLE_READ 1 noon edited_ahead = Some r
      /\ In old_lantern_entry (langchain_embedding edited_ahead)
      /\ entry_for lantern old_lantern_entry = true
      /\ In lantern (products edited_ahead)
      /\ has_description lantern = true
      /\ (e_created_at old_lantern_entry < p_updated_at lantern)%Z
      /\ forall e', In e' (langchain_embedding (live (final r))) ->
                    (e_created_at e' < p_updated_at lantern)%Z)
  /\ (exists r,
         run_product_ingestion REPEATABLE_READ 1 noon stale_and_fresh = Some r
         /\ In old_tent_entry (langchain_embedding stale_and_fresh)
         /\ entry_for tent old_tent_entry = true
         /\ In tent (products stale_and_fresh)
         /\ has_description tent = true
         /\ (e_created_at old_tent_entry < p_updated_at tent)%Z
         /\ outdated_count r = 1
         /\ total_ingested r = 0
         /\ langchain_embedding (live (final r)) = [tent_entry]).
Proof.
  split.
  - eexists. split; [reflexivity |].
    split; [now left |]. split; [reflexivity |]. split; [now left |].
    split; [reflexivity |]. split; [reflexivity |].
    intros e' [<- | []]. reflexivity.
  - eexists. split; [reflexivity |].
    split; [now left |]. split; [reflexivity |]. split; [now left |].
    split; [reflexivity |]. split; [reflexivity |].
    split; [reflexivity |]. split; reflexivity.
Qed.

(** C4, amended: under the server's default isolation, take an entry of the
    collection created at T0 for a record that has a description and was
    last updated at T1 > T0. The run selects the entry in its second DELETE
    (not in the first), which therefore reports at least one row, and the
    entry is absent from the index the DELETEs leave; the final index is
    that index followed by the entries the run writes, one per ingested
    record. With a positive batch size: when every entry of the record was
    older than T1, the run writes an entry from the record, stamped with
    the time of the write; when an entry of the record is left by the
    DELETEs, the run writes none for it; and when the clock of the run has
    passed T1, the deleted entry is absent from the final index, which
    holds an entry of the record created at or after T1. *)
Theorem outdated_entry_replaced
        (B : nat) (clock : nat -> timestamp) (db : database)
        (e : embedding) (p : product) :
  In e (langchain_embedding db) ->
  entry_for p e = true ->
  In p (products db) ->
  has_description p = true ->
  (e_created_at e < p_updated_at p)%Z ->
  exists r new,
    run_product_ingestion REPEATABLE_READ B clock db = Some r
    /\ orphaned COLLECTION_NAME db e = false
    /\ outdated COLLECTION_NAME db e = true
    /\ 0 < outdated_count r
    /\ ~ In e (langchain_embedding (cleaned db))
    /\ langchain_embedding (live (final r))
       = langchain_embedding (cleaned db) ++ new
    /\ total_ingested r = length new
    /\ (0 < B ->
        (forall e2, In e2 (langchain_embedding db) -> entry_for p e2 = true ->
                    (e_created_at e2 < p_updated_at p)%Z) ->
        exists j, In (entry_of COLLECTION_NAME (clock j) p) new)
    /\ ((exists e2, In e2 (langchain_embedding (cleaned db))
                    /\ entry_for p e2 = true) ->
        forall e', In e' new -> entry_for p e' = false)
    /\ (0 < B ->
        (forall j, (p_updated_at p <= clock j)%Z) ->
        ~ In e (langchain_embedding (live (final r)))
        /\ exists e', In e' (langchain_embedding (live (final r)))
                      /\ entry_for p e' = true
                      /\ (p_updated_at p <= e_created_at e')%Z).
Proof.
  intros He Hfor Hp Hd Hlt.
  assert (Horph : orphaned COLLECTION_NAME db e = false).
  { unfold entry_for in Hfor. apply andb_true_iff in Hfor.
    exact (joined_not_orphaned db e p Hp (proj2 Hfor)). }
  assert (Hout : outdated COLLECTION_NAME db e = true)
    by now apply (outdated_by db e p).
  assert (Hrows : 0 < outdated_rows db).
  { unfold outdated_rows, rowcount. apply filter_length_pos with (x := e).
    - cbn [delete_where langchain_embedding]. apply filter_In.
      split; [assumption | now rewrite Horph].
    - exact Hout. }
  assert (Hgone : ~ In e (langchain_embedding (cleaned db))).
  { intro Hin. apply cleaned_In in Hin. destruct Hin as (_ & _ & Hno).
    congruence. }
  destruct B as [| n].
  { (* a batch size of zero: the run only cleans *)
    eexists. exists []. split; [apply run_nothing_to_ingest; now left |].
    cbn [outdated_count total_ingested final live send].
    rewrite live_begin_read. cbn [loop_start live].
    split; [exact Horph |]. split; [exact Hout |]. split; [exact Hrows |].
    split; [exact Hgone |]. split; [now rewrite app_nil_r |].
    split; [reflexivity |].
    split; [intro H0; inversion H0 |].
    split; [intros _ e' [] |]. intro H0. inversion H0. }
  destruct (run_repeatable_read (S n) clock db (Nat.lt_0_succ n))
    as (s' & new & Hrun & _ & Hnew & Hall).
  assert (Hwritten : existsb (entry_for p) (langchain_embedding (cleaned db)) = false ->
                     exists j, In (entry_of COLLECTION_NAME (clock j) p) new).
  { intro Hc.
    assert (Hto : In p (to_ingest db)).
    { apply to_ingest_In. split; [assumption |]. unfold missing.
      change (fun e0 => in_collection COLLECTION_NAME e0 && joins e0 p)
        with (entry_for p).
      now rewrite Hc, Hd. }
    destruct (Forall2_In_l _ _ _ _ Hall Hto) as (e' & He' & j & ->).
    now exists j. }
  eexists. exists new. split; [exact Hrun |].
  cbn [outdated_count total_ingested final]. rewrite Hnew.
  split; [exact Horph |]. split; [exact Hout |]. split; [exact Hrows |].
  split; [exact Hgone |]. split; [reflexivity |].
  split; [exact (Forall2_length Hall) |].
  split; [| split].
  - intros _ Hold. apply Hwritten.
    apply existsb_false. intros e2 Hin2.
    destruct (entry_for p e2) eqn:Hfor2; [| reflexivity].
    apply cleaned_In in Hin2. destruct Hin2 as (Hin2 & _ & Hno).
    pose proof (not_outdated_is_fresh db e2 p Hp Hfor2 Hd Hno).
    specialize (Hold e2 Hin2 Hfor2). lia.
  - intros (e2 & Hin2 & Hfor2) e' Hin.
    destruct (Forall2_In_r _ _ _ _ Hall Hin) as (q & Hq & j & ->).
    apply to_ingest_In in Hq. destruct Hq as (_ & Hmiss).
    unfold missing in Hmiss. apply andb_true_iff in Hmiss.
    destruct Hmiss as (Hnone & _). apply negb_true_iff in Hnone.
    unfold entry_for. rewrite in_collection_entry_of, joins_entry_of.
    cbn [andb]. destruct (p_id p =? p_id q)%Z eqn:Hid; [| reflexivity].
    apply Z.eqb_eq in Hid.
    assert (Hq2 : (in_collection COLLECTION_NAME e2 && joins e2 q) = true).
    { unfold entry_for in Hfor2. apply andb_true_iff in Hfor2.
      destruct Hfor2 as (Hc2 & Hj2). rewrite Hc2. cbn [andb].
      apply joins_iff. apply joins_iff in Hj2. now rewrite <- Hid. }
    rewrite (proj1 (existsb_false _ _) Hnone e2 Hin2) in Hq2. discriminate.
  - intros _ Hclock. split.
    + intro Hin. apply in_app_or in Hin. destruct Hin as [Hin | Hin];
        [now apply Hgone |].
      destruct (Forall2_In_r _ _ _ _ Hall Hin) as (q & _ & j & ->).
      cbn [entry_of e_created_at] in Hlt. specialize (Hclock j). lia.
    + destruct (existsb (entry_for p) (langchain_embedding (cleaned db))) eqn:Hc.
      * apply existsb_exists in Hc. destruct Hc as (e' & Hin & Hfor').
        exists e'. split; [apply in_or_app; now left |].
        split; [assumption |].
        apply cleaned_In in Hin. destruct Hin as (_ & _ & Hno).
        now apply (not_outdated_is_fresh db e' p).
      * destruct (Hwritten eq_refl) as (j & Hin).
        exists (entry_of COLLECTION_NAME (clock j) p).
        split; [apply in_or_app; now right |].
        split; [apply entry_for_entry_of | apply Hclock].
Qed.

Lemma outdated_entry_replaced_witness :
  exists r new,
    run_product_ingestion REPEATABLE_READ 1 noon edited_tent = Some r
    /\ orphaned COLLECTION_NAME edited_tent old_tent_entry = false
    /\ outdated COLLECTION_NAME edited_tent old_tent_entry = true
    /\ 0 < outdated_count r
    /\ ~ In old_tent_entry (langchain_embedding (cleaned edited_tent))
    /\ langchain_embedding (live (final r))
       = langchain_embedding (cleaned edited_tent) ++ new
    /\ total_ingested r = length new
    /\ (0 < 1 ->
        (forall e2, In e2 (langchain_embedding edited_tent) ->
                    entry_for tent e2 = true ->
                    (e_created_at e2 < p_updated_at tent)%Z) ->
        exists j, In (entry_of COLLECTION_NAME (noon j) tent) new)
    /\ ((exists e2, In e2 (langchain_embedding (cleaned edited_tent))
                    /\ entry_for tent e2 = true) ->
        forall e', In e' new -> entry_for tent e' = false)
    /\ (0 < 1 ->
        (forall j, (p_updated_at tent <= noon j)%Z) ->
        ~ In old_tent_entry (langchain_embedding (live (final r)))
        /\ exists e', In e' (langchain_embedding (live (final r)))
                      /\ entry_for tent e' = true
                      /\ (p_updated_at tent <= e_created_at e')%Z).
Proof.
  apply (outdated_entry_replaced 1 noon edited_tent old_tent_entry tent).
  - now left.
  - reflexivity.
  - now left.
  - reflexivity.
  - reflexivity.
Defined.

(** * What a run leaves, under either isolation level *)

(** The final index is what the DELETEs left, followed by entries written
    from catalog rows that have a description; the catalog is untouched. *)
Lemma run_frame iso B clock db :
  exists r new,
    run_product_ingestion iso B clock db = Some r
    /\ orphaned_count r = orphaned_rows db
    /\ outdated_count r = outdated_rows db
    /\ total_ingested r = length new
    /\ products (live (final r)) = products db
    /\ langchain_embedding (live (final r)) = langchain_embedding (cleaned db) ++ new
    /\ Forall (fun e => exists j p, e = entry_of COLLECTION_NAME (clock j) p
                                    /\ In p (products db)
                                    /\ has_description p = true) new
    /\ exists sent,
        log (final r) = log (loop_start db) ++ sent
        /\ Forall (ingestion_statement
                     (fun p => In p (products db) /\ has_description p = true))
                  sent.
Proof.
  destruct (run_returns iso B clock db) as (total & s' & Hloop & Hrun).
  apply ingest_loop_inv in Hloop; [| apply view_ok_loop_start].
  cbn [loop_start live] in Hloop. rewrite products_cleaned in Hloop.
  destruct Hloop as (Hp & _ & (new & Hnew & Hn & Hall) & Hsent).
  eexists; exists new. split; [exact Hrun |].
  cbn [orphaned_count outdated_count total_ingested final].
  repeat split; try assumption.
  eapply Forall_impl; [| exact Hall].
  intros e (j & p & He & _ & Hin & Hd). exists j, p. auto.
Qed.

(** * Orphaned entries *)


Lemma filter_length_split {A} (f : A -> bool) l :
  length l = length (filter (fun x => negb (f x)) l) + length (filter f l).
Proof.
  induction l as [| x l IH]; simpl; [reflexivity |].
  destruct (f x); simpl; lia.
Qed.



(** * Blank descriptions *)

Lemma text_of_not_spaces q :
  has_description q = true -> string_forallb is_space (text_of q) = false.
Proof.
  rewrite has_description_spaces. unfold spaces_description, text_of.
  destruct (p_description q); [apply negb_true_iff | discriminate].
Qed.

Lemma ingestion_statement_keeps_out (ok : product -> Prop) p st :
  (forall q, ok q -> has_description q = true) ->
  has_description p = false ->
  ingestion_statement ok st -> keeps_out p st.
Proof.
  intros Hok Hp. destruct st; simpl; try tauto.
  - intros Hall Hin. rewrite Forall_forall in Hall.
    apply Hall, Hok in Hin. congruence.
  - intros (rows0 & -> & -> & Hall). rewrite Forall_forall in Hall. split.
    + exists rows0. repeat split. intro Hin. apply Hall, Hok in Hin. congruence.
    + apply Forall_forall. intros t Ht. apply in_map_iff in Ht.
      destruct Ht as (q & <- & Hq). now apply text_of_not_spaces, Hok, Hall.
Qed.

(** The claim does not hold for whitespace other than spaces: a record
    whose description is a tab is fetched by the first SELECT and handed to
    [add_texts]. *)
Lemma whitespace_description_ingested :
  blank_description tab_only = true
  /\ In tab_only (select_missing COLLECTION_NAME 100 0 tab_catalog)
  /\ exists r,
      run_product_ingestion REPEATABLE_READ 100 noon tab_catalog = Some r
      /\ In (SELECT_MISSING 100 0 [tab_only]) (log (final r))
      /\ In (ADD_TEXTS [text_of tab_only] [metadata_of tab_only]) (log (final r)).
Proof.
  split; [reflexivity |]. split; [now left |].
  eexists. split; [reflexivity |].
  split; cbv [final log]; simpl; tauto.
Qed.

(** C6, amended: a record whose description is null, empty or made of
    spaces only is returned by no SELECT for missing records, whatever the
    tables, the limit and the offset; in every run, under either isolation
    level, no SELECT of the loop fetches it and no [add_texts] call receives
    it, nor any text made of spaces only; and the one-shot
    [ingest_products] of main.py does not fetch it either. *)
Theorem spaces_description_never_ingested
        (iso : isolation) (B : nat) (clock : nat -> timestamp) (db : database)
        (p : product) :
  spaces_description p = true ->
  (forall label limit offset v, ~ In p (select_missing label limit offset v))
  /\ (exists r, run_product_ingestion iso B clock db = Some r
                /\ Forall (keeps_out p) (log (final r)))
  /\ (forall now, ~ In p (fst (Main.ingest_products now db))).
Proof.
  intro Hp.
  assert (Hd : has_description p = false)
    by (rewrite has_description_spaces, Hp; reflexivity).
  split; [| split].
  - intros label limit offset v Hin. apply select_missing_In in Hin.
    destruct Hin as [_ Hm]. apply missing_has_description in Hm. congruence.
  - destruct (run_frame iso B clock db)
      as (r & new & Hrun & _ & _ & _ & _ & _ & _ & sent & Hlog & Hsent).
    exists r. split; [exact Hrun |]. rewrite Hlog. apply Forall_app. split.
    + cbn [loop_start log]. repeat constructor.
    + eapply Forall_impl; [| exact Hsent].
      intros st Hst. eapply ingestion_statement_keeps_out; [| exact Hd | exact Hst].
      intros q [_ Hq]. exact Hq.
  - intros now Hin. cbn [Main.ingest_products fst] in Hin.
    unfold Main.fetchall in Hin. apply filter_In in Hin.
    destruct Hin as [_ Hm]. apply missing_has_description in Hm. congruence.
Qed.

Lemma spaces_description_never_ingested_witness :
  (forall label limit offset v,
      ~ In spaces_only (select_missing label limit offset v))
  /\ (exists r, run_product_ingestion REPEATABLE_READ 100 noon spaces_edited = Some r
                /\ Forall (keeps_out spaces_only) (log (final r)))
  /\ (forall now, ~ In spaces_only (fst (Main.ingest_products now spaces_edited))).
Proof.
  apply (spaces_description_never_ingested
           REPEATABLE_READ 100 noon spaces_edited spaces_only).
  reflexivity.
Defined.

(** * Entries of a record whose description went blank *)

Lemma same_id_same_row l p q :
  NoDup (map p_id l) -> In p l -> In q l -> p_id p = p_id q -> p = q.
Proof.
  induction l as [| x l IH]; simpl; intros Hnd Hp Hq E; [contradiction |].
  inversion Hnd as [| i m Hnotin Hnd']; subst.
  destruct Hp as [-> | Hp], Hq as [-> | Hq]; auto.
  - exfalso. apply Hnotin. rewrite E. now apply in_map.
  - exfalso. apply Hnotin. rewrite <- E. now apply in_map.
Qed.

Lemma filter_filter_same {A} (f g : A -> bool) l :
  (forall x, In x l -> f x = true -> g x = true) ->
  filter f (filter g l) = filter f l.
Proof.
  induction l as [| x l IH]; simpl; intro H; [reflexivity |].
  assert (IH' : filter f (filter g l) = filter f l)
    by (apply IH; intros y Hy; apply H; now right).
  destruct (g x) eqn:Eg; simpl; rewrite IH'; [reflexivity |].
  destruct (f x) eqn:Ef; [| reflexivity].
  rewrite (H x (or_introl eq_refl) Ef) in Eg. discriminate.
Qed.

(** With unique identities, an entry of a record without description is
    selected by neither DELETE. *)
Lemma entry_of_blank_kept db p e :
  NoDup (map p_id (products db)) ->
  In p (products db) -> has_description p = false ->
  entry_for p e = true ->
  orphaned COLLECTION_NAME db e = false /\ outdated COLLECTION_NAME db e = false.
Proof.
  intros Hnd Hp Hd He. unfold entry_for in He. apply andb_true_iff in He.
  destruct He as [Hc Hj]. split.
  - exact (joined_not_orphaned db e p Hp Hj).
  - unfold outdated. rewrite Hc. simpl. apply existsb_false. intros q Hq.
    destruct (joins e q) eqn:Hjq; [| reflexivity].
    apply joins_iff in Hj. apply joins_iff in Hjq.
    assert (E : p = q).
    { apply (same_id_same_row (products db)); try assumption. congruence. }
    subst q. rewrite Hd. apply andb_false_r.
Qed.

(** The claim does not hold for whitespace other than spaces: the entry of
    a record whose description became a tab after the entry was created is
    deleted as outdated and a new one is written. *)
Lemma whitespace_description_entry_replaced :
  blank_description tab_only = true
  /\ In tab_only (products tab_edited)
  /\ In tab_entry (langchain_embedding tab_edited)
  /\ entry_for tab_only tab_entry = true
  /\ exists r,
      run_product_ingestion REPEATABLE_READ 100 noon tab_edited = Some r
      /\ outdated_count r = 1
      /\ total_ingested r = 1
      /\ ~ In tab_entry (langchain_embedding (live (final r)))
      /\ langchain_embedding (live (final r))
         = [entry_of COLLECTION_NAME (noon 0) tab_only].
Proof.
  split; [reflexivity |]. split; [now left |]. split; [now left |].
  split; [reflexivity |].
  eexists. split; [reflexivity |].
  cbv [final live outdated_count total_ingested langchain_embedding].
  repeat split. intros [H | []]. discriminate H.
Qed.

(** C10, amended: with unique identities in the catalog, when a record is
    still in the catalog and its description is null, empty or made of
    spaces only, a run under either isolation level selects none of the
    record's entries in either DELETE, every one of them is in the final
    index, and the entries of the record in the final index are exactly
    those it had before the run, in the same order. *)
Theorem blank_record_entries_untouched
        (iso : isolation) (B : nat) (clock : nat -> timestamp) (db : database)
        (p : product) :
  NoDup (map p_id (products db)) ->
  In p (products db) ->
  spaces_description p = true ->
  exists r,
    run_product_ingestion iso B clock db = Some r
    /\ (forall e, In e (langchain_embedding db) -> entry_for p e = true ->
                  orphaned COLLECTION_NAME db e = false
                  /\ outdated COLLECTION_NAME db e = false
                  /\ In e (langchain_embedding (live (final r))))
    /\ filter (entry_for p) (langchain_embedding (live (final r)))
       = filter (entry_for p) (langchain_embedding db).
Proof.
  intros Hnd Hp Hs.
  assert (Hd : has_description p = false)
    by (rewrite has_description_spaces, Hs; reflexivity).
  destruct (run_frame iso B clock db)
    as (r & new & Hrun & _ & _ & _ & _ & Hnew & Hall & _).
  exists r. split; [exact Hrun |]. rewrite Hnew. split.
  - intros e He Hfor.
    destruct (entry_of_blank_kept db p e Hnd Hp Hd Hfor) as [Ho Hu].
    repeat split; try assumption.
    apply in_or_app. left. now apply cleaned_In.
  - rewrite filter_app.
    rewrite (filter_nothing (entry_for p) new).
    + rewrite app_nil_r. unfold cleaned. cbv zeta.
      cbn [delete_where langchain_embedding products].
      rewrite filter_filter_same.
      * apply filter_filter_same. intros e He Hfor.
        now rewrite (proj1 (entry_of_blank_kept db p e Hnd Hp Hd Hfor)).
      * intros e He Hfor.
        change (outdated COLLECTION_NAME
                  (delete_where (orphaned COLLECTION_NAME db) db) e)
          with (outdated COLLECTION_NAME db e).
        now rewrite (proj2 (entry_of_blank_kept db p e Hnd Hp Hd Hfor)).
    + intros e He. rewrite Forall_forall in Hall.
      destruct (Hall e He) as (j & q & -> & Hq & Hdq).
      unfold entry_for. rewrite in_collection_entry_of, joins_entry_of. simpl.
      apply Z.eqb_neq. intro E.
      assert (p = q) by (apply (same_id_same_row (products db)); assumption).
      congruence.
Qed.

Lemma blank_record_entries_untouched_witness :
  exists r,
    run_product_ingestion REPEATABLE_READ 100 noon spaces_edited = Some r
    /\ (forall e, In e (langchain_embedding spaces_edited) ->
                  entry_for spaces_only e = true ->
                  orphaned COLLECTION_NAME spaces_edited e = false
                  /\ outdated COLLECTION_NAME spaces_edited e = false
                  /\ In e (langchain_embedding (live (final r))))
    /\ filter (entry_for spaces_only) (langchain_embedding (live (final r)))
       = filter (entry_for spaces_only) (langchain_embedding spaces_edited).
Proof.
  apply (blank_record_entries_untouched
           REPEATABLE_READ 100 noon spaces_edited spaces_only).
  - repeat constructor; simpl; intuition discriminate.
  - now left.
  - reflexivity.
Defined.

(** * Search *)

Lemma metadata_matches_category category e :
  metadata_matches [("category", JString category)] e = true ->
  json_get "category" (e_metadata e) = Some (JString category).
Proof.
  unfold metadata_matches. simpl. rewrite andb_true_r.
  destruct (json_get "category" (e_metadata e)) as [[n | s] |];
    simpl; try discriminate.
  intro H. apply String.eqb_eq in H. now subst.
Qed.

(** C7: [search_products] hands the similarity query the filter
    [{"category": category}], and, the store ranking only rows it was
    given, every document the query returns is an entry of the collection
    whose category metadata is the requested category; every result is the
    projection of such an entry, and there are at most [k] of them. *)
Theorem search_filters_by_category
        (nearest : string -> list embedding -> list embedding)
        (search_query category : string) (k : nat) (db : database) :
  (forall q l, incl (nearest q l) l) ->
  search_products nearest search_query category k db
  = map project (similarity_search nearest COLLECTION_NAME search_query k
                                   [("category", JString category)] db)
  /\ (forall doc,
         In doc (similarity_search nearest COLLECTION_NAME search_query k
                                   [("category", JString category)] db) ->
         In doc (langchain_embedding db)
         /\ e_collection doc = COLLECTION_NAME
         /\ json_get "category" (e_metadata doc) = Some (JString category))
  /\ (forall r,
         In r (search_products nearest search_query category k db) ->
         exists doc, In doc (langchain_embedding db)
                     /\ json_get "category" (e_metadata doc)
                        = Some (JString category)
                     /\ r = project doc)
  /\ length (search_products nearest search_query category k db) <= k.
Proof.
  intro Hsub.
  assert (Hdoc : forall doc,
             In doc (similarity_search nearest COLLECTION_NAME search_query k
                                       [("category", JString category)] db) ->
             In doc (langchain_embedding db)
             /\ e_collection doc = COLLECTION_NAME
             /\ json_get "category" (e_metadata doc) = Some (JString category)).
  { intros doc Hin. unfold similarity_search in Hin.
    apply In_firstn, Hsub, filter_In in Hin. destruct Hin as [Hin Hf].
    apply andb_true_iff in Hf. destruct Hf as [Hc Hm].
    split; [assumption |]. split.
    - now apply String.eqb_eq.
    - now apply metadata_matches_category. }
  split; [reflexivity |]. split; [exact Hdoc |]. split.
  - intros r Hr. unfold search_products in Hr. apply in_map_iff in Hr.
    destruct Hr as (doc & <- & Hin). exists doc.
    destruct (Hdoc doc Hin) as (H1 & _ & H3). auto.
  - unfold search_products, similarity_search.
    rewrite length_map. apply firstn_le_length.
Qed.

Lemma search_filters_by_category_witness :
  search_products (fun _ l => rev l) "warm" "Footwear" 10 two_categories
  = [project boots_entry]
  /\ forall r,
      In r (search_products (fun _ l => rev l) "warm" "Footwear" 10 two_categories) ->
      exists doc, In doc (langchain_embedding two_categories)
                  /\ json_get "category" (e_metadata doc)
                     = Some (JString "Footwear")
                  /\ r = project doc.
Proof.
  split; [reflexivity |].
  apply (search_filters_by_category (fun _ l => rev l) "warm" "Footwear" 10
                                    two_categories).
  intros q l x Hx. now apply in_rev.
Defined.

(** * The isolation level matters *)

(** Were the cursor's transaction READ COMMITTED, each SELECT would see the
    entries written for the batches before it, and the offset, which counts
    them, would skip as many rows that are still missing: of three missing
    records, a run with batches of one would ingest two. *)
Remark read_committed_skips_rows :
  exists r,
    run_product_ingestion READ_COMMITTED 1 noon three_products = Some r
    /\ batch_sizes (log (final r)) = [1; 1]
    /\ total_ingested r = 2
    /\ map e_content (langchain_embedding (live (final r)))
       = ["Waterproof tent"; "Hiking boots"].
Proof.
  eexists. split; [reflexivity |]. repeat split.
Qed.

(** * Further properties of [run_product_ingestion] *)

Lemma not_in_collection_kept label db e :
  in_collection label e = false ->
  orphaned label db e = false /\ outdated label db e = false.
Proof. intro H. unfold orphaned, outdated. now rewrite H. Qed.

(** X1: a run reads the catalog and writes one collection: the rows of
    [products] are as before, and the entries of every other collection
    are as before, in the same order. *)
Theorem run_leaves_other_collections
        (iso : isolation) (B : nat) (clock : nat -> timestamp) (db : database) :
  exists r,
    run_product_ingestion iso B clock db = Some r
    /\ products (live (final r)) = products db
    /\ filter (fun e => negb (in_collection COLLECTION_NAME e))
              (langchain_embedding (live (final r)))
       = filter (fun e => negb (in_collection COLLECTION_NAME e))
                (langchain_embedding db).
Proof.
  destruct (run_frame iso B clock db)
    as (r & new & Hrun & _ & _ & _ & Hp & Hnew & Hall & _).
  exists r. split; [exact Hrun |]. split; [exact Hp |].
  rewrite Hnew, filter_app.
  rewrite (filter_nothing _ new).
  - rewrite app_nil_r. unfold cleaned. cbv zeta.
    cbn [delete_where langchain_embedding products].
    rewrite filter_filter_same.
    + apply filter_filter_same. intros e _ He. apply negb_true_iff in He.
      now rewrite (proj1 (not_in_collection_kept COLLECTION_NAME db e He)).
    + intros e _ He. apply negb_true_iff in He.
      change (outdated COLLECTION_NAME
                (delete_where (orphaned COLLECTION_NAME db) db) e)
        with (outdated COLLECTION_NAME db e).
      now rewrite (proj2 (not_in_collection_kept COLLECTION_NAME db e He)).
  - intros e He. rewrite Forall_forall in Hall.
    destruct (Hall e He) as (j & q & -> & _).
    now rewrite in_collection_entry_of.
Qed.

(** An entry is never selected by both DELETEs. *)
Lemma orphaned_not_outdated label db e :
  orphaned label db e = true -> outdated label db e = false.
Proof.
  unfold orphaned, outdated. intro H. apply andb_true_iff in H.
  destruct H as [Hc Hn]. rewrite Hc. simpl. apply negb_true_iff in Hn.
  apply existsb_false. intros p Hp.
  rewrite (proj1 (existsb_false _ _) Hn p Hp). reflexivity.
Qed.

Lemma filter_filter_comm {A} (f g : A -> bool) l :
  filter f (filter g l) = filter g (filter f l).
Proof.
  induction l as [| x l IH]; simpl; [reflexivity |].
  destruct (f x) eqn:Ef, (g x) eqn:Eg; simpl; rewrite ?Ef, ?Eg, IH; reflexivity.
Qed.

Lemma outdated_rows_initial db :
  outdated_rows db
  = length (filter (outdated COLLECTION_NAME db) (langchain_embedding db)).
Proof.
  unfold outdated_rows, rowcount. cbn [delete_where langchain_embedding].
  rewrite filter_filter_comm. f_equal. apply filter_everything.
  intros e He. apply filter_In in He. destruct He as [_ He].
  destruct (orphaned COLLECTION_NAME db e) eqn:E; [| reflexivity].
  rewrite (orphaned_not_outdated _ _ _ E) in He. discriminate.
Qed.

Lemma cleaned_length db :
  length (langchain_embedding db)
  = length (langchain_embedding (cleaned db)) + orphaned_rows db + outdated_rows db.
Proof.
  pose proof (filter_length_split (orphaned COLLECTION_NAME db)
                                  (langchain_embedding db)) as H1.
  pose proof (filter_length_split
                (outdated COLLECTION_NAME db)
                (filter (fun e => negb (orphaned COLLECTION_NAME db e))
                        (langchain_embedding db))) as H2.
  unfold orphaned_rows, outdated_rows, rowcount, cleaned. cbv zeta.
  cbn [delete_where langchain_embedding products].
  change (fun e => negb (outdated COLLECTION_NAME
                           (delete_where (orphaned COLLECTION_NAME db) db) e))
    with (fun e => negb (outdated COLLECTION_NAME db e)).
  lia.
Qed.

(** X2: the counts a run reports add up: the second DELETE finds as many rows
    as were outdated in the index the run started from (the first DELETE
    takes none of them away), no entry is counted by both, and the final
    index has the initial number of entries, less the two counts, plus the
    ingested rows. The two DELETEs could be sent in either order. *)
Theorem run_counts_add_up
        (iso : isolation) (B : nat) (clock : nat -> timestamp) (db : database) :
  exists r,
    run_product_ingestion iso B clock db = Some r
    /\ orphaned_count r
       = length (filter (orphaned COLLECTION_NAME db) (langchain_embedding db))
    /\ outdated_count r
       = length (filter (outdated COLLECTION_NAME db) (langchain_embedding db))
    /\ (forall e, orphaned COLLECTION_NAME db e = true ->
                  outdated COLLECTION_NAME db e = false)
    /\ length (langchain_embedding (live (final r)))
       + orphaned_count r + outdated_count r
       = length (langchain_embedding db) + total_ingested r
    /\ cleaned db
       = delete_where (orphaned COLLECTION_NAME db)
                      (delete_where (outdated COLLECTION_NAME db) db).
Proof.
  destruct (run_frame iso B clock db)
    as (r & new & Hrun & Ho & Hu & Hn & _ & Hnew & _).
  exists r. split; [exact Hrun |]. rewrite Ho, Hu, Hn, Hnew.
  split; [reflexivity |]. split; [apply outdated_rows_initial |].
  split; [apply orphaned_not_outdated |].
  split.
  - rewrite length_app. pose proof (cleaned_length db). lia.
  - unfold cleaned, delete_where. cbv zeta. cbn [products langchain_embedding].
    f_equal. apply filter_filter_comm.
Qed.

(** ** The statements of the loop *)

Lemma fetched_length iso B total s : length (fetched iso B total s) <= B.
Proof. unfold fetched, select_missing. apply firstn_le_length. Qed.

Lemma ingest_loop_log iso B clock fuel :
  forall k total s n s',
    ingest_loop iso B clock fuel k total s = Some (n, s') ->
    exists sent, log s' = log s ++ sent /\ loop_log B total sent n.
Proof.
  induction fuel as [| fuel IH]; intros k total s n s' H; [discriminate |].
  rewrite ingest_loop_unfold in H. cbv zeta in H.
  pose proof (fetched_length iso B total s) as Hlen.
  destruct (fetched iso B total s) as [| p rows] eqn:Hf.
  - injection H as <- <-. exists [SELECT_MISSING B total []].
    cbn [send log]. rewrite log_begin_read. split; [reflexivity | constructor].
  - apply IH in H. destruct H as (sent & Hlog & Hshape).
    rewrite log_after_batch, log_begin_read in Hlog.
    exists (SELECT_MISSING B total (p :: rows)
            :: ADD_TEXTS (map text_of (p :: rows)) (map metadata_of (p :: rows))
            :: sent).
    split.
    + rewrite Hlog, <- app_assoc. reflexivity.
    + constructor; [discriminate | exact Hlen | exact Hshape].
Qed.

Lemma loop_log_batches B total sent n :
  loop_log B total sent n ->
  Forall (fun b => 1 <= b <= B) (batch_sizes sent)
  /\ n = total + list_sum (batch_sizes sent)
  /\ offsets sent = running_totals total (batch_sizes sent)
  /\ Forall (fun st => match st with
                       | ADD_TEXTS texts metadatas =>
                           length texts = length metadatas
                       | _ => True
                       end) sent.
Proof.
  induction 1 as [total | total rows sent n Hne Hle _ (IH1 & IH2 & IH3 & IH4)].
  - simpl. repeat split; auto; repeat constructor.
  - cbn [batch_sizes offsets flat_map app running_totals list_sum] in *.
    rewrite length_map. fold (batch_sizes sent). fold (offsets sent).
    split; [| split; [| split]].
    + constructor; [| exact IH1]. destruct rows; [contradiction | simpl in *; lia].
    + simpl. lia.
    + now rewrite IH3.
    + constructor; [exact I |]. constructor; [| exact IH4].
      now rewrite !length_map.
Qed.

(** X3: what the loop sends, under either isolation level and for every batch
    size: SELECTs and [add_texts] calls in turn, ending with a SELECT that
    fetches nothing. No [add_texts] call is made without texts or with more
    texts than the batch size, each gets as many metadata dicts as texts,
    the offset of each SELECT is the number of texts handed over before
    it, and the total the run reports is the sum of the batch sizes. *)
Theorem run_batches_bounded
        (iso : isolation) (B : nat) (clock : nat -> timestamp) (db : database) :
  exists r sent,
    run_product_ingestion iso B clock db = Some r
    /\ log (final r)
       = [ALTER_TABLE; DELETE_ORPHANED (orphaned_count r);
          DELETE_OUTDATED (outdated_count r); COMMIT] ++ sent
    /\ loop_log B 0 sent (total_ingested r)
    /\ Forall (fun b => 1 <= b <= B) (batch_sizes (log (final r)))
    /\ total_ingested r = list_sum (batch_sizes (log (final r)))
    /\ offsets (log (final r)) = running_totals 0 (batch_sizes (log (final r)))
    /\ Forall (fun st => match st with
                         | ADD_TEXTS texts metadatas =>
                             length texts = length metadatas
                         | _ => True
                         end) (log (final r)).
Proof.
  destruct (run_returns iso B clock db) as (total & s' & Hloop & Hrun).
  destruct (ingest_loop_log iso B clock _ _ _ _ _ _ Hloop)
    as (sent & Hlog & Hshape).
  destruct (loop_log_batches B 0 sent total Hshape) as (H1 & H2 & H3 & H4).
  eexists; exists sent. split; [exact Hrun |].
  cbn [final orphaned_count outdated_count total_ingested].
  rewrite Hlog. cbn [loop_start log].
  assert (Hb : forall l,
             batch_sizes ([ALTER_TABLE; DELETE_ORPHANED (orphaned_rows db);
                           DELETE_OUTDATED (outdated_rows db); COMMIT] ++ l)
             = batch_sizes l) by reflexivity.
  assert (Ho : forall l,
             offsets ([ALTER_TABLE; DELETE_ORPHANED (orphaned_rows db);
                       DELETE_OUTDATED (outdated_rows db); COMMIT] ++ l)
             = offsets l) by reflexivity.
  rewrite Hb, Ho.
  repeat split; try assumption.
  apply Forall_app. split; [repeat constructor | exact H4].
Qed.

(** ** The index a run leaves under REPEATABLE READ *)

(** Once every row to ingest has its entry, no record with a description
    is without one. *)
Lemma all_rows_covered clock db new p :
  Forall2 (fun q e => exists j : nat, e = entry_of COLLECTION_NAME (clock j) q)
          (to_ingest db) new ->
  In p (products db) -> has_description p = true ->
  existsb (entry_for p) (langchain_embedding (cleaned db) ++ new) = true.
Proof.
  intros Hall Hp Hd. rewrite existsb_app.
  destruct (existsb (entry_for p) (langchain_embedding (cleaned db))) eqn:Hc;
    [reflexivity |].
  assert (Hto : In p (to_ingest db)).
  { apply to_ingest_In. split; [assumption |]. unfold missing.
    change (fun e => in_collection COLLECTION_NAME e && joins e p)
      with (entry_for p).
    now rewrite Hc, Hd. }
  destruct (Forall2_In_l _ _ _ _ Hall Hto) as (e & He & j & ->).
  simpl. apply existsb_exists. eexists. split; [exact He |].
  apply entry_for_entry_of.
Qed.

(** X4: a run with a positive batch size, whose clock has passed the updates
    of the catalog, restores the agreement of index and catalog: every
    record with a description has an entry in the collection, no entry of
    the final index is orphaned or outdated, and every entry of a record
    with a description is at least as recent as the record's last update. *)
Theorem run_restores_agreement
        (B : nat) (clock : nat -> timestamp) (db : database) :
  0 < B ->
  (forall p j, In p (products db) -> (p_updated_at p <= clock j)%Z) ->
  exists r,
    run_product_ingestion REPEATABLE_READ B clock db = Some r
    /\ (forall p, In p (products db) -> has_description p = true ->
                  existsb (entry_for p) (langchain_embedding (live (final r)))
                  = true)
    /\ (forall e, In e (langchain_embedding (live (final r))) ->
                  orphaned COLLECTION_NAME (live (final r)) e = false
                  /\ outdated COLLECTION_NAME (live (final r)) e = false)
    /\ (forall p e, In p (products db) -> has_description p = true ->
                    In e (langchain_embedding (live (final r))) ->
                    entry_for p e = true ->
                    (p_updated_at p <= e_created_at e)%Z).
Proof.
  intros HB Hclock.
  destruct (run_repeatable_read B clock db HB)
    as (s' & new & Hrun & Hp & Hnew & Hall).
  assert (Hkept : forall e, In e (langchain_embedding (live s')) ->
                            orphaned COLLECTION_NAME db e = false
                            /\ outdated COLLECTION_NAME db e = false).
  { intros e He. rewrite Hnew in He. apply in_app_or in He.
    destruct He as [He | He].
    - apply cleaned_In in He. tauto.
    - destruct (Forall2_In_r _ _ _ _ Hall He) as (p & Hin & j & ->).
      apply to_ingest_In in Hin.
      apply fresh_entry_kept; [tauto |].
      intros q Hq. now apply Hclock. }
  eexists. split; [exact Hrun |]. cbn [final].
  split; [| split].
  - intros p Hin Hd. rewrite Hnew. now apply (all_rows_covered clock).
  - intros e He.
    rewrite (orphaned_same_products _ db (live s') e Hp),
      (outdated_same_products _ db (live s') e Hp).
    now apply Hkept.
  - intros p e Hin Hd He Hfor.
    apply (not_outdated_is_fresh db e p Hin Hfor Hd).
    now apply Hkept.
Qed.

Lemma run_restores_agreement_witness :
  exists r,
    run_product_ingestion REPEATABLE_READ 1 noon edited_tent = Some r
    /\ (forall p, In p (products edited_tent) -> has_description p = true ->
                  existsb (entry_for p) (langchain_embedding (live (final r)))
                  = true)
    /\ (forall e, In e (langchain_embedding (live (final r))) ->
                  orphaned COLLECTION_NAME (live (final r)) e = false
                  /\ outdated COLLECTION_NAME (live (final r)) e = false)
    /\ (forall p e, In p (products edited_tent) -> has_description p = true ->
                    In e (langchain_embedding (live (final r))) ->
                    entry_for p e = true ->
                    (p_updated_at p <= e_created_at e)%Z).
Proof.
  apply (run_restores_agreement 1 noon edited_tent).
  - apply Nat.lt_0_1.
  - intros p j [<- | [<- | []]]; unfold noon;
      cbn [p_updated_at tent jacket]; lia.
Defined.

(** ** One entry per record *)

Lemma NoDup_map_filter {A C} (f : A -> C) (g : A -> bool) l :
  NoDup (map f l) -> NoDup (map f (filter g l)).
Proof.
  induction l as [| x l IH]; simpl; intro H; [constructor |].
  inversion H as [| y m Hnotin Hnd]; subst.
  destruct (g x); simpl; [| now apply IH].
  constructor; [| now apply IH].
  intro Hin. apply Hnotin. apply in_map_iff in Hin.
  destruct Hin as (z & Hz & Hin). apply filter_In in Hin.
  rewrite <- Hz. apply in_map. tauto.
Qed.

Lemma to_ingest_NoDup db :
  NoDup (map p_id (products db)) -> NoDup (map p_id (to_ingest db)).
Proof.
  intro H. unfold to_ingest.
  eapply Permutation_NoDup.
  - apply Permutation_map, Permutation_sym, order_by_id_perm.
  - now apply NoDup_map_filter.
Qed.

Lemma existsb_false_filter {A} (f : A -> bool) l :
  existsb f l = false -> filter f l = [].
Proof. intro H. apply filter_nothing. now apply existsb_false. Qed.

Lemma existsb_true_filter {A} (f : A -> bool) l :
  existsb f l = true -> 1 <= length (filter f l).
Proof.
  intro H. apply existsb_exists in H. destruct H as (x & Hx & Hf).
  now apply (filter_length_pos f l x).
Qed.

Lemma filter_filter_length {A} (f g : A -> bool) l :
  length (filter f (filter g l)) <= length (filter f l).
Proof.
  induction l as [| x l IH]; simpl; [lia |].
  destruct (g x); simpl; destruct (f x); simpl; lia.
Qed.

Lemma cleaned_entries_le db p :
  length (filter (entry_for p) (langchain_embedding (cleaned db)))
  <= length (filter (entry_for p) (langchain_embedding db)).
Proof.
  unfold cleaned. cbv zeta. cbn [delete_where langchain_embedding products].
  etransitivity; apply filter_filter_length.
Qed.

(** X5: with unique identities in the catalog and a positive batch size, a run
    keeps the index free of duplicates: if no record had more than one
    entry in the collection before the run, none has more than one after
    it, and every record with a description has exactly one. *)
Theorem run_keeps_one_entry_per_record
        (B : nat) (clock : nat -> timestamp) (db : database) :
  0 < B ->
  NoDup (map p_id (products db)) ->
  (forall p, In p (products db) ->
             length (filter (entry_for p) (langchain_embedding db)) <= 1) ->
  exists r,
    run_product_ingestion REPEATABLE_READ B clock db = Some r
    /\ forall p, In p (products db) ->
                 length (filter (entry_for p)
                                (langchain_embedding (live (final r)))) <= 1
                 /\ (has_description p = true ->
                     length (filter (entry_for p)
                                    (langchain_embedding (live (final r)))) = 1).
Proof.
  intros HB Hnd Hone.
  destruct (run_repeatable_read B clock db HB)
    as (s' & new & Hrun & _ & Hnew & Hall).
  eexists. split; [exact Hrun |]. cbn [final]. intros p Hp.
  rewrite Hnew, filter_app, length_app.
  rewrite (entries_of_rows clock p _ _ Hall).
  pose proof (cleaned_entries_le db p) as Hle. specialize (Hone p Hp).
  destruct (existsb (entry_for p) (langchain_embedding (cleaned db))) eqn:Hc.
  - (* the record has an entry left: it is not fetched *)
    assert (Hnone : filter (fun q => (p_id p =? p_id q)%Z) (to_ingest db) = []).
    { apply filter_nothing. intros q Hq. apply Z.eqb_neq. intro E.
      apply to_ingest_In in Hq. destruct Hq as [Hq Hm].
      assert (p = q) by (apply (same_id_same_row (products db)); assumption).
      subst q. unfold missing in Hm.
      change (fun e => in_collection COLLECTION_NAME e && joins e p)
        with (entry_for p) in Hm.
      rewrite Hc in Hm. discriminate. }
    rewrite Hnone. cbn [length].
    apply existsb_true_filter in Hc. lia.
  - rewrite (existsb_false_filter _ _ Hc). cbn [length].
    destruct (has_description p) eqn:Hd.
    + assert (Hto : In p (to_ingest db)).
      { apply to_ingest_In. split; [assumption |]. unfold missing.
        change (fun e => in_collection COLLECTION_NAME e && joins e p)
          with (entry_for p).
        now rewrite Hc, Hd. }
      rewrite (one_row_per_id p (to_ingest db) (to_ingest_NoDup db Hnd) Hto).
      auto.
    + assert (Hnone : filter (fun q => (p_id p =? p_id q)%Z) (to_ingest db) = []).
      { apply filter_nothing. intros q Hq. apply Z.eqb_neq. intro E.
        apply to_ingest_In in Hq. destruct Hq as [Hq Hm].
        assert (p = q) by (apply (same_id_same_row (products db)); assumption).
        subst q. apply missing_has_description in Hm. congruence. }
      rewrite Hnone. cbn [length]. split; [lia | discriminate].
Qed.

Lemma run_keeps_one_entry_per_record_witness :
  exists r,
    run_product_ingestion REPEATABLE_READ 1 noon edited_tent = Some r
    /\ forall p, In p (products edited_tent) ->
                 length (filter (entry_for p)
                                (langchain_embedding (live (final r)))) <= 1
                 /\ (has_description p = true ->
                     length (filter (entry_for p)
                                    (langchain_embedding (live (final r)))) = 1).
Proof.
  apply (run_keeps_one_entry_per_record 1 noon edited_tent).
  - apply Nat.lt_0_1.
  - repeat constructor; simpl; intuition discriminate.
  - intros p [<- | [<- | []]]; simpl; lia.
Defined.

(** ** A single batch *)

Lemma filter_length_mono {A} (f g : A -> bool) l :
  (forall y, g y = true -> f y = true) ->
  length (filter g l) <= length (filter f l).
Proof.
  intro Hgf. induction l as [| y l IH]; simpl; [lia |].
  destruct (g y) eqn:Eg.
  - rewrite (Hgf _ Eg). simpl. lia.
  - destruct (f y); simpl; lia.
Qed.

(** After a batch that took every row to ingest, the next SELECT fetches
    nothing, whatever it sees of the batch. *)
Lemma fetched_after_full_batch iso B now db :
  fetched iso B (0 + length (to_ingest db))
          (after_batch B now 0 (to_ingest db) (begin_read iso (loop_start db)))
  = [].
Proof.
  unfold fetched, select_missing.
  rewrite skipn_all2; [apply firstn_nil |].
  rewrite order_by_id_length. destruct iso.
  - rewrite (visible_snapshot _ (cleaned db)) by reflexivity.
    unfold to_ingest. rewrite order_by_id_length, products_cleaned. simpl. lia.
  - rewrite visible_read_committed, live_after_batch, live_begin_read.
    cbn [products].
    change (products (live (loop_start db))) with (products db).
    transitivity (length (filter (missing COLLECTION_NAME (cleaned db))
                                 (products db))).
    + apply filter_length_mono. intros y Hy.
      pose proof (missing_after_batch now (to_ingest db) (cleaned db) y) as E.
      assert (Hy' : missing COLLECTION_NAME (cleaned db) y
                    && negb (existsb (fun q => (p_id y =? p_id q)%Z) (to_ingest db))
                    = true) by (rewrite <- E; exact Hy).
      now apply andb_true_iff in Hy'.
    + unfold to_ingest. rewrite order_by_id_length. apply Nat.le_refl.
Qed.

(** X6: when the rows to ingest fit in one batch, the isolation level plays no
    part: under either one the run hands them all to a single [add_texts]
    call, in the order of the identities, reports their number, and leaves
    the cleaned index followed by their entries. *)
Theorem single_batch_under_either_isolation
        (iso : isolation) (B : nat) (clock : nat -> timestamp) (db : database) :
  length (to_ingest db) <= B ->
  exists r,
    run_product_ingestion iso B clock db = Some r
    /\ total_ingested r = length (to_ingest db)
    /\ langchain_embedding (live (final r))
       = langchain_embedding (cleaned db)
         ++ map (entry_of COLLECTION_NAME (clock 0)) (to_ingest db)
    /\ batch_sizes (log (final r))
       = match to_ingest db with
         | [] => []
         | _ :: _ => [length (to_ingest db)]
         end.
Proof.
  intro Hfit.
  destruct (to_ingest db) as [| p rows] eqn:HL.
  - eexists. split; [apply run_nothing_to_ingest; now right |].
    cbn [total_ingested final send live log]. rewrite live_begin_read.
    cbn [loop_start live]. rewrite app_nil_r.
    split; [reflexivity |]. split; [reflexivity |].
    rewrite log_begin_read. reflexivity.
  - assert (Hfuel : exists m, length (products db) = S m).
    { destruct (proj1 (to_ingest_In db p)) as [Hin _]; [rewrite HL; now left |].
      destruct (products db) as [| q l]; [contradiction |].
      exists (length l). reflexivity. }
    destruct Hfuel as [m Hm].
    assert (Hfirst : fetched iso B 0 (loop_start db) = p :: rows).
    { rewrite fetched_loop_start. unfold select_missing.
      rewrite products_cleaned. fold (to_ingest db). rewrite HL.
      simpl skipn. apply firstn_all2. exact Hfit. }
    pose proof (fetched_after_full_batch iso B (clock 0) db) as Hnext.
    rewrite HL in Hnext.
    eexists. split.
    + unfold run_product_ingestion. rewrite run_with_fuel_unfold, Hm.
      rewrite ingest_loop_unfold. cbv zeta. rewrite Hfirst.
      rewrite ingest_loop_unfold. cbv zeta. rewrite Hnext. reflexivity.
    + cbn [total_ingested final send live log].
      rewrite live_begin_read, live_after_batch, live_begin_read.
      rewrite log_begin_read, log_after_batch, log_begin_read.
      cbn [loop_start live log langchain_embedding].
      split; [reflexivity |]. split; [reflexivity |].
      unfold batch_sizes. rewrite !flat_map_app. simpl.
      now rewrite length_map.
Qed.

Lemma single_batch_under_either_isolation_witness :
  exists r,
    run_product_ingestion READ_COMMITTED 3 noon three_products = Some r
    /\ total_ingested r = length (to_ingest three_products)
    /\ langchain_embedding (live (final r))
       = langchain_embedding (cleaned three_products)
         ++ map (entry_of COLLECTION_NAME (noon 0)) (to_ingest three_products)
    /\ batch_sizes (log (final r))
       = match to_ingest three_products with
         | [] => []
         | _ :: _ => [length (to_ingest three_products)]
         end.
Proof.
  apply (single_batch_under_either_isolation READ_COMMITTED 3 noon three_products).
  apply Nat.le_refl.
Defined.

(** ** Searching what a run ingested *)

Lemma cleaned_empty_index db :
  langchain_embedding db = [] -> langchain_embedding (cleaned db) = [].
Proof.
  intro He. unfold cleaned. cbv zeta. cbn [delete_where langchain_embedding].
  now rewrite He.
Qed.

(** X7: after a first run over an empty index, under either isolation level,
    every result of a search by category is read off a catalog record of
    that category that has a description: its identity, its name and its
    description. *)
Theorem search_after_first_run
        (iso : isolation) (B : nat) (clock : nat -> timestamp)
        (nearest : string -> list embedding -> list embedding)
        (search_query category : string) (k : nat) (db : database) :
  (forall q l, incl (nearest q l) l) ->
  langchain_embedding db = [] ->
  exists r,
    run_product_ingestion iso B clock db = Some r
    /\ forall res,
        In res (search_products nearest search_query category k (live (final r))) ->
        exists p,
          In p (products db)
          /\ has_description p = true
          /\ p_category p = category
          /\ res = mk_search_result (Some (JNumber (p_id p)))
                                    (Some (JString (p_name p)))
                                    (text_of p).
Proof.
  intros Hsub He.
  destruct (run_frame iso B clock db)
    as (r & new & Hrun & _ & _ & _ & _ & Hnew & Hall & _).
  exists r. split; [exact Hrun |].
  intros res Hres. unfold search_products, similarity_search in Hres.
  apply in_map_iff in Hres. destruct Hres as (doc & <- & Hdoc).
  apply In_firstn, Hsub, filter_In in Hdoc. destruct Hdoc as [Hin Hf].
  apply andb_true_iff in Hf. destruct Hf as [_ Hm].
  apply metadata_matches_category in Hm.
  rewrite Hnew, (cleaned_empty_index db He) in Hin. simpl in Hin.
  rewrite Forall_forall in Hall.
  destruct (Hall doc Hin) as (j & p & -> & Hp & Hd).
  exists p. split; [exact Hp |]. split; [exact Hd |].
  split; [| reflexivity].
  cbn in Hm. congruence.
Qed.

Lemma search_after_first_run_witness :
  exists r,
    run_product_ingestion REPEATABLE_READ 2 noon three_products = Some r
    /\ forall res,
        In res (search_products (fun _ l => rev l) "dry feet" "Footwear" 10
                                (live (final r))) ->
        exists p,
          In p (products three_products)
          /\ has_description p = true
          /\ p_category p = "Footwear"
          /\ res = mk_search_result (Some (JNumber (p_id p)))
                                    (Some (JString (p_name p)))
                                    (text_of p).
Proof.
  apply (search_after_first_run REPEATABLE_READ 2 noon (fun _ l => rev l)
                                "dry feet" "Footwear" 10 three_products).
  - intros q l x Hx. now apply in_rev.
  - reflexivity.
Defined.

(** * The endpoints of backend.py *)

Lemma verify_api_key_accepts K k :
  verify_api_key K k = None <-> k = K.
Proof.
  unfold verify_api_key. destruct (String.eqb_spec k K) as [E | E]; simpl.
  - tauto.
  - split; [discriminate | contradiction].
Qed.

Lemma verify_api_key_rejects K k :
  k <> K -> verify_api_key K k = Some (HTTPException 401 "Invalid API key").
Proof.
  intro Hne. unfold verify_api_key.
  destruct (String.eqb_spec k K) as [E | _]; [contradiction | reflexivity].
Qed.

(** The dependencies of both endpoints let a request through exactly when
    its header is the configured key and that key is not empty. *)
Lemma depends_verify_api_key_accepts release K header :
  depends_verify_api_key release K header = None
  <-> header = Some K /\ K <> "".
Proof.
  unfold depends_verify_api_key, api_key_header.
  destruct header as [[| c k] |].
  - split; [discriminate | intros [E Hne]; injection E as <-; now contradiction Hne].
  - rewrite verify_api_key_accepts. split.
    + intros <-. split; [reflexivity | discriminate].
    + intros [E _]. now injection E.
  - split; [discriminate | intros [E _]; discriminate].
Qed.

Lemma depends_verify_api_key_refuses release K header :
  header = None \/ header = Some "" ->
  depends_verify_api_key release K header = Some (not_authenticated release).
Proof. intros [-> | ->]; reflexivity. Qed.

Lemma depends_verify_api_key_rejects release K k :
  k <> "" -> k <> K ->
  depends_verify_api_key release K (Some k)
  = Some (HTTPException 401 "Invalid API key").
Proof.
  intros Hk Hne. unfold depends_verify_api_key, api_key_header.
  destruct k as [| c k]; [contradiction |].
  now apply verify_api_key_rejects.
Qed.

(** X8: the key check stands before both endpoints. A request without the
    X-API-Key header, or with an empty one, is refused by the framework as
    not authenticated, before the key is compared; a request with another
    key than the configured one is answered with status 401 "Invalid API
    key". Either way no run is scheduled, so the tables are as they were,
    and no search is made. A request with the configured key, that key not
    being empty, is answered "Ingestion started" by /ingest-products
    whatever the tables hold, and once served the tables are those a run
    leaves; /search-products answers it with the results of the search when
    the store returns. The dependencies let a request through in no other
    case. *)
Theorem api_key_gate
        (iso : isolation) (B : nat) (clock : nat -> timestamp)
        (release : framework_release) (answers : string -> bool)
        (nearest : string -> list embedding -> list embedding)
        (DEMO_API_KEY search_query category : string) (k : nat) (db : database) :
  (forall header,
      header = None \/ header = Some "" ->
      serve_ingest_products iso B clock release DEMO_API_KEY header db
      = (IngestRejected (not_authenticated release), Some db)
      /\ search_products_endpoint release answers nearest DEMO_API_KEY header
                                  search_query category k db
         = SearchRejected (not_authenticated release))
  /\ (forall api_key,
         api_key <> "" ->
         api_key <> DEMO_API_KEY ->
         serve_ingest_products iso B clock release DEMO_API_KEY (Some api_key) db
         = (IngestRejected (HTTPException 401 "Invalid API key"), Some db)
         /\ search_products_endpoint release answers nearest DEMO_API_KEY
                                     (Some api_key) search_query category k db
            = SearchRejected (HTTPException 401 "Invalid API key"))
  /\ (DEMO_API_KEY <> "" ->
      (exists r,
          run_product_ingestion iso B clock db = Some r
          /\ serve_ingest_products iso B clock release DEMO_API_KEY
                                   (Some DEMO_API_KEY) db
             = (IngestAccepted "Ingestion started"
                               "Product ingestion is running in the background",
                Some (live (final r))))
      /\ search_products_endpoint release answers nearest DEMO_API_KEY
                                  (Some DEMO_API_KEY) search_query category k db
         = if answers search_query
           then SearchResults (search_products nearest search_query category k db)
           else SearchRaised)
  /\ (forall header,
         depends_verify_api_key release DEMO_API_KEY header = None
         <-> header = Some DEMO_API_KEY /\ DEMO_API_KEY <> "").
Proof.
  split; [| split; [| split]].
  - intros header Hheader.
    unfold serve_ingest_products, ingest_products_endpoint,
      search_products_endpoint.
    rewrite (depends_verify_api_key_refuses release DEMO_API_KEY header Hheader).
    split; reflexivity.
  - intros api_key Hk Hne.
    unfold serve_ingest_products, ingest_products_endpoint,
      search_products_endpoint.
    rewrite (depends_verify_api_key_rejects release DEMO_API_KEY api_key Hk Hne).
    split; reflexivity.
  - intro Hkey.
    assert (Hpass : depends_verify_api_key release DEMO_API_KEY
                                           (Some DEMO_API_KEY) = None)
      by now apply depends_verify_api_key_accepts.
    split.
    + destruct (run_returns iso B clock db) as (total & s' & _ & Hrun).
      eexists. split; [exact Hrun |].
      unfold serve_ingest_products, ingest_products_endpoint.
      rewrite Hpass. cbn [run_background]. now rewrite Hrun.
    + unfold search_products_endpoint. now rewrite Hpass.
  - intro header. apply depends_verify_api_key_accepts.
Qed.

Lemma api_key_gate_witness :
  (serve_ingest_products REPEATABLE_READ 100 noon Refuses401 "demo-key-123"
                         (Some "guess") three_products
   = (IngestRejected (HTTPException 401 "Invalid API key"), Some three_products)
   /\ search_products_endpoint Refuses401 (fun _ => true) (fun _ l => l)
                               "demo-key-123" (Some "guess")
                               "tent" "Camping" 10 three_products
      = SearchRejected (HTTPException 401 "Invalid API key"))
  /\ search_products_endpoint Refuses401 (fun _ => true) (fun _ l => l)
                              "demo-key-123" (Some "demo-key-123")
                              "tent" "Camping" 10 three_products
     = SearchResults (search_products (fun _ l => l) "tent" "Camping" 10
                                      three_products).
Proof.
  destruct (api_key_gate REPEATABLE_READ 100 noon Refuses401 (fun _ => true)
                         (fun _ l => l)
                         "demo-key-123" "tent" "Camping" 10 three_products)
    as (_ & Hreject & Haccept & _).
  split.
  - apply Hreject; discriminate.
  - destruct Haccept as (_ & Hsearch); [discriminate | exact Hsearch].
Defined.

(** * [ingest_products] of main.py *)

Lemma missing_after_add label now rows db p :
  missing label
          {| products := products db;
             langchain_embedding :=
               langchain_embedding db ++ map (entry_of label now) rows |} p
  = missing label db p && negb (existsb (fun q => (p_id p =? p_id q)%Z) rows).
Proof.
  unfold missing. simpl. rewrite existsb_app, negb_orb.
  replace (existsb (fun e => in_collection label e && joins e p)
                   (map (entry_of label now) rows))
    with (existsb (fun q => (p_id p =? p_id q)%Z) rows).
  - destruct (existsb _ (langchain_embedding db)), (existsb _ rows),
      (has_description p); reflexivity.
  - induction rows as [| q rows IH]; simpl; [reflexivity |].
    rewrite IH. unfold in_collection. simpl. now rewrite String.eqb_refl.
Qed.

Lemma main_ingest_tables now db :
  snd (Main.ingest_products now db)
  = {| products := products db;
       langchain_embedding :=
         langchain_embedding db
         ++ map (entry_of Main.COLLECTION_NAME now) (Main.fetchall db) |}.
Proof. unfold Main.ingest_products. simpl. apply add_texts_rows. Qed.

Lemma main_nothing_missing now db p :
  In p (products db) ->
  missing Main.COLLECTION_NAME (snd (Main.ingest_products now db)) p = false.
Proof.
  intro Hp. rewrite main_ingest_tables, missing_after_add.
  destruct (missing Main.COLLECTION_NAME db p) eqn:Hm; [| reflexivity].
  simpl. apply negb_false_iff. apply existsb_exists. exists p.
  split; [| apply Z.eqb_refl].
  unfold Main.fetchall. now apply filter_In.
Qed.

(** X9: one call of main.py's [ingest_products] leaves no record with a
    description without an entry in its collection. It only appends: the
    catalog is as before and the index is the old index followed by one
    entry per fetched row, so entries that are orphaned or older than their
    record stay, and a record that has an entry, however old, is not
    fetched. *)
Theorem main_ingest_covers_catalog (now : timestamp) (db : database) :
  products (snd (Main.ingest_products now db)) = products db
  /\ langchain_embedding (snd (Main.ingest_products now db))
     = langchain_embedding db
       ++ map (entry_of Main.COLLECTION_NAME now)
              (fst (Main.ingest_products now db))
  /\ (forall p, In p (products db) -> has_description p = true ->
                existsb (fun e => in_collection Main.COLLECTION_NAME e && joins e p)
                        (langchain_embedding (snd (Main.ingest_products now db)))
                = true)
  /\ (forall p e, In e (langchain_embedding db) ->
                  in_collection Main.COLLECTION_NAME e && joins e p = true ->
                  ~ In p (fst (Main.ingest_products now db))).
Proof.
  split; [| split; [| split]].
  - now rewrite main_ingest_tables.
  - now rewrite main_ingest_tables.
  - intros p Hp Hd.
    pose proof (main_nothing_missing now db p Hp) as Hm.
    unfold missing in Hm. rewrite Hd, andb_true_r in Hm.
    now apply negb_false_iff in Hm.
  - intros p e He Hfor Hin. cbn [Main.ingest_products fst] in Hin.
    unfold Main.fetchall in Hin. apply filter_In in Hin.
    destruct Hin as [_ Hm]. unfold missing in Hm.
    apply andb_true_iff in Hm. destruct Hm as [Hm _].
    apply negb_true_iff in Hm.
    rewrite (proj1 (existsb_false _ _) Hm e He) in Hfor. discriminate.
Qed.

(** X10: a second call of main.py's [ingest_products], the catalog being the
    same, fetches no row and leaves the tables as the first call left
    them. *)
Theorem main_ingest_twice (now now' : timestamp) (db : database) :
  Main.ingest_products now' (snd (Main.ingest_products now db))
  = ([], snd (Main.ingest_products now db)).
Proof.
  assert (Hnone : Main.fetchall (snd (Main.ingest_products now db)) = []).
  { unfold Main.fetchall. apply filter_nothing. intros p Hp.
    apply main_nothing_missing.
    now rewrite main_ingest_tables in Hp. }
  unfold Main.ingest_products at 1. rewrite Hnone.
  f_equal. unfold add_texts. simpl. rewrite app_nil_r.
  now destruct (snd (Main.ingest_products now db)).
Qed.

(** * webinar-main.py *)

Lemma insert_by_perm {A} (le : A -> A -> bool) x l :
  Permutation (Webinar.insert_by le x l) (x :: l).
Proof.
  induction l as [| y l IH]; simpl; [apply Permutation_refl |].
  destruct (le x y); [apply Permutation_refl |].
  eapply perm_trans; [apply perm_skip, IH | apply perm_swap].
Qed.

Lemma order_by_perm {A} (le : A -> A -> bool) l :
  Permutation (Webinar.order_by le l) l.
Proof.
  induction l as [| x l IH]; simpl; [apply perm_nil |].
  eapply perm_trans; [apply insert_by_perm | now apply perm_skip].
Qed.

(** X11: the text search has no WHERE clause: it returns at most ten names, each
    the name of a catalog row, and on a catalog of at most ten rows it
    returns every name, whatever the query and its scores. *)
Theorem text_search_returns_names
        (scores_le : string -> string -> string -> bool)
        (query : string) (db : database) :
  length (Webinar.text_search scores_le query db) <= 10
  /\ (forall name, In name (Webinar.text_search scores_le query db) ->
                   exists p, In p (products db) /\ p_name p = name)
  /\ (length (products db) <= 10 ->
      Permutation (Webinar.text_search scores_le query db)
                  (map p_name (products db))).
Proof.
  unfold Webinar.text_search. split; [apply firstn_le_length |]. split.
  - intros name Hin. apply In_firstn in Hin.
    apply (Permutation_in _ (order_by_perm _ _)) in Hin.
    apply in_map_iff in Hin. destruct Hin as (p & Hp & Hin). eauto.
  - intro Hlen. rewrite firstn_all2; [apply order_by_perm |].
    rewrite (Permutation_length (order_by_perm _ _)), length_map. exact Hlen.
Qed.

Lemma text_search_returns_names_witness :
  Permutation (Webinar.text_search (fun _ a b => String.leb a b) "boots"
                                   three_products)
              (map p_name (products three_products)).
Proof.
  destruct (text_search_returns_names (fun _ a b => String.leb a b) "boots"
                                      three_products) as (_ & _ & Hall).
  apply Hall. simpl. lia.
Defined.

Lemma webinar_ingest_tables label now db :
  snd (Webinar.ingest_products label now db)
  = {| products := products db;
       langchain_embedding :=
         langchain_embedding db
         ++ map (fun p => mk_embedding label (p_name p) [] now) (products db) |}.
Proof.
  unfold Webinar.ingest_products, add_texts. simpl. f_equal. f_equal.
  rewrite !map_map.
  induction (products db) as [| p l IH]; simpl; [reflexivity |].
  now rewrite IH.
Qed.

Lemma webinar_ingest_repeated label now n db :
  products (Nat.iter n (fun d => snd (Webinar.ingest_products label now d)) db)
  = products db
  /\ length (langchain_embedding
               (Nat.iter n (fun d => snd (Webinar.ingest_products label now d)) db))
     = length (langchain_embedding db) + n * length (products db).
Proof.
  induction n as [| n [IHp IHl]]; [simpl; split; [reflexivity | lia] |].
  rewrite Nat.iter_succ, webinar_ingest_tables.
  cbn [products langchain_embedding]. split; [exact IHp |].
  rewrite length_app, length_map, IHp, IHl. lia.
Qed.

(** X12: the webinar's ingestion looks at no index entry: each call appends one
    entry per catalog row, holding the row's name and no metadata, whatever
    is indexed already. Calling it [n] times adds [n] entries per row. *)
Theorem webinar_ingest_appends_every_row
        (default_collection : string) (now : timestamp) (n : nat) (db : database) :
  langchain_embedding (snd (Webinar.ingest_products default_collection now db))
  = langchain_embedding db
    ++ map (fun p => mk_embedding default_collection (p_name p) [] now)
           (products db)
  /\ products (snd (Webinar.ingest_products default_collection now db))
     = products db
  /\ length (langchain_embedding
               (Nat.iter n (fun d => snd (Webinar.ingest_products
                                            default_collection now d)) db))
     = length (langchain_embedding db) + n * length (products db).
Proof.
  split; [| split].
  - now rewrite webinar_ingest_tables.
  - now rewrite webinar_ingest_tables.
  - apply webinar_ingest_repeated.
Qed.

(** X13: the webinar's semantic search returns at most ten texts, each the
    content of an entry of the store's collection; after one ingestion
    into an empty index, each of them is the name of a catalog row. *)
Theorem webinar_search_returns_names
        (default_collection : string)
        (nearest : string -> list embedding -> list embedding)
        (query : string) (now : timestamp) (db : database) :
  (forall q l, incl (nearest q l) l) ->
  length (Webinar.search_products default_collection nearest query db) <= 10
  /\ (forall text,
         In text (Webinar.search_products default_collection nearest query db) ->
         exists e, In e (langchain_embedding db)
                   /\ e_collection e = default_collection
                   /\ e_content e = text)
  /\ (langchain_embedding db = [] ->
      forall text,
        In text (Webinar.search_products
                   default_collection nearest query
                   (snd (Webinar.ingest_products default_collection now db))) ->
        exists p, In p (products db) /\ p_name p = text).
Proof.
  intro Hsub.
  assert (Hdoc : forall d text,
             In text (Webinar.search_products default_collection nearest query d) ->
             exists e, In e (langchain_embedding d)
                       /\ e_collection e = default_collection
                       /\ e_content e = text).
  { intros d text Hin. unfold Webinar.search_products, similarity_search in Hin.
    apply in_map_iff in Hin. destruct Hin as (e & He & Hin).
    apply In_firstn, Hsub, filter_In in Hin. destruct Hin as [Hin Hf].
    apply andb_true_iff in Hf. destruct Hf as [Hc _].
    exists e. split; [assumption |]. split; [| assumption].
    now apply String.eqb_eq. }
  split; [| split].
  - unfold Webinar.search_products, similarity_search.
    rewrite length_map. apply firstn_le_length.
  - apply Hdoc.
  - intros He text Hin. apply Hdoc in Hin.
    destruct Hin as (e & Hin & _ & Hc).
    rewrite webinar_ingest_tables in Hin. cbn [langchain_embedding] in Hin.
    rewrite He in Hin. simpl in Hin. apply in_map_iff in Hin.
    destruct Hin as (p & <- & Hp). exists p. auto.
Qed.

Lemma webinar_search_returns_names_witness :
  length (Webinar.search_products "langchain" (fun _ l => rev l) "boots"
                                  three_products) <= 10
  /\ forall text,
      In text (Webinar.search_products
                 "langchain" (fun _ l => rev l) "boots"
                 (snd (Webinar.ingest_products "langchain" 50%Z three_products))) ->
      exists p, In p (products three_products) /\ p_name p = text.
Proof.
  destruct (webinar_search_returns_names
              "langchain" (fun _ l => rev l) "boots" 50%Z three_products)
    as (Hlen & _ & Hnames).
  - intros q l x Hx. now apply in_rev.
  - split; [exact Hlen |]. apply Hnames. reflexivity.
Defined.

(** * frontend.py *)

(** ** Strings *)

Lemma string_length_append a b :
  String.length (a ++ b)%string = String.length a + String.length b.
Proof. induction a as [| c a IH]; simpl; [reflexivity | now rewrite IH]. Qed.

Lemma string_length_prefix n s :
  String.length (substring 0 n s) = Nat.min n (String.length s).
Proof.
  revert s. induction n as [| n IH]; intros [| c s]; simpl; try reflexivity.
  now rewrite IH.
Qed.

Lemma string_prefix_all n s :
  String.length s <= n -> substring 0 n s = s.
Proof.
  revert s. induction n as [| n IH]; intros [| c s]; simpl; intro H;
    try reflexivity; [lia |].
  rewrite IH by lia. reflexivity.
Qed.

Lemma string_prefix_append n s t :
  n <= String.length s -> substring 0 n (s ++ t)%string = substring 0 n s.
Proof.
  revert s. induction n as [| n IH]; intros [| c s]; simpl; intro H.
  - now destruct t.
  - reflexivity.
  - lia.
  - rewrite IH by lia. reflexivity.
Qed.

Lemma string_prefix_prefix n s :
  substring 0 n (substring 0 n s) = substring 0 n s.
Proof.
  apply string_prefix_all. rewrite string_length_prefix. apply Nat.le_min_l.
Qed.

(** ** The text of a card *)

Lemma card_description_short d :
  String.length d <= 150 -> Frontend.card_description d = d.
Proof.
  intro H. unfold Frontend.card_description.
  destruct (Nat.ltb_spec 150 (String.length d)); [lia | reflexivity].
Qed.

Lemma card_description_long d :
  150 < String.length d ->
  Frontend.card_description d = (substring 0 150 d ++ "...")%string.
Proof.
  intro H. unfold Frontend.card_description.
  destruct (Nat.ltb_spec 150 (String.length d)); [reflexivity | lia].
Qed.

(** X14: the text of a card is never longer than 153 characters; a description
    of at most 150 characters is shown as it is, a longer one as its first
    150 characters followed by three dots; either way the first 150
    characters are those of the description, and cutting a text that was
    already cut changes nothing. *)
Theorem card_description_bounded (description : string) :
  String.length (Frontend.card_description description) <= 153
  /\ (String.length description <= 150 ->
      Frontend.card_description description = description)
  /\ (150 < String.length description ->
      Frontend.card_description description
      = (substring 0 150 description ++ "...")%string
      /\ String.length (Frontend.card_description description) = 153)
  /\ substring 0 150 (Frontend.card_description description)
     = substring 0 150 description
  /\ Frontend.card_description (Frontend.card_description description)
     = Frontend.card_description description.
Proof.
  destruct (Nat.le_gt_cases (String.length description) 150) as [Hshort | Hlong].
  - rewrite !(card_description_short description Hshort).
    split; [lia |]. split; [reflexivity |]. split; [lia |].
    split; reflexivity.
  - rewrite !(card_description_long description Hlong).
    assert (Hlen : String.length (substring 0 150 description) = 150)
      by (rewrite string_length_prefix; lia).
    assert (Hcut : String.length (substring 0 150 description ++ "...")%string = 153)
      by (rewrite string_length_append, Hlen; reflexivity).
    assert (Hpre : substring 0 150 (substring 0 150 description ++ "...")%string
                   = substring 0 150 description).
    { rewrite string_prefix_append by lia. apply string_prefix_prefix. }
    split; [lia |]. split; [lia |]. split; [auto |]. split; [exact Hpre |].
    rewrite card_description_long by lia. now rewrite Hpre.
Qed.

(** ** [str.strip] *)

Lemma lstrip_spaces s :
  string_forallb Frontend.isspace s = true -> Frontend.lstrip s = EmptyString.
Proof.
  induction s as [| c s IH]; simpl; [reflexivity |].
  intro H. apply andb_true_iff in H. destruct H as [Hc Hs].
  rewrite Hc. now apply IH.
Qed.

Lemma lstrip_empty s :
  Frontend.lstrip s = EmptyString -> string_forallb Frontend.isspace s = true.
Proof.
  induction s as [| c s IH]; simpl; [reflexivity |].
  destruct (Frontend.isspace c); [| discriminate]. intro H. now rewrite IH.
Qed.

Lemma rstrip_empty s :
  Frontend.rstrip s = EmptyString -> string_forallb Frontend.isspace s = true.
Proof.
  induction s as [| c s IH]; simpl; [reflexivity |].
  destruct (Frontend.rstrip s) eqn:E; [| discriminate].
  destruct (Frontend.isspace c); [| discriminate].
  intros _. now rewrite IH.
Qed.

Lemma lstrip_first s c :
  Frontend.first_char (Frontend.lstrip s) = Some c -> Frontend.isspace c = false.
Proof.
  induction s as [| a s IH]; simpl; [discriminate |].
  destruct (Frontend.isspace a) eqn:E; [exact IH |].
  simpl. intro H. injection H as <-. exact E.
Qed.

(** Stripping on the right leaves the first character in place. *)
Lemma rstrip_first s c :
  Frontend.first_char (Frontend.rstrip s) = Some c ->
  Frontend.first_char s = Some c.
Proof.
  destruct s as [| a s]; simpl; [discriminate |].
  destruct (Frontend.rstrip s); [destruct (Frontend.isspace a) |]; simpl;
    congruence.
Qed.

Lemma rstrip_last s c :
  Frontend.last_char (Frontend.rstrip s) = Some c -> Frontend.isspace c = false.
Proof.
  induction s as [| a s IH]; simpl; [discriminate |].
  destruct (Frontend.rstrip s) as [| b r] eqn:E.
  - destruct (Frontend.isspace a) eqn:Ea; simpl; [discriminate |].
    intro H. injection H as <-. exact Ea.
  - intro H. apply IH. exact H.
Qed.

Lemma rstrip_idem s : Frontend.rstrip (Frontend.rstrip s) = Frontend.rstrip s.
Proof.
  induction s as [| a s IH]; simpl; [reflexivity |].
  destruct (Frontend.rstrip s) as [| b r] eqn:E.
  - destruct (Frontend.isspace a) eqn:Ea; simpl; [reflexivity |].
    now rewrite Ea.
  - simpl. simpl in IH. now rewrite IH.
Qed.

Lemma lstrip_fixed s :
  (forall c, Frontend.first_char s = Some c -> Frontend.isspace c = false) ->
  Frontend.lstrip s = s.
Proof.
  destruct s as [| a s]; simpl; intro H; [reflexivity |].
  now rewrite (H a eq_refl).
Qed.

Lemma strip_empty_iff s :
  Frontend.strip s = EmptyString <-> string_forallb Frontend.isspace s = true.
Proof.
  unfold Frontend.strip. split.
  - intro H. apply rstrip_empty in H.
    destruct (Frontend.lstrip s) as [| c r] eqn:E.
    + now apply lstrip_empty.
    + simpl in H. apply andb_true_iff in H.
      rewrite (lstrip_first s c) in H by (rewrite E; reflexivity).
      destruct H. discriminate.
  - intro H. now rewrite lstrip_spaces.
Qed.

Lemma strip_first s c :
  Frontend.first_char (Frontend.strip s) = Some c -> Frontend.isspace c = false.
Proof.
  unfold Frontend.strip. intro H. apply rstrip_first in H.
  now apply lstrip_first in H.
Qed.

Lemma strip_idem s : Frontend.strip (Frontend.strip s) = Frontend.strip s.
Proof.
  unfold Frontend.strip at 1. rewrite lstrip_fixed.
  - unfold Frontend.strip. apply rstrip_idem.
  - apply strip_first.
Qed.

(** ** [perform_search] *)

Lemma truncate_str s :
  Frontend.truncate (Frontend.PyStr s)
  = Some (Frontend.PyStr (Frontend.card_description s)).
Proof. reflexivity. Qed.

Lemma length_list_ascii_of_string s :
  length (list_ascii_of_string s) = String.length s.
Proof. induction s as [| c s IH]; simpl; congruence. Qed.

(** [len] counts what [iter] goes through. *)
Lemma iter_len v products :
  Frontend.iter v = Some products -> Frontend.len v = Some (length products).
Proof.
  destruct v; simpl; try discriminate; intro H; injection H as <-.
  - now rewrite length_map, length_list_ascii_of_string.
  - reflexivity.
  - now rewrite length_map.
Qed.

Lemma iter_truthy v first rest :
  Frontend.iter v = Some (first :: rest) -> Frontend.truthy v = true.
Proof.
  destruct v as [| | | | s | items | d]; simpl; try discriminate.
  - destruct s; [discriminate | reflexivity].
  - destruct items; [discriminate | reflexivity].
  - destruct d as [| [k x] d]; [discriminate | reflexivity].
Qed.

Lemma iter_not_none v products :
  Frontend.iter v = Some products -> v <> Frontend.PyNone.
Proof. intros H E. subst v. discriminate. Qed.

Section PerformSearch.

Variable DEMO_API_KEY : string.
Variable backend : Frontend.request -> Frontend.http_outcome.
Variable icons : nat -> string.

Lemma create_product_card_ok icon product :
  renderable product ->
  card_shows product (fst (Frontend.create_product_card icon product))
  /\ snd (Frontend.create_product_card icon product) = true.
Proof.
  intros (d & text & -> & Htext). unfold Frontend.create_product_card.
  rewrite Htext. split; [| reflexivity].
  exists icon, d, text. auto.
Qed.

Lemma create_product_card_raises icon product :
  ~ renderable product ->
  unfinished product (fst (Frontend.create_product_card icon product))
  /\ snd (Frontend.create_product_card icon product) = false.
Proof.
  intro Hno. unfold Frontend.create_product_card.
  destruct product as [| b | n | x | s | items | d];
    try (split; [left; exists icon; split; [discriminate | reflexivity]
                | reflexivity]).
  destruct (Frontend.truncate
              (Frontend.get "description"
                            (Frontend.PyStr "No description available") d))
    as [text |] eqn:Htext.
  - exfalso. apply Hno. exists d, text. auto.
  - split; [| reflexivity]. right. exists icon, d. auto.
Qed.

Lemma render_cards_ok i products :
  Forall renderable products ->
  exists cards,
    Frontend.render_cards icons i products = (cards, true)
    /\ Forall2 card_shows products cards.
Proof.
  intro H. revert i. induction H as [| product rest Hp _ IH]; intro i.
  - exists []. split; [reflexivity | constructor].
  - destruct (IH (S i)) as (cards & Hcards & Hall).
    destruct (create_product_card_ok (icons i) product Hp) as (Hshow & Hok).
    cbn [Frontend.render_cards].
    destruct (Frontend.create_product_card (icons i) product) as [c ok].
    cbn [fst snd] in Hshow, Hok. subst ok. rewrite Hcards.
    exists (c :: cards). split; [reflexivity | now constructor].
Qed.

(** The loop stops at the first product whose card raises, and leaves
    that card as far as it got. *)
Lemma render_cards_raises i good bad rest :
  Forall renderable good ->
  ~ renderable bad ->
  exists cards c,
    Frontend.render_cards icons i (good ++ bad :: rest) = (cards ++ [c], false)
    /\ Forall2 card_shows good cards
    /\ unfinished bad c.
Proof.
  intros Hgood Hbad. revert i.
  induction Hgood as [| product good Hp _ IH]; intro i.
  - destruct (create_product_card_raises (icons i) bad Hbad) as (Hc & Hok).
    cbn [app Frontend.render_cards].
    destruct (Frontend.create_product_card (icons i) bad) as [c ok].
    cbn [fst snd] in Hc, Hok. subst ok.
    exists [], c. split; [reflexivity |]. split; [constructor | exact Hc].
  - destruct (IH (S i)) as (cards & c & Hcards & Hall & Hc).
    destruct (create_product_card_ok (icons i) product Hp) as (Hshow & Hok).
    cbn [app Frontend.render_cards].
    destruct (Frontend.create_product_card (icons i) product) as [c0 ok].
    cbn [fst snd] in Hshow, Hok. subst ok. rewrite Hcards.
    exists (c0 :: cards), c. split; [reflexivity |].
    split; [now constructor | exact Hc].
Qed.

Lemma perform_search_blank value category pg :
  Frontend.strip value = EmptyString ->
  Frontend.perform_search DEMO_API_KEY backend icons value category pg
  = (Frontend.mk_page
       (Frontend.results_container pg)
       (Frontend.notifications pg
        ++ [Frontend.Notify "Please enter a search query" "warning"])
       (Frontend.requests pg) (Frontend.current_search pg)
       (Frontend.current_category pg) (Frontend.search_results pg), true).
Proof. intro H. unfold Frontend.perform_search. now rewrite H. Qed.

(** What [perform_search] does with the value [search_products] returned. *)
Lemma perform_search_returned value category pg results notes :
  Frontend.strip value <> EmptyString ->
  Frontend.search_products DEMO_API_KEY backend (Frontend.strip value) category 10
  = (results, notes) ->
  let sent :=
    Frontend.requests pg
    ++ [Frontend.mk_request DEMO_API_KEY (Frontend.strip value) category 10] in
  let shown :=
    Frontend.perform_search DEMO_API_KEY backend icons value category pg in
  let drawn container remembered :=
    Frontend.mk_page container (Frontend.notifications pg ++ notes) sent
                     (Some (Frontend.strip value)) category remembered in
  (results = Frontend.PyNone ->
   shown = (drawn [failed_label] (Frontend.search_results pg), true))
  /\ (results <> Frontend.PyNone -> Frontend.truthy results = false ->
      shown = (drawn [nothing_found_label] (Frontend.search_results pg), true))
  /\ (Frontend.truthy results = true -> Frontend.len results = None ->
      shown = (drawn [Frontend.Row []] (Some results), false))
  /\ (forall first rest,
         Frontend.iter results = Some (first :: rest) ->
         shown
         = (drawn [results_header (S (length rest));
                   Frontend.Grid
                     (fst (Frontend.render_cards icons 0 (first :: rest)))]
                  (Some results),
            snd (Frontend.render_cards icons 0 (first :: rest)))).
Proof.
  intros Hne Hsearch. cbv zeta. unfold Frontend.perform_search.
  destruct (String.eqb_spec (Frontend.strip value) "") as [E | _];
    [contradiction |].
  rewrite Hsearch. split; [| split; [| split]].
  - intros ->. reflexivity.
  - intros Hnone Hfalse.
    destruct results; try contradiction; now rewrite Hfalse.
  - intros Htrue Hlen.
    destruct results; try discriminate; rewrite Htrue; reflexivity.
  - intros first rest Hiter.
    pose proof (iter_truthy _ _ _ Hiter) as Htrue.
    pose proof (iter_len _ _ Hiter) as Hlen.
    destruct (Frontend.render_cards icons 0 (first :: rest)) as [cards ok] eqn:Hr.
    cbn [fst snd length] in *.
    destruct results; try discriminate;
      rewrite Htrue, Hlen, Hiter; cbn [negb]; rewrite Hr; reflexivity.
Qed.

Lemma perform_search_sends value category pg :
  Frontend.strip value <> EmptyString ->
  let pg' := fst (Frontend.perform_search DEMO_API_KEY backend icons
                                          value category pg) in
  Frontend.requests pg'
  = Frontend.requests pg
    ++ [Frontend.mk_request DEMO_API_KEY (Frontend.strip value) category 10]
  /\ Frontend.current_search pg' = Some (Frontend.strip value)
  /\ Frontend.current_category pg' = category.
Proof.
  intro H. cbv zeta.
  destruct (Frontend.search_products DEMO_API_KEY backend
                                     (Frontend.strip value) category 10)
    as [results notes] eqn:Hsearch.
  destruct (perform_search_returned value category pg results notes H Hsearch)
    as (Hnone & Hfalse & Hraise & Hiter).
  destruct (Frontend.truthy results) eqn:Htrue.
  - destruct (Frontend.iter results) as [[| first rest] |] eqn:Hit.
    + (* a true value that goes through nothing: there is none *)
      destruct results as [| | | | s | items | d]; simpl in Htrue, Hit;
        try discriminate.
      * destruct s; discriminate.
      * destruct items; discriminate.
      * destruct d as [| [k x] d]; discriminate.
    + rewrite (Hiter first rest eq_refl). cbn. auto.
    + assert (Hlen : Frontend.len results = None)
        by (destruct results; simpl in Hit |- *; try discriminate; reflexivity).
      rewrite (Hraise eq_refl Hlen). cbn. auto.
  - destruct results;
      try (rewrite (Hfalse ltac:(discriminate) eq_refl); cbn; auto).
    rewrite (Hnone eq_refl). cbn. auto.
Qed.

End PerformSearch.

(** X15: a query made of whitespace only never leaves the page: no request is
    sent, the results shown stay as they are, and the one effect is the
    warning "Please enter a search query". *)
Theorem blank_query_sends_nothing
        (DEMO_API_KEY : string)
        (backend : Frontend.request -> Frontend.http_outcome)
        (icons : nat -> string) (value category : string) (pg : Frontend.page) :
  string_forallb Frontend.isspace value = true ->
  Frontend.perform_search DEMO_API_KEY backend icons value category pg
  = (Frontend.mk_page
       (Frontend.results_container pg)
       (Frontend.notifications pg
        ++ [Frontend.Notify "Please enter a search query" "warning"])
       (Frontend.requests pg) (Frontend.current_search pg)
       (Frontend.current_category pg) (Frontend.search_results pg), true).
Proof.
  intro H. apply perform_search_blank. now apply strip_empty_iff.
Qed.

Lemma blank_query_sends_nothing_witness :
  Frontend.requests
    (fst (Frontend.perform_search
            "demo-key-123" (fun _ => Frontend.Failed) (fun _ => "*")
            (String "009"%char " ") "Footwear"
            (Frontend.mk_page [] [] [] None "Camping Gear" None)))
  = [].
Proof.
  rewrite (blank_query_sends_nothing
             "demo-key-123" (fun _ => Frontend.Failed) (fun _ => "*")
             (String "009"%char " ") "Footwear"
             (Frontend.mk_page [] [] [] None "Camping Gear" None));
    reflexivity.
Defined.

(** X16: a query with a character that is not whitespace sends exactly one
    request: for the selected category, with k = 10 and the configured key,
    and with the query stripped, which is then not empty, neither starts
    nor ends with whitespace, and would not change if stripped again. *)
Theorem search_sends_stripped_query
        (DEMO_API_KEY : string)
        (backend : Frontend.request -> Frontend.http_outcome)
        (icons : nat -> string) (value category : string) (pg : Frontend.page) :
  string_forallb Frontend.isspace value = false ->
  Frontend.requests
    (fst (Frontend.perform_search DEMO_API_KEY backend icons value category pg))
  = Frontend.requests pg
    ++ [Frontend.mk_request DEMO_API_KEY (Frontend.strip value) category 10]
  /\ Frontend.current_search
       (fst (Frontend.perform_search DEMO_API_KEY backend icons value category pg))
     = Some (Frontend.strip value)
  /\ Frontend.strip value <> EmptyString
  /\ (forall c, Frontend.first_char (Frontend.strip value) = Some c ->
                Frontend.isspace c = false)
  /\ (forall c, Frontend.last_char (Frontend.strip value) = Some c ->
                Frontend.isspace c = false)
  /\ Frontend.strip (Frontend.strip value) = Frontend.strip value.
Proof.
  intro H.
  assert (Hne : Frontend.strip value <> EmptyString).
  { intro E. apply strip_empty_iff in E. congruence. }
  destruct (perform_search_sends DEMO_API_KEY backend icons value category pg Hne)
    as (Hreq & Hcur & _).
  split; [exact Hreq |]. split; [exact Hcur |]. split; [exact Hne |].
  split; [apply strip_first |]. split; [| apply strip_idem].
  intros c Hc. unfold Frontend.strip in Hc. now apply rstrip_last in Hc.
Qed.

Lemma search_sends_stripped_query_witness :
  Frontend.requests
    (fst (Frontend.perform_search
            "demo-key-123" (fun _ => Frontend.Failed) (fun _ => "*")
            "  warm boots " "Footwear"
            (Frontend.mk_page [] [] [] None "Camping Gear" None)))
  = [Frontend.mk_request "demo-key-123" "warm boots" "Footwear" 10].
Proof.
  destruct (search_sends_stripped_query
              "demo-key-123" (fun _ => Frontend.Failed) (fun _ => "*")
              "  warm boots " "Footwear"
              (Frontend.mk_page [] [] [] None "Camping Gear" None))
    as (Hreq & _); [reflexivity |].
  exact Hreq.
Defined.

(** X17: what the page shows once a search is over, the query not being
    blank, case by case on what the client got. [results] stands for
    [data.get("results", [])], [data] being a 200 response's JSON object.
    - [results] a list of products whose cards can all be built: the
      header "Found n products" and a grid of one finished card per
      product, in order; no notification; the results are remembered.
    - [results] false but not null (an empty list, no "results" key, an
      empty string, a zero): the single label "No products found matching
      your search."; no notification.
    - [results] null: the single label "Search failed. Please try again.",
      and no notification.
    - another status than 200, a 200 body that is not a JSON object, a
      timeout, another exception: the same label and exactly one
      notification, of kind "negative", whose message is told by the case.
    - [results] true without a length (a number, [true]): the function
      raises with the header row open and empty.
    - [results] a list with a product whose card cannot be built: the
      header, the finished cards of the products before the first such
      product and what is left of its card; the function raises there.
    - [results] a string or an object that is not empty: the header, and
      the image of a first card; the function raises there.
    In the last three cases the results are remembered, and nothing is
    notified; in the cases before them the remembered results stay. *)
Theorem search_outcome_shown
        (DEMO_API_KEY : string)
        (backend : Frontend.request -> Frontend.http_outcome)
        (icons : nat -> string) (value category : string) (pg : Frontend.page) :
  string_forallb Frontend.isspace value = false ->
  let outcome :=
    backend (Frontend.mk_request DEMO_API_KEY (Frontend.strip value) category 10) in
  let shown :=
    Frontend.perform_search DEMO_API_KEY backend icons value category pg in
  let results_of data := Frontend.get "results" (Frontend.PyList []) data in
  let quiet :=
    Frontend.notifications (fst shown) = Frontend.notifications pg in
  let kept :=
    Frontend.search_results (fst shown) = Frontend.search_results pg in
  (forall data results,
      outcome = Frontend.Responded 200 (Some (Frontend.PyDict data)) ->
      results_of data = Frontend.PyList results ->
      results <> [] ->
      Forall renderable results ->
      exists cards,
        Frontend.results_container (fst shown)
        = [results_header (length results); Frontend.Grid cards]
        /\ Forall2 card_shows results cards
        /\ snd shown = true
        /\ quiet
        /\ Frontend.search_results (fst shown) = Some (Frontend.PyList results))
  /\ (forall data,
         outcome = Frontend.Responded 200 (Some (Frontend.PyDict data)) ->
         results_of data <> Frontend.PyNone ->
         Frontend.truthy (results_of data) = false ->
         Frontend.results_container (fst shown) = [nothing_found_label]
         /\ snd shown = true /\ quiet /\ kept)
  /\ (forall data,
         outcome = Frontend.Responded 200 (Some (Frontend.PyDict data)) ->
         results_of data = Frontend.PyNone ->
         Frontend.results_container (fst shown) = [failed_label]
         /\ snd shown = true /\ quiet /\ kept)
  /\ (forall message,
         (exists status_code body,
             outcome = Frontend.Responded status_code body
             /\ status_code <> 200
             /\ message
                = ("Search failed: " ++ Frontend.decimal status_code)%string)
         \/ (exists body,
                outcome = Frontend.Responded 200 body
                /\ (forall data, body <> Some (Frontend.PyDict data))
                /\ message = "An error occurred during search")
         \/ (outcome = Frontend.TimedOut
             /\ message = "Search timed out. Please try again.")
         \/ (outcome = Frontend.Failed
             /\ message = "An error occurred during search") ->
         Frontend.results_container (fst shown) = [failed_label]
         /\ snd shown = true
         /\ Frontend.notifications (fst shown)
            = Frontend.notifications pg ++ [Frontend.Notify message "negative"]
         /\ kept)
  /\ (forall data,
         outcome = Frontend.Responded 200 (Some (Frontend.PyDict data)) ->
         Frontend.truthy (results_of data) = true ->
         Frontend.len (results_of data) = None ->
         Frontend.results_container (fst shown) = [Frontend.Row []]
         /\ snd shown = false
         /\ quiet
         /\ Frontend.search_results (fst shown) = Some (results_of data))
  /\ (forall data good bad rest,
         outcome = Frontend.Responded 200 (Some (Frontend.PyDict data)) ->
         results_of data = Frontend.PyList (good ++ bad :: rest) ->
         Forall renderable good ->
         ~ renderable bad ->
         exists cards c,
           Frontend.results_container (fst shown)
           = [results_header (length (good ++ bad :: rest));
              Frontend.Grid (cards ++ [c])]
           /\ Forall2 card_shows good cards
           /\ unfinished bad c
           /\ snd shown = false
           /\ quiet
           /\ Frontend.search_results (fst shown) = Some (results_of data))
  /\ (forall data n,
         outcome = Frontend.Responded 200 (Some (Frontend.PyDict data)) ->
         (exists s, results_of data = Frontend.PyStr s)
         \/ (exists d, results_of data = Frontend.PyDict d) ->
         Frontend.truthy (results_of data) = true ->
         Frontend.len (results_of data) = Some n ->
         Frontend.results_container (fst shown)
         = [results_header n; Frontend.Grid [card_without_name (icons 0)]]
         /\ snd shown = false
         /\ quiet
         /\ Frontend.search_results (fst shown) = Some (results_of data)).
Proof.
  intro H. cbv zeta.
  assert (Hne : Frontend.strip value <> EmptyString).
  { intro E. apply strip_empty_iff in E. congruence. }
  assert (Hdict : forall data,
             backend (Frontend.mk_request DEMO_API_KEY (Frontend.strip value)
                                          category 10)
             = Frontend.Responded 200 (Some (Frontend.PyDict data)) ->
             Frontend.search_products DEMO_API_KEY backend
                                      (Frontend.strip value) category 10
             = (Frontend.get "results" (Frontend.PyList []) data, [])).
  { intros data Hout. unfold Frontend.search_products. now rewrite Hout. }
  split; [| split; [| split; [| split; [| split; [| split]]]]].
  - intros data results Hout Hres Hsome Hall.
    destruct (perform_search_returned DEMO_API_KEY backend icons value category
                pg _ _ Hne (Hdict data Hout)) as (_ & _ & _ & Hiter).
    rewrite Hres in Hiter.
    destruct results as [| first rest]; [contradiction |].
    rewrite (Hiter first rest eq_refl).
    destruct (render_cards_ok icons 0 (first :: rest) Hall)
      as (cards & Hcards & Hshow).
    rewrite Hcards. exists cards. cbn. rewrite app_nil_r. auto.
  - intros data Hout Hnone Hfalse.
    destruct (perform_search_returned DEMO_API_KEY backend icons value category
                pg _ _ Hne (Hdict data Hout)) as (_ & Hnothing & _).
    rewrite (Hnothing Hnone Hfalse). cbn. rewrite app_nil_r. auto.
  - intros data Hout Hnull.
    destruct (perform_search_returned DEMO_API_KEY backend icons value category
                pg _ _ Hne (Hdict data Hout)) as (Hfailed & _).
    rewrite (Hfailed Hnull). cbn. rewrite app_nil_r. auto.
  - intros message Hcase.
    assert (Hsearch : Frontend.search_products DEMO_API_KEY backend
                                               (Frontend.strip value) category 10
                      = (Frontend.PyNone, [Frontend.Notify message "negative"])).
    { unfold Frontend.search_products.
      destruct Hcase as [(status_code & body & Hout & Hstatus & ->)
                        | [(body & Hout & Hbody & ->)
                          | [(Hout & ->) | (Hout & ->)]]];
        rewrite Hout; try reflexivity.
      - destruct (Nat.eqb_spec status_code 200) as [E | _];
          [contradiction | reflexivity].
      - cbn [Nat.eqb].
        destruct body as [[| | | | | | data] |]; try reflexivity.
        now contradiction (Hbody data). }
    destruct (perform_search_returned DEMO_API_KEY backend icons value category
                pg _ _ Hne Hsearch) as (Hfailed & _).
    rewrite (Hfailed eq_refl). cbn. auto.
  - intros data Hout Htrue Hlen.
    destruct (perform_search_returned DEMO_API_KEY backend icons value category
                pg _ _ Hne (Hdict data Hout)) as (_ & _ & Hraise & _).
    rewrite (Hraise Htrue Hlen). cbn. rewrite app_nil_r. auto.
  - intros data good bad rest Hout Hres Hgood Hbad.
    destruct (perform_search_returned DEMO_API_KEY backend icons value category
                pg _ _ Hne (Hdict data Hout)) as (_ & _ & _ & Hiter).
    destruct (render_cards_raises icons 0 good bad rest Hgood Hbad)
      as (cards & c & Hcards & Hshow & Hc).
    exists cards, c.
    destruct (good ++ bad :: rest) as [| first others] eqn:Hlist.
    { destruct good; discriminate. }
    rewrite (Hiter first others) by now rewrite Hres.
    rewrite Hcards. cbn. rewrite app_nil_r. auto 10.
  - intros data n Hout Hkind Htrue Hlen.
    destruct (perform_search_returned DEMO_API_KEY backend icons value category
                pg _ _ Hne (Hdict data Hout)) as (_ & _ & _ & Hiter).
    assert (Hfirst : exists s rest,
               Frontend.iter (Frontend.get "results" (Frontend.PyList []) data)
               = Some (Frontend.PyStr s :: rest)).
    { destruct Hkind as [(s & Hs) | (d & Hd)].
      - rewrite Hs in Htrue |- *. destruct s as [| c s]; [discriminate |].
        cbn. eauto.
      - rewrite Hd in Htrue |- *. destruct d as [| [k x] d]; [discriminate |].
        cbn. eauto. }
    destruct Hfirst as (s & rest & Hit).
    pose proof (iter_len _ _ Hit) as Hlen'. rewrite Hlen in Hlen'.
    injection Hlen' as ->.
    rewrite (Hiter _ _ Hit). cbn. rewrite app_nil_r. auto.
Qed.

Lemma search_outcome_shown_witness :
  Frontend.results_container
    (fst (Frontend.perform_search
            "demo-key-123" (fun _ => Frontend.TimedOut) (fun _ => "*")
            "boots" "Footwear"
            (Frontend.mk_page [] [] [] None "Camping Gear" None)))
  = [failed_label].
Proof.
  destruct (search_outcome_shown
              "demo-key-123" (fun _ => Frontend.TimedOut) (fun _ => "*")
              "boots" "Footwear"
              (Frontend.mk_page [] [] [] None "Camping Gear" None))
    as (_ & _ & _ & Hfail & _); [reflexivity |].
  destruct (Hfail "Search timed out. Please try again.") as (Hshown & _);
    [| exact Hshown].
  right. right. left. split; reflexivity.
Defined.

(** ** The frontend against the backend *)

Lemma similarity_search_In nearest label query k flt db doc :
  (forall q l, incl (nearest q l) l) ->
  In doc (similarity_search nearest label query k flt db) ->
  In doc (langchain_embedding db)
  /\ e_collection doc = label
  /\ metadata_matches flt doc = true.
Proof.
  intros Hsub Hin. unfold similarity_search in Hin.
  apply In_firstn, Hsub, filter_In in Hin. destruct Hin as [Hin Hf].
  apply andb_true_iff in Hf. destruct Hf as [Hc Hm].
  split; [assumption |]. split; [now apply String.eqb_eq | assumption].
Qed.

Lemma json_result_shows icon r :
  Frontend.create_product_card icon (Frontend.json_result r)
  = (product_card icon (Frontend.json_value (r_name r))
                  (Frontend.PyStr (Frontend.card_description (r_description r))),
     true).
Proof. reflexivity. Qed.

Lemma render_json_results icons i results :
  Frontend.render_cards icons i (map Frontend.json_result results)
  = (map (fun ir => product_card
                      (icons (fst ir))
                      (Frontend.json_value (r_name (snd ir)))
                      (Frontend.PyStr
                         (Frontend.card_description (r_description (snd ir)))))
         (combine (seq i (length results)) results),
     true).
Proof.
  revert i. induction results as [| r results IH]; intro i; [reflexivity |].
  cbn [map Frontend.render_cards length seq combine fst snd].
  rewrite json_result_shows, IH. reflexivity.
Qed.

(** What the frontend's [search_products] returns in front of the backend,
    by what the backend's dependencies do with the header. *)
Lemma frontend_search_accepted release wire answers nearest KEY key
      query category k db :
  depends_verify_api_key release KEY (wire key) = None ->
  answers query = true ->
  Frontend.search_products key (served_by release wire answers nearest KEY db)
                           query category k
  = (Frontend.PyList (map Frontend.json_result
                          (search_products nearest query category k db)), []).
Proof.
  intros Hpass Hanswers.
  unfold Frontend.search_products, served_by, search_products_endpoint.
  cbn [Frontend.req_api_key Frontend.req_search_query Frontend.req_category
       Frontend.req_k].
  rewrite Hpass, Hanswers. reflexivity.
Qed.

Lemma frontend_search_rejected release wire answers nearest KEY key
      query category k db status_code detail :
  depends_verify_api_key release KEY (wire key)
  = Some (HTTPException status_code detail) ->
  status_code <> 200 ->
  Frontend.search_products key (served_by release wire answers nearest KEY db)
                           query category k
  = (Frontend.PyNone,
     [Frontend.Notify ("Search failed: " ++ Frontend.decimal status_code)%string
                      "negative"]).
Proof.
  intros Hreject Hstatus.
  unfold Frontend.search_products, served_by, search_products_endpoint.
  cbn [Frontend.req_api_key Frontend.req_search_query Frontend.req_category
       Frontend.req_k].
  rewrite Hreject.
  destruct (Nat.eqb_spec status_code 200) as [E | _];
    [contradiction | reflexivity].
Qed.

(** X18: the frontend in front of the backend. The key is the same on both
    sides and not empty, the header reaches the backend as the client set
    it, the store answers, and the query is not blank. Then the search
    never shows as failed and notifies nothing: the page shows either "No
    products found matching your search." or the header "Found n products"
    with a grid of n finished cards, n between 1 and 10; each card shows
    the name and the text, cut to the card's length, of an entry of the
    backend's collection whose category is the selected one. *)
Theorem frontend_shows_backend_results
        (release : framework_release) (wire : string -> option string)
        (answers : string -> bool)
        (nearest : string -> list embedding -> list embedding)
        (API_KEY : string) (icons : nat -> string)
        (value category : string) (pg : Frontend.page) (db : database) :
  (forall q l, incl (nearest q l) l) ->
  string_forallb Frontend.isspace value = false ->
  API_KEY <> "" ->
  wire API_KEY = Some API_KEY ->
  answers (Frontend.strip value) = true ->
  let shown :=
    Frontend.perform_search API_KEY
                            (served_by release wire answers nearest API_KEY db)
                            icons value category pg in
  snd shown = true
  /\ Frontend.notifications (fst shown) = Frontend.notifications pg
  /\ (Frontend.results_container (fst shown) = [nothing_found_label]
      \/ exists cards,
          Frontend.results_container (fst shown)
          = [results_header (length cards); Frontend.Grid cards]
          /\ 1 <= length cards <= 10
          /\ Forall (fun c =>
                       exists icon e,
                         In e (langchain_embedding db)
                         /\ e_collection e = COLLECTION_NAME
                         /\ json_get "category" (e_metadata e)
                            = Some (JString category)
                         /\ c = product_card
                                  icon
                                  (Frontend.json_value
                                     (json_get "name" (e_metadata e)))
                                  (Frontend.PyStr
                                     (Frontend.card_description (e_content e))))
                    cards).
Proof.
  intros Hsub Hvalue Hkey Hwire Hanswers. cbv zeta.
  assert (Hne : Frontend.strip value <> EmptyString).
  { intro E. apply strip_empty_iff in E. congruence. }
  assert (Hpass : depends_verify_api_key release API_KEY (wire API_KEY) = None).
  { rewrite Hwire. now apply depends_verify_api_key_accepts. }
  pose proof (frontend_search_accepted release wire answers nearest API_KEY
                API_KEY (Frontend.strip value) category 10 db Hpass Hanswers)
    as Hsearch.
  destruct (perform_search_returned
              API_KEY (served_by release wire answers nearest API_KEY db)
              icons value category pg _ _ Hne Hsearch)
    as (_ & Hnothing & _ & Hiter).
  set (results := search_products nearest (Frontend.strip value) category 10 db)
    in *.
  assert (Hlen : length results <= 10).
  { unfold results, search_products, similarity_search.
    rewrite length_map. apply firstn_le_length. }
  assert (Hres : forall r, In r results ->
                           exists e, In e (langchain_embedding db)
                                     /\ e_collection e = COLLECTION_NAME
                                     /\ json_get "category" (e_metadata e)
                                        = Some (JString category)
                                     /\ r = project e).
  { intros r Hr. unfold results, search_products in Hr.
    apply in_map_iff in Hr. destruct Hr as (doc & <- & Hdoc).
    destruct (similarity_search_In _ _ _ _ _ _ _ Hsub Hdoc) as (H1 & H2 & H3).
    exists doc. split; [assumption |]. split; [assumption |].
    split; [now apply metadata_matches_category | reflexivity]. }
  destruct results as [| r rs] eqn:Hresults.
  - rewrite (Hnothing ltac:(discriminate) eq_refl). cbn.
    rewrite app_nil_r. auto.
  - rewrite (Hiter (Frontend.json_result r) (map Frontend.json_result rs) eq_refl).
    change (Frontend.json_result r :: map Frontend.json_result rs)
      with (map Frontend.json_result (r :: rs)).
    rewrite render_json_results.
    cbn [fst snd Frontend.results_container Frontend.notifications].
    rewrite app_nil_r. split; [reflexivity |]. split; [reflexivity |].
    right.
    match goal with |- context [Frontend.Grid ?c] => set (cards := c) end.
    assert (Hcards : length cards = S (length rs)).
    { unfold cards. rewrite length_map, length_combine, length_seq.
      apply Nat.min_id. }
    exists cards. split; [| split].
    + now rewrite length_map, Hcards.
    + rewrite Hcards. cbn [length] in Hlen. lia.
    + apply Forall_forall. unfold cards. intros c Hc. apply in_map_iff in Hc.
      destruct Hc as ([i x] & <- & Hix). apply in_combine_r in Hix.
      destruct (Hres x Hix) as (e & H1 & H2 & H3 & ->).
      exists (icons i), e. cbn [fst snd project r_name r_description]. auto.
Qed.

Lemma frontend_shows_backend_results_witness :
  Frontend.notifications
    (fst (Frontend.perform_search
            "demo-key-123"
            (served_by Refuses401 Some (fun _ => true) (fun _ l => rev l)
                       "demo-key-123" two_categories)
            (fun _ => "*") " boots" "Footwear"
            (Frontend.mk_page [] [] [] None "Camping Gear" None)))
  = [].
Proof.
  destruct (frontend_shows_backend_results
              Refuses401 Some (fun _ => true)
              (fun _ l => rev l) "demo-key-123" (fun _ => "*")
              " boots" "Footwear"
              (Frontend.mk_page [] [] [] None "Camping Gear" None)
              two_categories)
    as (_ & Hnotes & _).
  - intros q l x Hx. now apply in_rev.
  - reflexivity.
  - discriminate.
  - reflexivity.
  - reflexivity.
  - exact Hnotes.
Defined.

(** X19: the frontend in front of a backend that does not accept its key:
    the header the backend reads is missing, empty, or not the backend's
    key, or the backend's key is empty. Every search with a query that is
    not blank then shows as failed: the page shows the single label
    "Search failed. Please try again." and the one notification "Search
    failed: " followed by the status, which is 401 for a header that is
    not empty and the framework's status for a request without
    credentials otherwise; the remembered results stay, whatever the index
    holds. *)
Theorem frontend_with_wrong_key
        (release : framework_release) (wire : string -> option string)
        (answers : string -> bool)
        (nearest : string -> list embedding -> list embedding)
        (BACKEND_API_KEY DEMO_API_KEY : string) (icons : nat -> string)
        (value category : string) (pg : Frontend.page) (db : database) :
  wire DEMO_API_KEY <> Some BACKEND_API_KEY \/ BACKEND_API_KEY = "" ->
  string_forallb Frontend.isspace value = false ->
  let shown :=
    Frontend.perform_search DEMO_API_KEY
                            (served_by release wire answers nearest
                                       BACKEND_API_KEY db)
                            icons value category pg in
  let status_code :=
    match wire DEMO_API_KEY with
    | Some (String _ _) => 401
    | _ => match release with Refuses403 => 403 | Refuses401 => 401 end
    end in
  Frontend.results_container (fst shown) = [failed_label]
  /\ snd shown = true
  /\ Frontend.notifications (fst shown)
     = Frontend.notifications pg
       ++ [Frontend.Notify
             ("Search failed: " ++ Frontend.decimal status_code)%string
             "negative"]
  /\ Frontend.search_results (fst shown) = Frontend.search_results pg.
Proof.
  intros Hkey Hvalue. cbv zeta.
  assert (Hne : Frontend.strip value <> EmptyString).
  { intro E. apply strip_empty_iff in E. congruence. }
  set (status_code :=
         match wire DEMO_API_KEY with
         | Some (String _ _) => 401
         | _ => match release with Refuses403 => 403 | Refuses401 => 401 end
         end).
  assert (Hreject : exists detail,
             depends_verify_api_key release BACKEND_API_KEY (wire DEMO_API_KEY)
             = Some (HTTPException status_code detail)).
  { unfold status_code.
    destruct (wire DEMO_API_KEY) as [[| c k] |] eqn:Hwire.
    - eexists. reflexivity.
    - exists "Invalid API key".
      apply depends_verify_api_key_rejects; [discriminate |].
      intro E. destruct Hkey as [Hkey | Hkey]; congruence.
    - eexists. reflexivity. }
  destruct Hreject as (detail & Hreject).
  assert (Hstatus : status_code <> 200).
  { unfold status_code. destruct (wire DEMO_API_KEY) as [[| c k] |];
      destruct release; discriminate. }
  pose proof (frontend_search_rejected release wire answers nearest
                BACKEND_API_KEY DEMO_API_KEY (Frontend.strip value) category 10
                db status_code detail Hreject Hstatus) as Hsearch.
  destruct (perform_search_returned
              DEMO_API_KEY
              (served_by release wire answers nearest BACKEND_API_KEY db)
              icons value category pg _ _ Hne Hsearch) as (Hfailed & _).
  rewrite (Hfailed eq_refl). cbn. auto.
Qed.

Lemma frontend_with_wrong_key_witness :
  Frontend.results_container
    (fst (Frontend.perform_search
            "guess"
            (served_by Refuses401 Some (fun _ => true) (fun _ l => rev l)
                       "demo-key-123" two_categories)
            (fun _ => "*") "boots" "Footwear"
            (Frontend.mk_page [] [] [] None "Camping Gear" None)))
  = [failed_label].
Proof.
  destruct (frontend_with_wrong_key
              Refuses401 Some (fun _ => true)
              (fun _ l => rev l) "demo-key-123" "guess" (fun _ => "*")
              "boots" "Footwear"
              (Frontend.mk_page [] [] [] None "Camping Gear" None)
              two_categories)
    as (Hshown & _).
  - left. discriminate.
  - reflexivity.
  - exact Hshown.
Defined.

(** X20: the frontend in front of a backend whose store raises. The key is
    the same on both sides, not empty, and reaches the backend as the
    client set it, but [similarity_search] raises for the query; the
    endpoint does not catch the exception, the framework answers with
    status 500, and the page shows the single label "Search failed. Please
    try again." with the one notification "Search failed: 500"; the
    remembered results stay. *)
Theorem frontend_when_store_raises
        (release : framework_release) (wire : string -> option string)
        (answers : string -> bool)
        (nearest : string -> list embedding -> list embedding)
        (API_KEY : string) (icons : nat -> string)
        (value category : string) (pg : Frontend.page) (db : database) :
  string_forallb Frontend.isspace value = false ->
  API_KEY <> "" ->
  wire API_KEY = Some API_KEY ->
  answers (Frontend.strip value) = false ->
  let shown :=
    Frontend.perform_search API_KEY
                            (served_by release wire answers nearest API_KEY db)
                            icons value category pg in
  Frontend.results_container (fst shown) = [failed_label]
  /\ snd shown = true
  /\ Frontend.notifications (fst shown)
     = Frontend.notifications pg
       ++ [Frontend.Notify "Search failed: 500" "negative"]
  /\ Frontend.search_results (fst shown) = Frontend.search_results pg.
Proof.
  intros Hvalue Hkey Hwire Hanswers. cbv zeta.
  assert (Hne : Frontend.strip value <> EmptyString).
  { intro E. apply strip_empty_iff in E. congruence. }
  assert (Hpass : depends_verify_api_key release API_KEY (wire API_KEY) = None).
  { rewrite Hwire. now apply depends_verify_api_key_accepts. }
  assert (Hsearch :
            Frontend.search_products
              API_KEY (served_by release wire answers nearest API_KEY db)
              (Frontend.strip value) category 10
            = (Frontend.PyNone,
               [Frontend.Notify "Search failed: 500" "negative"])).
  { unfold Frontend.search_products, served_by, search_products_endpoint.
    cbn [Frontend.req_api_key Frontend.req_search_query Frontend.req_category
         Frontend.req_k].
    rewrite Hpass, Hanswers. reflexivity. }
  destruct (perform_search_returned
              API_KEY (served_by release wire answers nearest API_KEY db)
              icons value category pg _ _ Hne Hsearch) as (Hfailed & _).
  rewrite (Hfailed eq_refl). cbn. auto.
Qed.

Lemma frontend_when_store_raises_witness :
  Frontend.notifications
    (fst (Frontend.perform_search
            "demo-key-123"
            (served_by Refuses401 Some (fun _ => false) (fun _ l => rev l)
                       "demo-key-123" two_categories)
            (fun _ => "*") "boots" "Footwear"
            (Frontend.mk_page [] [] [] None "Camping Gear" None)))
  = [Frontend.Notify "Search failed: 500" "negative"].
Proof.
  destruct (frontend_when_store_raises
              Refuses401 Some (fun _ => false)
              (fun _ l => rev l) "demo-key-123" (fun _ => "*")
              "boots" "Footwear"
              (Frontend.mk_page [] [] [] None "Camping Gear" None)
              two_categories)
    as (_ & _ & Hnotes & _).
  - reflexivity.
  - discriminate.
  - reflexivity.
  - reflexivity.
  - exact Hnotes.
Defined.
